(** * CarLog backend: maintenance scheduler and metrics engine

    A shallow embedding of the service layer of the CarLog backend
    (backend/services/*.py over backend/db/db_helper.py, and the record
    handler of backend/routes/maintenance.py) and the properties of its
    validation layer, maintenance scheduler, metrics engine and vehicle
    life cycle.

    Conventions of the embedding.
    - SQLite INTEGER columns and Python ints are [Z]; TEXT columns are
      [string] (ASCII text); a nullable column is an [option].  An
      INTEGER column holds 64-bit ints, a Python int has no bound: an
      int that is bound to a statement outside the 64-bit range raises
      OverflowError, and [float(n)] rounds an int of more than 53 bits.
    - A REAL that a table holds is the rational [Q] that the double
      denotes.  Python floats are the values of an arithmetic
      [FloatArith] whose operations are left abstract: what is proved
      of a method holds whatever the operations return, and so of the
      IEEE doubles.  The examples are run in the arithmetic of the
      exact rationals, [ExactArith.exact].
    - A table is the list of its rows in rowid order.  The columns
      created_at / updated_at and the free-text columns that no modelled
      operation reads (notes, description, shop_name, station, fuel_type,
      trim, engine_type, color, purchase_date, purchase_price, locations,
      purpose) are left out of the row records.
    - Every helper of db_helper.py opens its own connection and commits
      when its statement succeeds, so a service method is a sequence of
      separately committed statements.  A method is a function
      [Store -> result A * Store]: the store that comes back when an
      exception is raised holds everything committed before the raise.
    - A statement fails in two ways: on an int out of range
      (OverflowError), and on an INSERT into maintenance_intervals when
      AUTOINCREMENT has no id left (sqlite3.OperationalError).  The
      constraints that the modelled inserts could trip otherwise (the
      primary key of vehicles, NOT NULL columns, one interval per
      vehicle and service type) are ruled out by the checks that the
      services make before they insert.
    - Two things are outside the store: the users table (under
      db/schema.py the user_id of a vehicle has to name a user, so the
      statements about new and updated vehicles are about requests
      without user_id), and the rowids that SQLite draws at random once
      the largest 64-bit rowid of vehicles is in use (the statements
      about new vehicles ask for a rowid to be left). *)

From Stdlib Require Import ZArith QArith Qround List String Ascii Bool Lia Lqa.
From Stdlib Require Import Sorting.Permutation Sorting.Sorted DecimalString.
Import ListNotations.

Local Open Scope Z_scope.
Local Open Scope string_scope.

(* ================================================================== *)
(** ** Python values: exceptions, results, strings *)
(* ================================================================== *)

Module Py.

(** The exception classes of base_service.py, the built-in ones the
    modelled code can raise, and sqlite3.OperationalError. *)
Inductive Exception : Type :=
| ValidationError (message : string)
| NotFoundError (message : string)
| TypeError
| ValueError
| ZeroDivisionError
| OverflowError
| OperationalError.

Inductive result (A : Type) : Type :=
| Ok (a : A)
| Raise (e : Exception).
Arguments Ok {A} a.
Arguments Raise {A} e.

Definition is_ValidationError {A} (r : result A) : Prop :=
  exists message, r = Raise (ValidationError message).

Definition is_NotFoundError {A} (r : result A) : Prop :=
  exists message, r = Raise (NotFoundError message).

(** [str.isspace] on ASCII: TAB, LF, VT, FF, CR, FS, GS, RS, US, SPACE. *)
Definition isspace (c : ascii) : bool :=
  let n := nat_of_ascii c in
  ((9 <=? n) && (n <=? 13) || (28 <=? n) && (n <=? 32))%nat.

Fixpoint lstrip (s : string) : string :=
  match s with
  | EmptyString => EmptyString
  | String c s' => if isspace c then lstrip s' else s
  end.

Fixpoint rstrip (s : string) : string :=
  match s with
  | EmptyString => EmptyString
  | String c s' =>
      match rstrip s' with
      | EmptyString => if isspace c then EmptyString else String c EmptyString
      | r => String c r
      end
  end.

(** [str.strip()] *)
Definition strip (s : string) : string := rstrip (lstrip s).

Definition upper_char (c : ascii) : ascii :=
  let n := nat_of_ascii c in
  if ((97 <=? n) && (n <=? 122))%nat then ascii_of_nat (n - 32) else c.

(** [str.upper()] *)
Fixpoint upper (s : string) : string :=
  match s with
  | EmptyString => EmptyString
  | String c s' => String (upper_char c) (upper s')
  end.

(** Truthiness of a str: [not s] holds for the empty string only. *)
Definition str_truthy (s : string) : bool :=
  match s with EmptyString => false | _ => true end.

(** Truthiness of an int that may be None: [None] and [0] are falsy. *)
Definition int_truthy (x : option Z) : bool :=
  match x with
  | None => false
  | Some z => negb (z =? 0)%Z
  end.

(** [x or 0] for an int that may be None. *)
Definition or_zero (x : option Z) : Z :=
  match x with
  | None => 0
  | Some z => z
  end.

(** [c in s] for a character and a string. *)
Fixpoint char_in (c : ascii) (s : string) : bool :=
  match s with
  | EmptyString => false
  | String d s' => Ascii.eqb c d || char_in c s'
  end.

(** [any(p(c) for c in s)] *)
Fixpoint any_char (p : ascii -> bool) (s : string) : bool :=
  match s with
  | EmptyString => false
  | String c s' => p c || any_char p s'
  end.

(** [a < b] on the values of two doubles. *)
Definition float_lt (a b : Q) : bool := negb (Qle_bool b a).

(** Python floats and SQLite REALs are IEEE doubles.  A REAL that a
    table holds is finite and is kept as the rational it denotes; the
    tests that the code makes on it are made on that rational.  What an
    operation on doubles returns (a quotient, a sum, a rounding) is not
    computed here: the methods are written over the operations below
    and their properties are proved whatever the operations return, so
    they hold of the operations of the doubles. *)
Class FloatArith : Type := {
  float : Type;
  (* a REAL read from a table, as a Python float *)
  float_of_real : Q -> float;
  (* float(n), the conversion that an int operand goes through *)
  float_of_int : Z -> float;
  (* x + y, and x / y for a y that is not zero *)
  float_add : float -> float -> float;
  float_div : float -> float -> float;
  (* a / b on two ints, for a b that is not zero *)
  int_div : Z -> Z -> float;
  (* x < y *)
  float_less : float -> float -> bool;
  (* round(x, ndigits) *)
  float_round : float -> Z -> float;
  (* sum(l) for a list of floats with an item *)
  float_sum : list float -> float;
  (* SUM(column) and AVG(column) over the REALs of one row or more *)
  sql_sum : list Q -> float;
  sql_avg : list Q -> float
}.

(** A Python number: an int or a float. *)
Inductive number {arith : FloatArith} : Type :=
| Int (n : Z)
| Float (x : float).

Section Numbers.

Context {arith : FloatArith}.

(** [a + b] *)
Definition py_add (a b : number) : number :=
  match a, b with
  | Int m, Int n => Int (m + n)
  | Int m, Float y => Float (float_add (float_of_int m) y)
  | Float x, Int n => Float (float_add x (float_of_int n))
  | Float x, Float y => Float (float_add x y)
  end.

(** [x / n] for an int [n]: ZeroDivisionError for 0, and otherwise a
    float, the quotient of two ints or of two floats. *)
Definition quotient (x : number) (n : Z) : float :=
  match x with
  | Int m => int_div m n
  | Float y => float_div y (float_of_int n)
  end.

Definition div_by_int (x : number) (n : Z) : result float :=
  if (n =? 0)%Z then Raise ZeroDivisionError else Ok (quotient x n).

(** [n / x] for an int [n] and a REAL [x] read from a table. *)
Definition div_by_real (n : Z) (x : Q) : result float :=
  if Qeq_bool x 0 then Raise ZeroDivisionError
  else Ok (float_div (float_of_int n) (float_of_real x)).

(** [round(x, ndigits)] with [ndigits] from 1 to 3: an int comes back
    as it is. *)
Definition py_round (x : number) (ndigits : Z) : number :=
  match x with
  | Int n => Int n
  | Float y => Float (float_round y ndigits)
  end.

(** [max(l)] and [min(l)] on a list of floats: ValueError on an empty
    list; the first item is kept until a later one is larger (for
    [max]) or smaller (for [min]). *)
Definition py_max (l : list float) : result float :=
  match l with
  | [] => Raise ValueError
  | x :: l' => Ok (fold_left (fun m y => if float_less m y then y else m) l' x)
  end.

Definition py_min (l : list float) : result float :=
  match l with
  | [] => Raise ValueError
  | x :: l' => Ok (fold_left (fun m y => if float_less y m then y else m) l' x)
  end.

End Numbers.

(** The range of an SQLite INTEGER, and of the ints that sqlite3 takes
    as parameters. *)
Definition INT64_MIN : Z := -9223372036854775808.
Definition INT64_MAX : Z := 9223372036854775807.

Definition int64 (n : Z) : bool := (INT64_MIN <=? n)%Z && (n <=? INT64_MAX)%Z.

(** The double nearest to an int [n >= 0], which is an integer: [n]
    itself when it has 53 bits or fewer, and otherwise [n] rounded to
    its 53 leading bits, a tie going to the even one. *)
Definition nearest_double (n : Z) : Z :=
  let shift := Z.log2 n - 52 in
  if (shift <=? 0)%Z then n
  else
    let leading := Z.shiftr n shift in
    let rest := Z.land n (Z.ones shift) in
    let half := Z.shiftl 1 (shift - 1) in
    let rounded :=
      if (rest <? half)%Z then leading
      else if (half <? rest)%Z then leading + 1
      else if Z.even leading then leading
      else leading + 1 in
    Z.shiftl rounded shift.

(** The doubles end below 2^1024. *)
Definition DOUBLE_LIMIT : Z := 2 ^ 1024.

(** [float(n)] for an int [n], as the integer that the double is:
    OverflowError when the nearest double would be out of range. *)
Definition float_of (n : Z) : result Z :=
  let x := nearest_double (Z.abs n) in
  if (DOUBLE_LIMIT <=? x)%Z then Raise OverflowError
  else Ok (Z.sgn n * x).

(** [str(n)] for an int. *)
Definition str_of_int (n : Z) : string :=
  NilZero.string_of_int (Z.to_int n).

End Py.
Export Py.

(* ================================================================== *)
(** ** Validation layer (services/base_service.py) *)
(* ================================================================== *)

Module Validation.

(** [invalid_chars = set('IOQ')] *)
Definition invalid_chars : string := "IOQ".

(** base_service.validate_vin *)
Definition validate_vin (vin : string) : result string :=
  if negb (str_truthy vin) then
    Raise (ValidationError "VIN is required")
  else
    let vin := upper (strip vin) in
    if negb (String.length vin =? 17)%nat then
      Raise (ValidationError "VIN must be exactly 17 characters")
    else if any_char (fun c => char_in c invalid_chars) vin then
      Raise (ValidationError "VIN cannot contain I, O, or Q")
    else Ok vin.

(** base_service.validate_positive_number on an int argument:
    [float(value)], whose OverflowError no except clause catches, and
    the sign test.  The float that is returned is the integer
    [float_of value]; the [int(...)] that the callers wrap around the
    call gives that integer. *)
Definition validate_positive_number (value : Z) (field_name : string)
  : result Z :=
  match float_of value with
  | Raise e => Raise e
  | Ok num =>
      if (num <? 0)%Z then
        Raise (ValidationError (field_name ++ " must be a positive number"))
      else Ok num
  end.

End Validation.
Export Validation.

(* ================================================================== *)
(** ** The persistent store (db/schema.py, db/db_helper.py) *)
(* ================================================================== *)

Module Schema.

(** vehicles: [vin TEXT PRIMARY KEY], an ordinary rowid table. *)
Record Vehicle : Type := mkVehicle {
  v_rowid : Z;
  v_vin : string;
  v_year : Z;
  v_make : string;
  v_model : string;
  v_current_mileage : option Z;
  v_user_id : option Z
}.

Record Repair : Type := mkRepair {
  r_id : Z;
  r_vin : string;
  r_service : string;
  r_cost : Q;
  r_mileage : option Z;
  r_date : string
}.

Record FuelLog : Type := mkFuelLog {
  f_id : Z;
  f_vin : string;
  f_gallons : Q;
  f_price_per_gallon : Q;
  f_total_cost : Q;
  f_odometer : Z;
  f_date : string;
  f_full_tank : option Z
}.

Record MaintenanceInterval : Type := mkInterval {
  m_id : Z;
  m_vin : string;
  m_service_type : string;
  m_interval_miles : option Z;
  m_interval_months : option Z;
  m_last_performed_date : option string;
  m_last_performed_mileage : option Z;
  m_next_due_date : option string;
  m_next_due_mileage : option Z;
  m_is_custom : option Z
}.

Record MileageEntry : Type := mkMileage {
  h_id : Z;
  h_vin : string;
  h_mileage : Z;
  h_date : string;
  h_source : option string
}.

Record Trip : Type := mkTrip {
  t_id : Z;
  t_vin : string;
  t_start_mileage : option Z;
  t_end_mileage : option Z;
  t_distance : option Q;
  t_date : string;
  t_is_business : option Z
}.

(** The database file.  [seq_maintenance_intervals] is the
    sqlite_sequence entry of the AUTOINCREMENT key of
    maintenance_intervals: the largest id ever handed out. *)
Record Store : Type := mkStore {
  vehicles : list Vehicle;
  repairs : list Repair;
  fuel_logs : list FuelLog;
  maintenance_intervals : list MaintenanceInterval;
  mileage_history : list MileageEntry;
  trips : list Trip;
  seq_maintenance_intervals : Z
}.

Definition empty_store : Store := mkStore [] [] [] [] [] [] 0.

(** The tables that hold a [vin] column pointing at a vehicle. *)
Inductive DependentTable : Type :=
| Trips | FuelLogs | Repairs | MaintenanceIntervals | MileageHistory.

(** A value bound to a [?] placeholder. *)
Inductive SqlValue : Type :=
| SqlInteger (n : Z)
| SqlText (s : string).

End Schema.
Export Schema.

Module Db.

(** A service method: the store threaded through separately committed
    statements, and the value returned or the exception raised. *)
Definition M (A : Type) : Type := Store -> result A * Store.

Definition ret {A} (a : A) : M A := fun s => (Ok a, s).

Definition bind {A B} (m : M A) (k : A -> M B) : M B :=
  fun s =>
    match m s with
    | (Ok a, s') => k a s'
    | (Raise e, s') => (Raise e, s')
    end.

Definition raise {A} (e : Exception) : M A := fun s => (Raise e, s).

(** A pure computation that may raise. *)
Definition lift {A} (r : result A) : M A := fun s => (r, s).

(** [try: body / except Exception: pass] *)
Definition try_pass {A} (body : M A) : M unit :=
  fun s => (Ok tt, snd (body s)).

(** The ints among the parameters of a statement ([None] for a None):
    sqlite3 raises OverflowError for one that is outside the 64-bit
    range when it binds it, before the statement runs. *)
Definition bind_ints (params : list (option Z)) : M unit :=
  fun s =>
    if forallb (fun param => match param with
                             | Some n => int64 n
                             | None => true
                             end) params
    then (Ok tt, s)
    else (Raise OverflowError, s).

(** A SELECT: reads the store, leaves it as it is. *)
Definition execute_query {A} (select : Store -> A) : M A :=
  fun s => (Ok (select s), s).

(** [for x in xs: body(x)] *)
Fixpoint for_each {A} (xs : list A) (body : A -> M unit) : M unit :=
  match xs with
  | [] => ret tt
  | x :: xs' => bind (body x) (fun _ => for_each xs' body)
  end.

(** [column = ?] on a TEXT column.  A bound parameter has no affinity
    of its own, so SQLite applies the TEXT affinity of the column to it
    before comparing: a text parameter is compared as it is, an integer
    parameter is first converted to its decimal text. *)
Definition text_column_eq (column : string) (param : SqlValue) : bool :=
  match param with
  | SqlText s => String.eqb column s
  | SqlInteger n => String.eqb column (str_of_int n)
  end.

(** ORDER BY: a stable insertion sort; [le a b] says that [a] may come
    before [b].  Rows with equal keys keep their table order (SQLite
    leaves their order open). *)
Fixpoint insert_by {A} (le : A -> A -> bool) (x : A) (l : list A) : list A :=
  match l with
  | [] => [x]
  | y :: l' => if le x y then x :: l else y :: insert_by le x l'
  end.

Definition order_by {A} (le : A -> A -> bool) (l : list A) : list A :=
  fold_right (insert_by le) [] l.

(** LIMIT n: a negative bound means no bound. *)
Definition sql_limit {A} (n : Z) (l : list A) : list A :=
  if (n <? 0)%Z then l else firstn (Z.to_nat n) l.

(** MIN(column) and MAX(column): NULL over no rows. *)
Definition sql_min (l : list Z) : option Z :=
  match l with
  | [] => None
  | x :: l' => Some (fold_left Z.min l' x)
  end.

Definition sql_max (l : list Z) : option Z :=
  match l with
  | [] => None
  | x :: l' => Some (fold_left Z.max l' x)
  end.

(** [execute_delete(table, 'vin = ?', (vin,))] on each dependent table;
    returns cursor.rowcount. *)
Definition keep_other_vin {A} (vin_of : A -> string) (vin : string)
  : list A -> list A :=
  filter (fun row => negb (String.eqb (vin_of row) vin)).

Definition count_vin {A} (vin_of : A -> string) (vin : string) (l : list A) : Z :=
  Z.of_nat (List.length (filter (fun row => String.eqb (vin_of row) vin) l)).

Definition execute_delete (table : DependentTable) (vin : string) : M Z :=
  fun s =>
    match table with
    | Trips =>
        (Ok (count_vin t_vin vin (trips s)),
         mkStore (vehicles s) (repairs s) (fuel_logs s)
           (maintenance_intervals s) (mileage_history s)
           (keep_other_vin t_vin vin (trips s))
           (seq_maintenance_intervals s))
    | FuelLogs =>
        (Ok (count_vin f_vin vin (fuel_logs s)),
         mkStore (vehicles s) (repairs s)
           (keep_other_vin f_vin vin (fuel_logs s))
           (maintenance_intervals s) (mileage_history s) (trips s)
           (seq_maintenance_intervals s))
    | Repairs =>
        (Ok (count_vin r_vin vin (repairs s)),
         mkStore (vehicles s)
           (keep_other_vin r_vin vin (repairs s))
           (fuel_logs s) (maintenance_intervals s) (mileage_history s)
           (trips s) (seq_maintenance_intervals s))
    | MaintenanceIntervals =>
        (Ok (count_vin m_vin vin (maintenance_intervals s)),
         mkStore (vehicles s) (repairs s) (fuel_logs s)
           (keep_other_vin m_vin vin (maintenance_intervals s))
           (mileage_history s) (trips s) (seq_maintenance_intervals s))
    | MileageHistory =>
        (Ok (count_vin h_vin vin (mileage_history s)),
         mkStore (vehicles s) (repairs s) (fuel_logs s)
           (maintenance_intervals s)
           (keep_other_vin h_vin vin (mileage_history s))
           (trips s) (seq_maintenance_intervals s))
    end.

End Db.
Export Db.

Declare Scope db_scope.
Delimit Scope db_scope with db.
Notation "x <- m ;; k" := (bind m (fun x => k))
  (at level 100, m at next level, right associativity) : db_scope.
Notation "m ;;; k" := (bind m (fun _ => k))
  (at level 100, right associativity) : db_scope.

(* ================================================================== *)
(** ** Maintenance scheduler (services/maintenance_service.py) *)
(* ================================================================== *)

Module MaintenanceService.

Local Open Scope db_scope.

(** Service type, then miles and months. *)
Definition DEFAULT_INTERVALS : list (string * (Z * Z)) :=
  [ ("Oil Change", (5000, 6));
    ("Transmission Fluid", (60000, 48));
    ("Brake Inspection", (25000, 24));
    ("Air Filter", (15000, 12));
    ("Tire Rotation", (7500, 6));
    ("Coolant Flush", (30000, 36));
    ("Spark Plugs", (60000, 60));
    ("Battery Check", (25000, 24));
    ("Brake Fluid", (30000, 24));
    ("Power Steering Fluid", (50000, 48)) ].

(** SELECT current_mileage FROM vehicles WHERE vin = ?  (fetch_one) *)
Definition select_current_mileage (vin : string) (s : Store)
  : option (option Z) :=
  option_map v_current_mileage
    (find (fun v => String.eqb (v_vin v) vin) (vehicles s)).

(** SELECT ... FROM maintenance_intervals
    WHERE vin = ? AND service_type = ?  (fetch_one) *)
Definition select_interval (vin service_type : string) (s : Store)
  : option MaintenanceInterval :=
  find (fun m => String.eqb (m_vin m) vin
                 && String.eqb (m_service_type m) service_type)
       (maintenance_intervals s).

(** ORDER BY next_due_mileage ASC NULLS LAST *)
Definition next_due_asc_nulls_last (a b : MaintenanceInterval) : bool :=
  match m_next_due_mileage a, m_next_due_mileage b with
  | Some x, Some y => (x <=? y)%Z
  | Some _, None => true
  | None, Some _ => false
  | None, None => true
  end.

(** ORDER BY next_due_mileage ASC (NULLs sort first) *)
Definition next_due_asc (a b : MaintenanceInterval) : bool :=
  match m_next_due_mileage a, m_next_due_mileage b with
  | Some x, Some y => (x <=? y)%Z
  | None, _ => true
  | Some _, None => false
  end.

(** MaintenanceService.get_by_vin *)
Definition get_by_vin (vin : string) : M (list MaintenanceInterval) :=
  vin <- lift (validate_vin vin) ;;
  execute_query (fun s =>
    order_by next_due_asc_nulls_last
      (filter (fun m => String.eqb (m_vin m) vin) (maintenance_intervals s))).

(** [next_due_mileage < ?]: never true of a NULL. *)
Definition next_due_before (current_mileage : Z) (m : MaintenanceInterval)
  : bool :=
  match m_next_due_mileage m with
  | Some due => (due <? current_mileage)%Z
  | None => false
  end.

(** MaintenanceService.get_overdue *)
Definition get_overdue (vin : string) : M (list MaintenanceInterval) :=
  vin <- lift (validate_vin vin) ;;
  vehicle <- execute_query (select_current_mileage vin) ;;
  match vehicle with
  | None => ret []
  | Some current =>
      if negb (int_truthy current) then ret []
      else
        let current_mileage := or_zero current in
        execute_query (fun s =>
          order_by next_due_asc
            (filter (fun m => String.eqb (m_vin m) vin
                              && next_due_before current_mileage m)
                    (maintenance_intervals s)))
  end.

(** The largest id in use in maintenance_intervals. *)
Definition max_id (l : list MaintenanceInterval) : Z :=
  fold_left Z.max (map m_id l) 0.

(** The id that AUTOINCREMENT gives to the next interval: one more
    than [last_id], the largest id that was ever handed out or is in
    use.  When that is the largest 64-bit integer the insert fails
    (SQLITE_FULL, sqlite3.OperationalError). *)
Definition last_id (s : Store) : Z :=
  Z.max (seq_maintenance_intervals s) (max_id (maintenance_intervals s)).

Definition next_id (s : Store) : result Z :=
  if (INT64_MAX <=? last_id s)%Z then Raise OperationalError
  else Ok (last_id s + 1).

(** INSERT INTO maintenance_intervals, once the parameters are bound:
    [row] is the new row but for its id; returns cursor.lastrowid. *)
Definition append_interval (row : Z -> MaintenanceInterval) : M Z :=
  fun s =>
    match next_id s with
    | Raise e => (Raise e, s)
    | Ok new_id =>
        (Ok new_id,
         mkStore (vehicles s) (repairs s) (fuel_logs s)
           (maintenance_intervals s ++ [row new_id])
           (mileage_history s) (trips s) new_id)
    end.

(** [execute_insert('maintenance_intervals', {vin, service_type,
    interval_miles, interval_months, next_due_mileage})]: the other
    columns take their defaults (NULL, and 0 for is_custom); returns
    cursor.lastrowid. *)
Definition execute_insert (vin service_type : string)
    (interval_miles interval_months next_due_mileage : Z) : M Z :=
  bind_ints [Some interval_miles; Some interval_months;
             Some next_due_mileage] ;;;
  append_interval (fun new_id =>
    mkInterval new_id vin service_type (Some interval_miles)
      (Some interval_months) None None None (Some next_due_mileage)
      (Some 0)).

(** The body of the loop of initialize_for_vehicle, for one item
    [service_type, intervals] of DEFAULT_INTERVALS. *)
Definition seed_default (vin : string) (current_mileage : Z)
    (entry : string * (Z * Z)) : M unit :=
  let service_type := fst entry in
  let intervals := snd entry in
  existing <- execute_query (select_interval vin service_type) ;;
  match existing with
  | Some _ => ret tt
  | None =>
      let next_mileage := current_mileage + fst intervals in
      execute_insert vin service_type (fst intervals) (snd intervals)
        next_mileage ;;;
      ret tt
  end.

(** MaintenanceService.initialize_for_vehicle *)
Definition initialize_for_vehicle (vin : string)
  : M (list MaintenanceInterval) :=
  vin <- lift (validate_vin vin) ;;
  vehicle <- execute_query (select_current_mileage vin) ;;
  match vehicle with
  | None => raise (NotFoundError ("Vehicle with VIN " ++ vin ++ " not found"))
  | Some current =>
      let current_mileage := or_zero current in
      for_each DEFAULT_INTERVALS (seed_default vin current_mileage) ;;;
      get_by_vin vin
  end.

(** BaseService.get_by_id with table_name = maintenance_intervals and
    primary_key = id. *)
Definition get_by_id (id_value : Z) (s : Store) : option MaintenanceInterval :=
  find (fun m => (m_id m =? id_value)%Z) (maintenance_intervals s).

(** The dict that record_service hands to [cls.update]. *)
Record ServiceRecord : Type := mkServiceRecord {
  last_performed_date : string;
  last_performed_mileage : option Z;
  next_due_date : option string;
  next_due_mileage : option Z
}.

Definition set_service_record (data : ServiceRecord) (m : MaintenanceInterval)
  : MaintenanceInterval :=
  mkInterval (m_id m) (m_vin m) (m_service_type m) (m_interval_miles m)
    (m_interval_months m) (Some (last_performed_date data))
    (last_performed_mileage data) (next_due_date data)
    (next_due_mileage data) (m_is_custom m).

(** UPDATE maintenance_intervals SET ... WHERE id = ?, once the
    parameters are bound; returns cursor.rowcount. *)
Definition set_interval (data : ServiceRecord) (id_value : Z) : M Z :=
  fun s =>
    (Ok (Z.of_nat (List.length
           (filter (fun m => (m_id m =? id_value)%Z) (maintenance_intervals s)))),
     mkStore (vehicles s) (repairs s) (fuel_logs s)
       (map (fun m => if (m_id m =? id_value)%Z
                      then set_service_record data m else m)
            (maintenance_intervals s))
       (mileage_history s) (trips s) (seq_maintenance_intervals s)).

(** [execute_update('maintenance_intervals', data, 'id = ?', (id,))]
    for the dict of record_service and the id of a row of the table:
    the two mileages are the ints that can be out of range. *)
Definition execute_update (data : ServiceRecord) (id_value : Z) : M Z :=
  bind_ints [last_performed_mileage data; next_due_mileage data] ;;;
  set_interval data id_value.

(** BaseService.update on maintenance_intervals, as record_service
    calls it: with the id of the row it has selected.  The four keys of
    a ServiceRecord are all allowed fields, so the filtered dict is
    never empty. *)
Definition update (id_value : Z) (data : ServiceRecord)
  : M (option MaintenanceInterval) :=
  existing <- execute_query (get_by_id id_value) ;;
  match existing with
  | None =>
      raise (NotFoundError ("maintenance_intervals with id="
                            ++ str_of_int id_value ++ " not found"))
  | Some _ =>
      execute_update data id_value ;;;
      execute_query (get_by_id id_value)
  end.

Section WithDatetime.

(** The datetime module, seen through the three calls that
    record_service makes: [datetime.now().strftime('%Y-%m-%d')],
    [datetime.strptime(s, '%Y-%m-%d')] as the proleptic Gregorian
    ordinal of the day ([None] for ValueError), and
    [d.strftime('%Y-%m-%d')] on such an ordinal. *)
Variable today : string.
Variable strptime : string -> option Z.
Variable strftime : Z -> string.

(** date.min and date.max as ordinals: 0001-01-01 and 9999-12-31. *)
Definition MINORDINAL : Z := 1.
Definition MAXORDINAL : Z := 3652059.

(** base_service.validate_date *)
Definition validate_date (date_str : string) : result string :=
  if negb (str_truthy date_str) then
    Raise (ValidationError "Date is required")
  else
    match strptime date_str with
    | Some _ => Ok date_str
    | None => Raise (ValidationError "Date must be in YYYY-MM-DD format")
    end.

(** [(datetime.strptime(date, '%Y-%m-%d') + timedelta(days=n))
    .strftime('%Y-%m-%d')] *)
Definition plus_days (date : string) (n : Z) : result string :=
  match strptime date with
  | None => Raise ValueError
  | Some day =>
      if ((MINORDINAL <=? day + n) && (day + n <=? MAXORDINAL))%Z
      then Ok (strftime (day + n))
      else Raise OverflowError
  end.

(** record_service, lines 167-170: the date that is recorded. *)
Definition recorded_date (date : option string) : result string :=
  match date with
  | Some d => if str_truthy d then validate_date d else Ok today
  | None => Ok today
  end.

(** record_service, lines 181-189: the mileage that is recorded. *)
Definition recorded_mileage (vin : string) (mileage : option Z)
  : M (option Z) :=
  match mileage with
  | None =>
      vehicle <- execute_query (select_current_mileage vin) ;;
      match vehicle with
      | Some current => ret current
      | None => ret (Some 0)
      end
  | Some value =>
      checked <- lift (validate_positive_number value "Mileage") ;;
      ret (Some checked)
  end.

(** MaintenanceService.record_service *)
Definition record_service (vin service_type : string)
    (date : option string) (mileage : option Z)
  : M (option MaintenanceInterval) :=
  vin <- lift (validate_vin vin) ;;
  date <- lift (recorded_date date) ;;
  interval <- execute_query (select_interval vin service_type) ;;
  match interval with
  | None =>
      raise (NotFoundError ("No maintenance interval found for '"
                            ++ service_type ++ "'"))
  | Some interval =>
      mileage <- recorded_mileage vin mileage ;;
      next_mileage <-
        (if int_truthy (m_interval_miles interval) then
           match mileage with
           | Some m => ret (Some (m + or_zero (m_interval_miles interval)))
           | None => raise TypeError
           end
         else ret None) ;;
      next_date <-
        (if int_truthy (m_interval_months interval) then
           d <- lift (plus_days date
                        (or_zero (m_interval_months interval) * 30)) ;;
           ret (Some d)
         else ret None) ;;
      update (m_id interval)
        (mkServiceRecord date mileage next_date next_mileage)
  end.

End WithDatetime.

(** WHERE next_due_mileage IS NOT NULL *)
Definition has_next_due (m : MaintenanceInterval) : bool :=
  match m_next_due_mileage m with
  | Some _ => true
  | None => false
  end.

(** MaintenanceService.get_upcoming *)
Definition get_upcoming (vin : string) (limit : Z)
  : M (list MaintenanceInterval) :=
  vin <- lift (validate_vin vin) ;;
  bind_ints [Some limit] ;;;
  execute_query (fun s =>
    sql_limit limit
      (order_by next_due_asc
         (filter (fun m => String.eqb (m_vin m) vin && has_next_due m)
                 (maintenance_intervals s)))).

(** The status strings of get_maintenance_schedule. *)
Inductive Status : Type :=
| overdue
| due_soon
| ok
| unknown.

(** One item of the schedule: the columns of the interval, copied, and
    the two derived keys. *)
Record ScheduleItem : Type := mkScheduleItem {
  item_interval : MaintenanceInterval;
  miles_until_due : option Z;
  status : Status
}.

Record Schedule : Type := mkSchedule {
  schedule_vin : string;
  schedule_current_mileage : option Z;
  schedule_intervals : list ScheduleItem
}.

(** The body of the loop of get_maintenance_schedule. *)
Definition schedule_item (current_mileage : option Z)
    (interval : MaintenanceInterval) : ScheduleItem :=
  match m_next_due_mileage interval with
  | Some next_due =>
      if int_truthy current_mileage then
        let miles_until := next_due - or_zero current_mileage in
        mkScheduleItem interval (Some miles_until)
          (if (miles_until <? 0)%Z then overdue
           else if (miles_until <? 500)%Z then due_soon
           else ok)
      else mkScheduleItem interval None unknown
  | None => mkScheduleItem interval None unknown
  end.

(** MaintenanceService.get_maintenance_schedule *)
Definition get_maintenance_schedule (vin : string) : M Schedule :=
  vin <- lift (validate_vin vin) ;;
  intervals <- get_by_vin vin ;;
  vehicle <- execute_query (select_current_mileage vin) ;;
  let current_mileage :=
    match vehicle with
    | Some current => current
    | None => Some 0
    end in
  ret (mkSchedule vin current_mileage
         (map (schedule_item current_mileage) intervals)).

(** The request body of an interval creation.  [None] is a key that is
    absent or null; for interval_miles and is_custom the two differ
    (the defaults are looked up for an absent interval_miles only, and
    an absent is_custom takes the column default). *)
Record IntervalData : Type := mkIntervalData {
  i_vin : option string;
  i_service_type : option string;
  i_interval_miles : option (option Z);
  i_interval_months : option Z;
  i_last_performed_date : option string;
  i_last_performed_mileage : option Z;
  i_next_due_date : option string;
  i_next_due_mileage : option Z;
  i_is_custom : option (option Z)
}.

(** [DEFAULT_INTERVALS[service_type]], when the key is there. *)
Definition default_interval (service_type : string) : option (Z * Z) :=
  option_map snd
    (find (fun entry => String.eqb (fst entry) service_type) DEFAULT_INTERVALS).

(** BaseService.validate_required with
    required_fields = [vin, service_type]. *)
Definition validate_required (data : IntervalData) : result unit :=
  let missing :=
    ((match i_vin data with None => ["vin"] | Some _ => [] end)
     ++ (match i_service_type data with
         | None => ["service_type"]
         | Some _ => []
         end))%list in
  match missing with
  | [] => Ok tt
  | _ => Raise (ValidationError
                  ("Missing required fields: " ++ String.concat ", " missing))
  end.

(** [execute_insert('maintenance_intervals', data)] for the dict of a
    creation; returns cursor.lastrowid.  Called once validate_required
    has passed.  [interval_ints] are the ints among the values of the
    dict. *)
Definition interval_ints (data : IntervalData) : list (option Z) :=
  [ match i_interval_miles data with Some given => given | None => None end;
    i_interval_months data;
    i_last_performed_mileage data;
    i_next_due_mileage data;
    match i_is_custom data with Some given => given | None => None end ].

Definition insert_interval (data : IntervalData) : M Z :=
  bind_ints (interval_ints data) ;;;
  append_interval (fun new_id =>
    mkInterval new_id
      (match i_vin data with Some x => x | None => EmptyString end)
      (match i_service_type data with Some x => x | None => EmptyString end)
      (match i_interval_miles data with Some given => given | None => None end)
      (i_interval_months data)
      (i_last_performed_date data)
      (i_last_performed_mileage data)
      (i_next_due_date data)
      (i_next_due_mileage data)
      (match i_is_custom data with Some given => given | None => Some 0 end)).

(** BaseService.create on maintenance_intervals *)
Definition base_create (data : IntervalData) : M (option MaintenanceInterval) :=
  lift (validate_required data) ;;;
  new_id <- insert_interval data ;;
  execute_query (get_by_id new_id).

(** MaintenanceService.create, lines 144-152: the dict that goes to
    BaseService.create, with the validated VIN, the defaults that were
    looked up and the next-due mileage that was computed. *)
Definition completed (data : IntervalData) (vin service_type : string)
    (current : option Z) : IntervalData :=
  let defaulted :=
    match i_interval_miles data, default_interval service_type with
    | None, Some (miles, months) => (Some (Some miles), Some months)
    | given, _ => (given, i_interval_months data)
    end in
  let interval_miles := fst defaulted in
  let interval_months := snd defaulted in
  let current_mileage := or_zero current in
  let next_due_mileage :=
    match interval_miles with
    | Some miles =>
        if int_truthy miles && negb (int_truthy (i_next_due_mileage data))
        then Some (current_mileage + or_zero miles)
        else i_next_due_mileage data
    | None => i_next_due_mileage data
    end in
  mkIntervalData (Some vin) (Some service_type) interval_miles
    interval_months (i_last_performed_date data)
    (i_last_performed_mileage data) (i_next_due_date data)
    next_due_mileage (i_is_custom data).

(** MaintenanceService.create *)
Definition create (data : IntervalData) : M (option MaintenanceInterval) :=
  vin <- lift (validate_vin
                 (match i_vin data with Some x => x | None => EmptyString end)) ;;
  (if negb (match i_service_type data with
            | Some x => str_truthy x
            | None => false
            end)
   then raise (ValidationError "Service type is required")
   else ret tt) ;;;
  let service_type :=
    match i_service_type data with Some x => x | None => EmptyString end in
  vehicle <- execute_query (select_current_mileage vin) ;;
  match vehicle with
  | None => raise (NotFoundError ("Vehicle with VIN " ++ vin ++ " not found"))
  | Some current =>
      existing <- execute_query (select_interval vin service_type) ;;
      match existing with
      | Some _ =>
          raise (ValidationError ("Maintenance interval for '" ++ service_type
                                  ++ "' already exists"))
      | None => base_create (completed data vin service_type current)
      end
  end.

(** [execute_delete('maintenance_intervals', 'id = ?', (id,))] *)
Definition execute_delete_by_id (id_value : Z) : M Z :=
  fun s =>
    (Ok (Z.of_nat (List.length
           (filter (fun m => (m_id m =? id_value)%Z) (maintenance_intervals s)))),
     mkStore (vehicles s) (repairs s) (fuel_logs s)
       (filter (fun m => negb (m_id m =? id_value)%Z) (maintenance_intervals s))
       (mileage_history s) (trips s) (seq_maintenance_intervals s)).

(** BaseService.delete on maintenance_intervals *)
Definition delete (id_value : Z) : M bool :=
  bind_ints [Some id_value] ;;;
  existing <- execute_query (get_by_id id_value) ;;
  match existing with
  | None =>
      raise (NotFoundError ("maintenance_intervals with id="
                            ++ str_of_int id_value ++ " not found"))
  | Some _ =>
      rows <- execute_delete_by_id id_value ;;
      ret (0 <? rows)%Z
  end.

End MaintenanceService.

(* ================================================================== *)
(** ** Vehicles (services/vehicle_service.py over BaseService) *)
(* ================================================================== *)

Module VehicleService.

Local Open Scope db_scope.

(** The request body of a vehicle creation.  [None] is a key that is
    absent or null; for current_mileage the two differ (an absent key
    takes the column default, a null is stored). *)
Record VehicleData : Type := mkVehicleData {
  d_vin : option string;
  d_year : option Z;
  d_make : option string;
  d_model : option string;
  d_current_mileage : option (option Z);
  d_user_id : option Z
}.

(** BaseService.get_by_id with table_name = vehicles and
    primary_key = vin:  SELECT * FROM vehicles WHERE vin = ? *)
Definition get_by_id (id_value : SqlValue) (s : Store) : option Vehicle :=
  find (fun v => text_column_eq (v_vin v) id_value) (vehicles s).

(** BaseService.exists *)
Definition exists_ (id_value : SqlValue) (s : Store) : bool :=
  match get_by_id id_value s with
  | Some _ => true
  | None => false
  end.

(** BaseService.validate_required with
    required_fields = [vin, year, make, model]. *)
Definition validate_required (data : VehicleData) : result unit :=
  let missing :=
    ((match d_vin data with None => ["vin"] | Some _ => [] end)
     ++ (match d_year data with None => ["year"] | Some _ => [] end)
     ++ (match d_make data with None => ["make"] | Some _ => [] end)
     ++ (match d_model data with None => ["model"] | Some _ => [] end))%list in
  match missing with
  | [] => Ok tt
  | _ => Raise (ValidationError
                  ("Missing required fields: " ++ String.concat ", " missing))
  end.

(** The rowid that SQLite gives to the next row of vehicles: one more
    than the largest in use, 1 in an empty table.  (Once the largest
    64-bit integer is in use SQLite draws unused rowids at random; the
    statements about new rows ask for [rowid_room].) *)
Definition next_rowid (l : list Vehicle) : Z :=
  fold_left Z.max (map v_rowid l) 0 + 1.

(** INSERT INTO vehicles, once the parameters are bound; returns
    cursor.lastrowid. *)
Definition append_vehicle (data : VehicleData) : M Z :=
  fun s =>
    let rowid := next_rowid (vehicles s) in
    let row :=
      mkVehicle rowid
        (match d_vin data with Some x => x | None => EmptyString end)
        (or_zero (d_year data))
        (match d_make data with Some x => x | None => EmptyString end)
        (match d_model data with Some x => x | None => EmptyString end)
        (match d_current_mileage data with
         | None => Some 0
         | Some given => given
         end)
        (d_user_id data) in
    (Ok rowid,
     mkStore (vehicles s ++ [row]) (repairs s) (fuel_logs s)
       (maintenance_intervals s) (mileage_history s) (trips s)
       (seq_maintenance_intervals s)).

(** [execute_insert('vehicles', data)]; returns cursor.lastrowid.
    Called once validate_required has passed.  The users table is not
    part of the store: under the schema of db/schema.py a user_id that
    names no user is refused (IntegrityError), so the statements about
    new and updated vehicles are made of requests without user_id. *)
Definition vehicle_ints (data : VehicleData) : list (option Z) :=
  [ d_year data;
    match d_current_mileage data with Some given => given | None => None end;
    d_user_id data ].

Definition execute_insert (data : VehicleData) : M Z :=
  bind_ints (vehicle_ints data) ;;;
  append_vehicle data.

(** BaseService.create on vehicles: the row is read back with
    [get_by_id(new_id)], where new_id is cursor.lastrowid. *)
Definition base_create (data : VehicleData) : M (option Vehicle) :=
  lift (validate_required data) ;;;
  new_id <- execute_insert data ;;
  execute_query (get_by_id (SqlInteger new_id)).

(** VehicleService.create, with the seeding routine it calls in the
    try block as a parameter. *)
Definition create_with
    (initialize_for_vehicle : string -> M (list MaintenanceInterval))
    (data : VehicleData) : M (option Vehicle) :=
  vin <- lift (validate_vin (match d_vin data with Some x => x | None => EmptyString end)) ;;
  let data := mkVehicleData (Some vin) (d_year data) (d_make data)
                (d_model data) (d_current_mileage data) (d_user_id data) in
  (if negb (int_truthy (d_year data))
      || negb ((1900 <=? or_zero (d_year data))
               && (or_zero (d_year data) <=? 2100))%Z
   then raise (ValidationError "Year must be between 1900 and 2100")
   else ret tt) ;;;
  already <- execute_query (exists_ (SqlText vin)) ;;
  (if already : bool
   then raise (ValidationError ("Vehicle with VIN " ++ vin ++ " already exists"))
   else ret tt) ;;;
  mileage <-
    (match d_current_mileage data with
     | Some (Some value) =>
         checked <- lift (validate_positive_number value "Mileage") ;;
         ret (Some (Some checked))
     | other => ret other
     end) ;;
  let data := mkVehicleData (Some vin) (d_year data) (d_make data)
                (d_model data) mileage (d_user_id data) in
  vehicle <- base_create data ;;
  try_pass (initialize_for_vehicle vin) ;;;
  ret vehicle.

(** VehicleService.create *)
Definition create (data : VehicleData) : M (option Vehicle) :=
  create_with MaintenanceService.initialize_for_vehicle data.

(** [execute_delete('vehicles', 'vin = ?', (vin,))] *)
Definition execute_delete_vehicle (id_value : SqlValue) : M Z :=
  fun s =>
    (Ok (Z.of_nat (List.length
           (filter (fun v => text_column_eq (v_vin v) id_value) (vehicles s)))),
     mkStore
       (filter (fun v => negb (text_column_eq (v_vin v) id_value)) (vehicles s))
       (repairs s) (fuel_logs s) (maintenance_intervals s)
       (mileage_history s) (trips s) (seq_maintenance_intervals s)).

(** BaseService.delete on vehicles *)
Definition base_delete (id_value : string) : M bool :=
  existing <- execute_query (get_by_id (SqlText id_value)) ;;
  match existing with
  | None =>
      raise (NotFoundError ("vehicles with vin=" ++ id_value ++ " not found"))
  | Some _ =>
      rows <- execute_delete_vehicle (SqlText id_value) ;;
      ret (0 <? rows)%Z
  end.

(** VehicleService.delete.  Under the schema of db/schema.py the last
    statement would also cascade to the five dependent tables; the
    explicit deletes before it have then left it nothing to remove,
    and under the schema that db_helper creates at start-up there are
    no foreign keys at all. *)
Definition delete (vin : string) : M bool :=
  vin <- lift (validate_vin vin) ;;
  execute_delete Trips vin ;;;
  execute_delete FuelLogs vin ;;;
  execute_delete Repairs vin ;;;
  execute_delete MaintenanceIntervals vin ;;;
  execute_delete MileageHistory vin ;;;
  base_delete vin.

End VehicleService.

(** The other methods of VehicleService: lookup by VIN, update,
    update_mileage and the legacy entry point. *)
Module VehicleMethods.

Local Open Scope db_scope.

(** VehicleService.get_by_vin *)
Definition get_by_vin (vin : string) : M (option Vehicle) :=
  vin <- lift (validate_vin vin) ;;
  execute_query (VehicleService.get_by_id (SqlText vin)).

(** The request body of a vehicle update, after [data.pop('vin')]: the
    keys that are present.  year, make and model are NOT NULL columns
    and appear with a value; [u_other] says that one of the allowed
    columns left out of the row record (trim, engine_type, color,
    purchase_date, purchase_price) is present, with a text or a float
    for its value. *)
Record VehicleUpdate : Type := mkVehicleUpdate {
  u_year : option Z;
  u_make : option string;
  u_model : option string;
  u_current_mileage : option (option Z);
  u_user_id : option (option Z);
  u_other : bool
}.

(** [not filtered]: no allowed key is present. *)
Definition update_is_empty (data : VehicleUpdate) : bool :=
  match u_year data, u_make data, u_model data, u_current_mileage data,
        u_user_id data with
  | None, None, None, None, None => negb (u_other data)
  | _, _, _, _, _ => false
  end.

Definition set_columns (data : VehicleUpdate) (v : Vehicle) : Vehicle :=
  mkVehicle (v_rowid v) (v_vin v)
    (match u_year data with Some x => x | None => v_year v end)
    (match u_make data with Some x => x | None => v_make v end)
    (match u_model data with Some x => x | None => v_model v end)
    (match u_current_mileage data with
     | Some x => x
     | None => v_current_mileage v
     end)
    (match u_user_id data with Some x => x | None => v_user_id v end).

(** UPDATE vehicles SET ... WHERE vin = ?, once the parameters are
    bound; returns cursor.rowcount. *)
Definition set_vehicle (data : VehicleUpdate) (id_value : SqlValue) : M Z :=
  fun s =>
    (Ok (Z.of_nat (List.length
           (filter (fun v => text_column_eq (v_vin v) id_value) (vehicles s)))),
     mkStore
       (map (fun v => if text_column_eq (v_vin v) id_value
                      then set_columns data v else v)
            (vehicles s))
       (repairs s) (fuel_logs s) (maintenance_intervals s)
       (mileage_history s) (trips s) (seq_maintenance_intervals s)).

(** [execute_update('vehicles', data, 'vin = ?', (vin,))] *)
Definition update_ints (data : VehicleUpdate) : list (option Z) :=
  [ u_year data;
    match u_current_mileage data with Some given => given | None => None end;
    match u_user_id data with Some given => given | None => None end ].

Definition execute_update (data : VehicleUpdate) (id_value : SqlValue) : M Z :=
  bind_ints (update_ints data) ;;;
  set_vehicle data id_value.

(** BaseService.update on vehicles *)
Definition base_update (id_value : string) (data : VehicleUpdate)
  : M (option Vehicle) :=
  existing <- execute_query (VehicleService.get_by_id (SqlText id_value)) ;;
  match existing with
  | None =>
      raise (NotFoundError ("vehicles with vin=" ++ id_value ++ " not found"))
  | Some row =>
      if update_is_empty data then ret (Some row)
      else
        execute_update data (SqlText id_value) ;;;
        execute_query (VehicleService.get_by_id (SqlText id_value))
  end.

(** VehicleService.update *)
Definition update (vin : string) (data : VehicleUpdate) : M (option Vehicle) :=
  vin <- lift (validate_vin vin) ;;
  mileage <-
    (match u_current_mileage data with
     | Some (Some value) =>
         checked <- lift (validate_positive_number value "Mileage") ;;
         ret (Some (Some checked))
     | other => ret other
     end) ;;
  base_update vin
    (mkVehicleUpdate (u_year data) (u_make data) (u_model data) mileage
       (u_user_id data) (u_other data)).

(** VehicleService.update_mileage *)
Definition update_mileage (vin : string) (mileage : Z) : M (option Vehicle) :=
  vin <- lift (validate_vin vin) ;;
  mileage <- lift (validate_positive_number mileage "Mileage") ;;
  vehicle <- get_by_vin vin ;;
  match vehicle with
  | None => raise (NotFoundError ("Vehicle with VIN " ++ vin ++ " not found"))
  | Some row =>
      let current := or_zero (v_current_mileage row) in
      if (mileage <? current)%Z then
        raise (ValidationError
                 ("New mileage (" ++ str_of_int mileage
                  ++ ") cannot be less than current ("
                  ++ str_of_int current ++ ")"))
      else
        update vin (mkVehicleUpdate None None None (Some (Some mileage))
                      None false)
  end.

(** vehicle_service.get_vehicle_by_vin, the legacy entry point:
    [try: ... except ValidationError: return None]. *)
Definition get_vehicle_by_vin (vin : string) : M (option Vehicle) :=
  fun s =>
    match get_by_vin vin s with
    | (Raise (ValidationError _), s') => (Ok None, s')
    | other => other
    end.

End VehicleMethods.

(* ================================================================== *)
(** ** Metrics engine (services/analytics_service.py,
       services/fuel_log_service.py) *)
(* ================================================================== *)

Module Metrics.

Local Open Scope db_scope.

(** ORDER BY odometer DESC *)
Definition odometer_desc (a b : FuelLog) : bool :=
  (f_odometer b <=? f_odometer a)%Z.

(** WHERE vin = ? AND full_tank = 1 *)
Definition full_tank_of (vin : string) (f : FuelLog) : bool :=
  String.eqb (f_vin f) vin
  && match f_full_tank f with
     | Some flag => (flag =? 1)%Z
     | None => false
     end.

(** SELECT gallons, odometer FROM fuel_logs
    WHERE vin = ? AND full_tank = 1 ORDER BY odometer DESC LIMIT ? *)
Definition select_full_tank_logs (vin : string) (limit : Z) (s : Store)
  : list FuelLog :=
  sql_limit limit
    (order_by odometer_desc (filter (full_tank_of vin) (fuel_logs s))).

(** SELECT MIN(odometer) as first, MAX(odometer) as last
    FROM fuel_logs WHERE vin = ? *)
Definition select_odometer_range (vin : string) (s : Store)
  : option Z * option Z :=
  let readings :=
    map f_odometer (filter (fun f => String.eqb (f_vin f) vin) (fuel_logs s)) in
  (sql_min readings, sql_max readings).

(** SELECT MIN(mileage) as first, MAX(mileage) as last
    FROM mileage_history WHERE vin = ? *)
Definition select_mileage_range (vin : string) (s : Store)
  : option Z * option Z :=
  let readings :=
    map h_mileage
      (filter (fun h => String.eqb (h_vin h) vin) (mileage_history s)) in
  (sql_min readings, sql_max readings).

Section WithArith.

Context {arith : FloatArith}.

(** The dict returned by calculate_mpg.  AnalyticsService names the
    count data_points, FuelLogService names it logs_used and adds a
    message to the results without data; keys that a result does not
    carry are [None]. *)
Record MpgResult : Type := mkMpgResult {
  average_mpg : option float;
  last_mpg : option float;
  best_mpg : option float;
  worst_mpg : option float;
  data_points : Z;
  message : option string
}.

(** The loop over [range(len(logs) - 1)]: one value per pair
    [logs[i], logs[i + 1]] that passes the test. *)
Fixpoint mpg_values (logs : list FuelLog) : result (list float) :=
  match logs with
  | current :: ((next :: _) as rest) =>
      let miles := f_odometer current - f_odometer next in
      let gallons := f_gallons current in
      if float_lt 0 gallons && (0 <? miles)%Z then
        match div_by_real miles gallons with
        | Ok mpg =>
            match mpg_values rest with
            | Ok values => Ok (mpg :: values)
            | Raise e => Raise e
            end
        | Raise e => Raise e
        end
      else mpg_values rest
  | _ => Ok []
  end.

(** The body shared by the two calculate_mpg methods, from the query
    result on.  [no_logs] and [no_values] are the messages of the two
    results without data. *)
Definition mpg_statistics (no_logs no_values : option string)
    (logs : list FuelLog) : result MpgResult :=
  if (Z.of_nat (List.length logs) <? 2)%Z then
    Ok (mkMpgResult None None None None 0 no_logs)
  else
    match mpg_values logs with
    | Raise e => Raise e
    | Ok [] => Ok (mkMpgResult None None None None 0 no_values)
    | Ok ((first :: _) as values) =>
        match div_by_int (Float (float_sum values))
                (Z.of_nat (List.length values)) with
        | Raise e => Raise e
        | Ok average =>
            match py_max values, py_min values with
            | Ok best, Ok worst =>
                Ok (mkMpgResult (Some (float_round average 1))
                      (Some (float_round first 1))
                      (Some (float_round best 1))
                      (Some (float_round worst 1))
                      (Z.of_nat (List.length values)) None)
            | Raise e, _ => Raise e
            | _, Raise e => Raise e
            end
        end
    end.

(** The dict returned by calculate_cost_per_mile. *)
Record CostPerMile : Type := mkCostPerMile {
  total_cost : number;
  repair_cost : number;
  fuel_cost : number;
  total_miles : Z;
  cost_per_mile : number;
  fuel_cost_per_mile : number;
  repair_cost_per_mile : number
}.

(** COALESCE(SUM(column), 0) over a REAL column: the int 0 over no
    row, a float otherwise. *)
Definition coalesce_sum (l : list Q) : number :=
  match l with
  | [] => Int 0
  | _ => Float (sql_sum l)
  end.

(** SELECT COALESCE(SUM(cost), 0) FROM repairs WHERE vin = ? *)
Definition select_repair_cost (vin : string) (s : Store) : number :=
  coalesce_sum
    (map r_cost (filter (fun r => String.eqb (r_vin r) vin) (repairs s))).

(** SELECT COALESCE(SUM(total_cost), 0) FROM fuel_logs WHERE vin = ? *)
Definition select_fuel_cost (vin : string) (s : Store) : number :=
  coalesce_sum
    (map f_total_cost
       (filter (fun f => String.eqb (f_vin f) vin) (fuel_logs s))).

(** [x / total_miles if total_miles > 0 else 0] *)
Definition per_mile (x : number) (miles : Z) : result number :=
  if (0 <? miles)%Z then
    match div_by_int x miles with
    | Ok quotient => Ok (Float quotient)
    | Raise e => Raise e
    end
  else Ok (Int 0).

End WithArith.

End Metrics.

Module AnalyticsService.

Local Open Scope db_scope.
Import Metrics.

Section WithArith.

Context {arith : FloatArith}.

(** AnalyticsService.calculate_mpg *)
Definition calculate_mpg (vin : string) : M MpgResult :=
  vin <- lift (validate_vin vin) ;;
  logs <- execute_query (select_full_tank_logs vin 11) ;;
  lift (mpg_statistics None None logs).

(** AnalyticsService.calculate_cost_per_mile *)
Definition calculate_cost_per_mile (vin : string) : M CostPerMile :=
  vin <- lift (validate_vin vin) ;;
  repair_cost <- execute_query (select_repair_cost vin) ;;
  fuel_cost <- execute_query (select_fuel_cost vin) ;;
  mileage <- execute_query (select_odometer_range vin) ;;
  let total_cost := py_add repair_cost fuel_cost in
  let total_miles := or_zero (snd mileage) - or_zero (fst mileage) in
  total_miles <-
    (if (total_miles <=? 0)%Z then
       mileage <- execute_query (select_mileage_range vin) ;;
       ret (or_zero (snd mileage) - or_zero (fst mileage))
     else ret total_miles) ;;
  cost_per_mile <- lift (per_mile total_cost total_miles) ;;
  fuel_per_mile <- lift (per_mile fuel_cost total_miles) ;;
  repair_per_mile <- lift (per_mile repair_cost total_miles) ;;
  ret (mkCostPerMile (py_round total_cost 2) (py_round repair_cost 2)
         (py_round fuel_cost 2) total_miles (py_round cost_per_mile 3)
         (py_round fuel_per_mile 3) (py_round repair_per_mile 3)).

End WithArith.

End AnalyticsService.

Module FuelLogService.

Local Open Scope db_scope.
Import Metrics.

Section WithArith.

Context {arith : FloatArith}.

(** FuelLogService.calculate_mpg *)
Definition calculate_mpg (vin : string) (limit : Z) : M MpgResult :=
  vin <- lift (validate_vin vin) ;;
  bind_ints [Some (limit + 1)] ;;;
  logs <- execute_query (select_full_tank_logs vin (limit + 1)) ;;
  lift (mpg_statistics
          (Some "Need at least 2 full tank fill-ups to calculate MPG")
          (Some "Unable to calculate MPG from available data")
          logs).

(** The dict returned by get_cost_summary. *)
Record CostSummary : Type := mkCostSummary {
  fill_ups : Z;
  total_gallons : number;
  summary_total_cost : number;
  avg_price_per_gallon : number;
  summary_total_miles : Z;
  summary_cost_per_mile : number
}.

(** FuelLogService.get_cost_summary.  Over one row or more the sums
    and the average of the REAL columns are floats. *)
Definition get_cost_summary (vin : string) : M CostSummary :=
  vin <- lift (validate_vin vin) ;;
  logs <- execute_query (fun s =>
            filter (fun f => String.eqb (f_vin f) vin) (fuel_logs s)) ;;
  let count := Z.of_nat (List.length logs) in
  if (count =? 0)%Z then
    ret (mkCostSummary 0 (Int 0) (Int 0) (Int 0) 0 (Int 0))
  else
    let total := Float (sql_sum (map f_total_cost logs)) in
    let readings := map f_odometer logs in
    let miles := or_zero (sql_max readings) - or_zero (sql_min readings) in
    cost_per_mile <- lift (per_mile total miles) ;;
    ret (mkCostSummary count
           (py_round (Float (sql_sum (map f_gallons logs))) 2)
           (py_round total 2)
           (py_round (Float (sql_avg (map f_price_per_gallon logs))) 3)
           miles
           (py_round cost_per_mile 3)).

End WithArith.

End FuelLogService.

(* ================================================================== *)
(** ** The maintenance API (routes/maintenance.py) *)
(* ================================================================== *)

Module MaintenanceRoutes.

(** The text under the error key: [e.message] of a ValidationError or
    NotFoundError and the fixed texts of the handler as they are,
    [str(e)] of any other exception as the exception it is taken of. *)
Inductive ErrorText : Type :=
| Message (text : string)
| StrOf (e : Exception).

(** What a handler returns: the keys of the JSON object (an absent key
    is [None]) and the HTTP status. *)
Record Response (A : Type) : Type := mkResponse {
  success : bool;
  data : option A;
  message : option string;
  error : option ErrorText;
  status : Z
}.
Arguments mkResponse {A} success data message error status.
Arguments success {A} r.
Arguments data {A} r.
Arguments message {A} r.
Arguments error {A} r.
Arguments status {A} r.

(** The JSON object posted to /vehicle/<vin>/record: for each key the
    handler reads, [None] when the key is absent and [Some None] when
    it is null; [b_other] says that some other key is present. *)
Record RecordBody : Type := mkRecordBody {
  b_service_type : option (option string);
  b_date : option (option string);
  b_mileage : option (option Z);
  b_other : bool
}.

(** [not data] on a dict: it has no key. *)
Definition body_is_empty (body : RecordBody) : bool :=
  match b_service_type body, b_date body, b_mileage body with
  | None, None, None => negb (b_other body)
  | _, _, _ => false
  end.

(** [data.get(key)] *)
Definition get {A} (entry : option (option A)) : option A :=
  match entry with
  | Some value => value
  | None => None
  end.

Section WithDatetime.

Variable today : string.
Variable strptime : string -> option Z.
Variable strftime : Z -> string.

(** routes/maintenance.py, record_service: [data] is what
    request.get_json() gave, [None] for null. *)
Definition record_service (vin : string) (data : option RecordBody)
  : Store -> Response (option MaintenanceInterval) * Store :=
  fun s =>
    match data with
    | None =>
        (mkResponse false None None (Some (Message "No data provided")) 400, s)
    | Some body =>
        if body_is_empty body then
          (mkResponse false None None (Some (Message "No data provided")) 400, s)
        else
          let service_type := get (b_service_type body) in
          let date := get (b_date body) in
          let mileage := get (b_mileage body) in
          match service_type with
          | None =>
              (mkResponse false None None
                 (Some (Message "service_type is required")) 400, s)
          | Some service_type =>
              if negb (str_truthy service_type) then
                (mkResponse false None None
                   (Some (Message "service_type is required")) 400, s)
              else
                match MaintenanceService.record_service today strptime strftime
                        vin service_type date mileage s with
                | (Ok interval, s') =>
                    (mkResponse true (Some interval)
                       (Some (service_type ++ " recorded successfully"))
                       None 200, s')
                | (Raise (NotFoundError text), s') =>
                    (mkResponse false None None (Some (Message text)) 404, s')
                | (Raise (ValidationError text), s') =>
                    (mkResponse false None None (Some (Message text)) 400, s')
                | (Raise e, s') =>
                    (mkResponse false None None (Some (StrOf e)) 500, s')
                end
          end
    end.

End WithDatetime.

End MaintenanceRoutes.

(* ================================================================== *)
(** ** An arithmetic for running the metrics engine *)
(* ================================================================== *)

(** The operations on exact rationals, with [round] going to the
    nearest decimal and a tie to the even one.  The doubles agree with
    them wherever every operand and every result is a value that a
    double holds exactly, as in the examples below (300 / 10 = 30,
    150 / 300 = 0.5); elsewhere they differ, and nothing but the
    examples is stated of this arithmetic. *)
Module ExactArith.

(** Rounding to the nearest integer, ties to the even one. *)
Definition round_half_even (x : Q) : Z :=
  let f := Qfloor x in
  match (x - inject_Z f ?= 1 # 2)%Q with
  | Lt => f
  | Gt => f + 1
  | Eq => if Z.even f then f else f + 1
  end.

Definition round_decimal (x : Q) (ndigits : Z) : Q :=
  let scale := inject_Z (10 ^ ndigits) in
  Qred (inject_Z (round_half_even (x * scale)) / scale).

Definition sum (l : list Q) : Q := fold_left Qplus l 0%Q.

Definition exact : FloatArith :=
  {| float := Q;
     float_of_real := fun x => x;
     float_of_int := inject_Z;
     float_add := Qplus;
     float_div := Qdiv;
     int_div := fun a b => (inject_Z a / inject_Z b)%Q;
     float_less := float_lt;
     float_round := round_decimal;
     float_sum := sum;
     sql_sum := sum;
     sql_avg := fun l => (sum l / inject_Z (Z.of_nat (List.length l)))%Q |}.

End ExactArith.

(* ================================================================== *)
(** ** A concrete calendar for running record_service *)
(* ================================================================== *)

Module Datetime.

Definition is_leap (y : Z) : bool :=
  ((y mod 4 =? 0) && (negb (y mod 100 =? 0) || (y mod 400 =? 0)))%Z.

Definition days_in_month (y m : Z) : Z :=
  if (m =? 2)%Z then (if is_leap y then 29 else 28)
  else if ((m =? 4) || (m =? 6) || (m =? 9) || (m =? 11))%Z then 30
  else 31.

(** The proleptic Gregorian ordinal of year [y], month [m], day [d]:
    0001-01-01 is day 1.  Years are counted from March to keep the leap
    day last. *)
Definition ymd2ord (y m d : Z) : Z :=
  let y' := if (m <=? 2)%Z then y - 1 else y in
  let era := y' / 400 in
  let yoe := y' - era * 400 in
  let mp := if (m <=? 2)%Z then m + 9 else m - 3 in
  let doy := (153 * mp + 2) / 5 + d - 1 in
  let doe := yoe * 365 + yoe / 4 - yoe / 100 + doy in
  era * 146097 + doe - 305.

Definition ord2ymd (n : Z) : Z * Z * Z :=
  let z := n + 305 in
  let era := z / 146097 in
  let doe := z - era * 146097 in
  let yoe := (doe - doe / 1460 + doe / 36524 - doe / 146096) / 365 in
  let doy := doe - (365 * yoe + yoe / 4 - yoe / 100) in
  let mp := (5 * doy + 2) / 153 in
  let d := doy - (153 * mp + 2) / 5 + 1 in
  let m := if (mp <? 10)%Z then mp + 3 else mp - 9 in
  let y := yoe + era * 400 + (if (m <=? 2)%Z then 1 else 0) in
  (y, m, d).

Definition digit (c : ascii) : option Z :=
  let n := nat_of_ascii c in
  if ((48 <=? n) && (n <=? 57))%nat then Some (Z.of_nat (n - 48)) else None.

(** One or two digits followed by the rest of the text. *)
Definition number2 (s : string) : option (Z * string) :=
  match s with
  | String a (String b rest) =>
      match digit a, digit b with
      | Some x, Some y => Some (10 * x + y, rest)
      | Some x, None => Some (x, String b rest)
      | None, _ => None
      end
  | String a EmptyString => option_map (fun x => (x, EmptyString)) (digit a)
  | EmptyString => None
  end.

(** [datetime.strptime(s, '%Y-%m-%d')] as an ordinal. *)
Definition strptime (s : string) : option Z :=
  match s with
  | String a (String b (String c (String d (String "-" rest)))) =>
      match digit a, digit b, digit c, digit d with
      | Some y3, Some y2, Some y1, Some y0 =>
          let y := 1000 * y3 + 100 * y2 + 10 * y1 + y0 in
          match number2 rest with
          | Some (m, String "-" rest') =>
              match number2 rest' with
              | Some (dd, EmptyString) =>
                  if ((1 <=? y) && (1 <=? m) && (m <=? 12) && (1 <=? dd)
                      && (dd <=? days_in_month y m))%Z
                  then Some (ymd2ord y m dd) else None
              | _ => None
              end
          | _ => None
          end
      | _, _, _, _ => None
      end
  | _ => None
  end.

Definition pad (width : nat) (n : Z) : string :=
  let text := str_of_int n in
  (String.concat EmptyString (repeat "0" (width - String.length text)) ++ text)%string.

(** [d.strftime('%Y-%m-%d')] on an ordinal. *)
Definition strftime (n : Z) : string :=
  let ymd := ord2ymd n in
  (pad 4 (fst (fst ymd)) ++ "-" ++ pad 2 (snd (fst ymd)) ++ "-"
   ++ pad 2 (snd ymd))%string.

End Datetime.

(* ================================================================== *)
(** ** Vocabulary of the properties *)
(* ================================================================== *)

Definition contains_IOQ (s : string) : Prop :=
  exists c, In c (list_ascii_of_string s)
            /\ (c = "I"%char \/ c = "O"%char \/ c = "Q"%char).

(** What lstrip returns does not start with a space. *)
Definition no_leading_space (s : string) : Prop :=
  match s with
  | EmptyString => True
  | String c _ => isspace c = false
  end.

(** Every row of table [l] that points at vehicle [vin] is gone. *)
Definition no_row_of {A} (vin_of : A -> string) (vin : string) (l : list A)
  : Prop :=
  Forall (fun row => vin_of row <> vin) l.

(** No dependent table of the store holds a row of vehicle [vin]. *)
Definition no_dependents (vin : string) (s : Store) : Prop :=
  no_row_of t_vin vin (trips s)
  /\ no_row_of f_vin vin (fuel_logs s)
  /\ no_row_of r_vin vin (repairs s)
  /\ no_row_of m_vin vin (maintenance_intervals s)
  /\ no_row_of h_vin vin (mileage_history s).

(** The store with the dependent rows of vehicle [vin] taken out. *)
Definition without_dependents (vin : string) (s : Store) : Store :=
  mkStore (vehicles s)
    (keep_other_vin r_vin vin (repairs s))
    (keep_other_vin f_vin vin (fuel_logs s))
    (keep_other_vin m_vin vin (maintenance_intervals s))
    (keep_other_vin h_vin vin (mileage_history s))
    (keep_other_vin t_vin vin (trips s))
    (seq_maintenance_intervals s).

(** The number of interval rows of vehicle [vin] and type [service_type]. *)
Definition count_intervals (vin service_type : string)
    (l : list MaintenanceInterval) : nat :=
  List.length
    (filter (fun m => String.eqb (m_vin m) vin
                      && String.eqb (m_service_type m) service_type) l).

(** The row that seeding creates for a default: only its id is open. *)
Definition seeded_row (id : Z) (vin service_type : string)
    (current_mileage miles months : Z) : MaintenanceInterval :=
  mkInterval id vin service_type (Some miles) (Some months) None None None
    (Some (current_mileage + miles)) (Some 0).

(** The store after one turn of the seeding loop, and after the loop
    over a list of defaults. *)
Definition seed_store (vin : string) (current_mileage : Z)
    (entry : string * (Z * Z)) (s : Store) : Store :=
  snd (MaintenanceService.seed_default vin current_mileage entry s).

Definition seed_stores (vin : string) (current_mileage : Z)
    (l : list (string * (Z * Z))) (s : Store) : Store :=
  fold_left (fun s entry => seed_store vin current_mileage entry s) l s.

(** [zip(l, l[1:])]: the pairs [(l[i], l[i + 1])]. *)
Definition consecutive_pairs {A} (l : list A) : list (A * A) :=
  combine l (tl l).

(** From a pair of fuel logs, first the one read at [logs[i]] and second
    the one read at [logs[i + 1]]: the miles between them, whether the
    pair gives a value, and the value. *)
Definition pair_miles (p : FuelLog * FuelLog) : Z :=
  f_odometer (fst p) - f_odometer (snd p).

Definition usable_pair (p : FuelLog * FuelLog) : bool :=
  float_lt 0 (f_gallons (fst p)) && (0 <? pair_miles p)%Z.

Definition pair_mpg {arith : FloatArith} (p : FuelLog * FuelLog) : float :=
  float_div (float_of_int (pair_miles p)) (float_of_real (f_gallons (fst p))).

(** A full-tank fuel log of vehicle [vin]. *)
Definition full_tank_log (vin : string) (f : FuelLog) : Prop :=
  f_vin f = vin /\ f_full_tank f = Some 1.

(** A calculate_mpg result that reports that there is nothing to report. *)
Definition no_data {arith : FloatArith} (r : Metrics.MpgResult) : Prop :=
  Metrics.average_mpg r = None /\ Metrics.last_mpg r = None
  /\ Metrics.data_points r = 0.

(** [d] is the span of the readings [l]: largest minus smallest, and 0
    when there is none (MIN and MAX are then NULL, read as 0). *)
Definition span_of (l : list Z) (d : Z) : Prop :=
  (l = [] /\ d = 0)
  \/ (exists lo hi, In lo l /\ In hi l
                    /\ (forall x, In x l -> lo <= x <= hi) /\ d = hi - lo).

(** The odometer readings of the fuel logs of a vehicle, and the
    readings of its mileage history. *)
Definition odometer_readings (vin : string) (s : Store) : list Z :=
  map f_odometer (filter (fun f => String.eqb (f_vin f) vin) (fuel_logs s)).

Definition history_readings (vin : string) (s : Store) : list Z :=
  map h_mileage (filter (fun h => String.eqb (h_vin h) vin) (mileage_history s)).

(** A method that only reads, one that always returns, and one that
    leaves the store as it found it whenever it raises. *)
Definition read_only {A} (m : M A) : Prop :=
  forall s, snd (m s) = s.

Definition never_raises {A} (m : M A) : Prop :=
  forall s, exists a, fst (m s) = Ok a.

Definition all_or_nothing {A} (m : M A) : Prop :=
  forall s e, fst (m s) = Raise e -> snd (m s) = s.

(** The two errors of the services, and a method that leaves the store
    as it found it whenever it raises one of them. *)
Definition rejection (e : Exception) : Prop :=
  (exists message, e = ValidationError message)
  \/ (exists message, e = NotFoundError message).

Definition unchanged_on_rejection {A} (m : M A) : Prop :=
  forall s e, fst (m s) = Raise e -> rejection e -> snd (m s) = s.

(** The two rules that the schema of db/schema.py puts on
    maintenance_intervals, and that the schema created at start-up
    leaves to the services: ids are unique, and a vehicle has at most
    one interval of a service type. *)
Definition unique_ids (s : Store) : Prop :=
  NoDup (map m_id (maintenance_intervals s)).

Definition one_interval_per_type (s : Store) : Prop :=
  NoDup (map (fun m => (m_vin m, m_service_type m)) (maintenance_intervals s)).

(** Every table but maintenance_intervals is the same in both stores. *)
Definition same_other_tables (s s' : Store) : Prop :=
  vehicles s' = vehicles s
  /\ repairs s' = repairs s
  /\ fuel_logs s' = fuel_logs s
  /\ mileage_history s' = mileage_history s
  /\ trips s' = trips s.

(** Both stores hold the same rows (the id counter may differ). *)
Definition same_rows (s s' : Store) : Prop :=
  same_other_tables s s'
  /\ maintenance_intervals s' = maintenance_intervals s.

(** An int within the 64-bit range, and a mileage that a double holds
    exactly: [int(float(n))] is [n]. *)
Definition in_int64 (n : Z) : Prop := INT64_MIN <= n <= INT64_MAX.

Definition exact_mileage (n : Z) : Prop := 0 <= n <= 9007199254740992.

(** The ints among the parameters of a statement are all in range. *)
Definition bound (params : list (option Z)) : Prop :=
  forall n, In (Some n) params -> in_int64 n.

(** A mileage of either sign that a double holds exactly. *)
Definition checked_mileage (n : Z) : Prop :=
  - 9007199254740992 <= n <= 9007199254740992.

(** A request that names no user: the user_id key is absent or null.
    (Under db/schema.py a user_id has to be the id of a user.) *)
Definition names_no_user (user_id : option (option Z)) : Prop :=
  user_id = None \/ user_id = Some None.

(** Ids are left for [n] more intervals, and a rowid for one more
    vehicle. *)
Definition id_room (n : nat) (s : Store) : Prop :=
  MaintenanceService.last_id s + Z.of_nat n <= INT64_MAX.

Definition rowid_room (s : Store) : Prop :=
  VehicleService.next_rowid (vehicles s) <= INT64_MAX.

(** The default [entry] can be seeded at the current mileage [cm]: the
    three ints of the new row are in range. *)
Definition seedable (cm : Z) (entry : string * (Z * Z)) : Prop :=
  in_int64 (fst (snd entry)) /\ in_int64 (snd (snd entry))
  /\ in_int64 (cm + fst (snd entry)).

(** [a] is due no later than [b], for intervals with a next-due mileage. *)
Definition due_no_later (a b : MaintenanceInterval) : Prop :=
  forall x y, m_next_due_mileage a = Some x -> m_next_due_mileage b = Some y ->
              x <= y.

(** A method after which both rules on maintenance_intervals still
    hold, if they held before. *)
Definition keeps_interval_rules {A} (m : M A) : Prop :=
  forall s, unique_ids s -> one_interval_per_type s ->
            unique_ids (snd (m s)) /\ one_interval_per_type (snd (m s)).

(** The figures of a calculate_mpg result fit together: no figure at
    all and a count of 0, or the four figures and a count between 1
    and [limit]. *)
Definition consistent_figures {arith : FloatArith} (limit : Z)
    (r : Metrics.MpgResult) : Prop :=
  0 <= Metrics.data_points r <= limit
  /\ match Metrics.average_mpg r, Metrics.last_mpg r, Metrics.best_mpg r,
           Metrics.worst_mpg r with
     | Some _, Some _, Some _, Some _ => 0 < Metrics.data_points r
     | None, None, None, None => Metrics.data_points r = 0
     | _, _, _, _ => False
     end.

(** ** Sample data *)

Module Demo.

Definition VIN : string := "1HGCM82633A004352".
Definition OTHER : string := "WBAJ71M202A123456".

(** A Civic at 45000 miles with two fill-ups, one repair, two
    intervals, and a second vehicle with a trip and a reading. *)
Definition store : Store :=
  mkStore
    [ mkVehicle 1 VIN 2020 "Honda" "Civic" (Some 45000) None;
      mkVehicle 2 OTHER 2021 "BMW" "3 Series" (Some 28000) None ]
    [ mkRepair 1 VIN "Brake Pads" 100 (Some 1100) "2024-06-01" ]
    [ mkFuelLog 1 VIN 5 4 20 1000 "2024-01-05" (Some 1);
      mkFuelLog 2 VIN 10 3 30 1300 "2024-01-19" (Some 1) ]
    [ mkInterval 1 VIN "Oil Change" (Some 5000) (Some 6)
        (Some "2024-01-01") (Some 39000) (Some "2024-06-29") (Some 44000)
        (Some 0);
      mkInterval 2 VIN "Tire Rotation" (Some 7500) (Some 6)
        None None None (Some 50000) (Some 0);
      mkInterval 3 OTHER "Oil Change" (Some 5000) (Some 6)
        None None None (Some 20000) (Some 0) ]
    [ mkMileage 1 OTHER 28000 "2024-02-01" (Some "manual") ]
    [ mkTrip 1 OTHER (Some 27000) (Some 27100) (Some 100%Q) "2024-01-20" (Some 0) ]
    3.

(** The Civic with one interval whose mileage interval is 0, as
    MaintenanceService.create stores it when asked to. *)
Definition zero_interval_store : Store :=
  mkStore
    [ mkVehicle 1 VIN 2020 "Honda" "Civic" (Some 45000) None ]
    [] []
    [ mkInterval 1 VIN "State Inspection" (Some 0) (Some 12)
        None None None None (Some 1) ]
    [] [] 1.

(** The second vehicle with three full-tank fill-ups that give no
    value: no miles between the first two, no gallons at the last. *)
Definition flat_store : Store :=
  mkStore
    [ mkVehicle 2 OTHER 2021 "BMW" "3 Series" (Some 28000) None ]
    []
    [ mkFuelLog 1 OTHER 12 4 48 27000 "2024-02-01" (Some 1);
      mkFuelLog 2 OTHER 3 4 12 27000 "2024-02-01" (Some 1);
      mkFuelLog 3 OTHER 0 4 0 27500 "2024-02-09" (Some 1) ]
    [] [] [] 0.

Definition today : string := "2024-11-04".

(** The body of a request that creates the Civic. *)
Definition civic : VehicleService.VehicleData :=
  VehicleService.mkVehicleData (Some VIN) (Some 2020) (Some "Honda")
    (Some "Civic") None None.

(** A seeding routine that fails at once. *)
Definition failing_seed (vin : string) : M (list MaintenanceInterval) :=
  raise (NotFoundError ("Vehicle with VIN " ++ vin ++ " not found")).

(** A store in which one repair names a VIN that has no vehicle row:
    RepairService.create does not look the vehicle up, and the tables
    that db_helper creates at start-up carry no foreign keys. *)
Definition orphan_store : Store :=
  mkStore [] [ mkRepair 1 VIN "Oil Change" 45 None "2024-08-15" ]
    [] [] [] [] 0.

End Demo.

(* ================================================================== *)
(** * Properties *)
(* ================================================================== *)

Local Open Scope list_scope.

(** ** Integers in and out of range *)

Lemma int64_spec (n : Z) : int64 n = true <-> in_int64 n.
Proof.
  unfold int64, in_int64. now rewrite andb_true_iff, !Z.leb_le.
Qed.

(** Parameters that are given: each is looked at. *)
Ltac bound_by_computation :=
  let n := fresh "n" in
  let Hin := fresh "Hin" in
  intros n Hin; cbn in Hin;
  repeat (destruct Hin as [Hin | Hin];
          [try discriminate Hin; injection Hin as <-; vm_compute; split;
           discriminate|]);
  destruct Hin.

Lemma bind_ints_run (params : list (option Z)) (s : Store) :
  bound params -> bind_ints params s = (Ok tt, s).
Proof.
  intros Hbound. unfold bind_ints.
  replace (forallb _ params) with true; [reflexivity|].
  symmetry. apply forallb_forall. intros [n|] Hin; [|reflexivity].
  now apply int64_spec, Hbound.
Qed.

Lemma bind_ints_cases (params : list (option Z)) (s : Store) :
  (bound params /\ bind_ints params s = (Ok tt, s))
  \/ bind_ints params s = (Raise OverflowError, s).
Proof.
  unfold bind_ints.
  destruct (forallb _ params) eqn:Hall; [left | now right].
  split; [|reflexivity]. intros n Hin.
  rewrite forallb_forall in Hall. now apply int64_spec, (Hall (Some n)).
Qed.

Lemma nearest_double_exact (n : Z) : exact_mileage n -> nearest_double n = n.
Proof.
  intros [Hlo Hhi]. unfold nearest_double.
  destruct (Z.eq_dec n 9007199254740992) as [-> | Hne]; [reflexivity|].
  destruct (Z.leb_spec (Z.log2 n - 52) 0) as [_ | Hshift]; [reflexivity|].
  exfalso.
  assert (Hpos : 0 < n) by (destruct (Z.eq_dec n 0) as [-> |]; [discriminate Hshift | lia]).
  assert (Hlog : Z.log2 n < 53).
  { apply Z.log2_lt_pow2; [exact Hpos|]. change (2 ^ 53) with 9007199254740992. lia. }
  lia.
Qed.

Lemma validate_positive_number_exact (n : Z) (field_name : string) :
  exact_mileage n -> validate_positive_number n field_name = Ok n.
Proof.
  intros Hn. pose proof Hn as [Hlo Hhi].
  unfold validate_positive_number, float_of.
  rewrite (Z.abs_eq n Hlo), (nearest_double_exact n Hn).
  assert (Hsgn : Z.sgn n * n = n).
  { destruct (Z.eq_dec n 0) as [-> | Hne]; [reflexivity|].
    rewrite Z.sgn_pos by lia. lia. }
  rewrite Hsgn.
  destruct (Z.leb_spec DOUBLE_LIMIT n) as [Hbig | _].
  { exfalso. revert Hbig. unfold DOUBLE_LIMIT.
    assert (9007199254740992 < 2 ^ 1024) by reflexivity. lia. }
  destruct (Z.ltb_spec n 0); [lia | reflexivity].
Qed.

(** What the check returns is never negative. *)
Lemma validate_positive_number_cases (value : Z) (field_name : string) :
  (exists e, validate_positive_number value field_name = Raise e)
  \/ (exists num, validate_positive_number value field_name = Ok num
                  /\ 0 <= num).
Proof.
  unfold validate_positive_number.
  destruct (float_of value) as [num | e]; [|left; now exists e].
  destruct (Z.ltb_spec num 0); [left; eexists; reflexivity|].
  right. exists num. split; [reflexivity | assumption].
Qed.

(** A negative int whose double is in range is refused. *)
Lemma validate_positive_number_negative (value : Z) (field_name : string) :
  - 9007199254740992 <= value < 0 ->
  validate_positive_number value field_name
  = Raise (ValidationError (field_name ++ " must be a positive number")).
Proof.
  intros [Hlo Hhi]. unfold validate_positive_number, float_of.
  rewrite (Z.abs_neq value) by lia.
  rewrite (nearest_double_exact (- value)) by (unfold exact_mileage; lia).
  destruct (Z.leb_spec DOUBLE_LIMIT (- value)) as [Hbig | _].
  { exfalso. revert Hbig. unfold DOUBLE_LIMIT.
    assert (9007199254740992 < 2 ^ 1024) by reflexivity. lia. }
  rewrite Z.sgn_neg by lia.
  destruct (Z.ltb_spec (-1 * - value) 0); [reflexivity | lia].
Qed.

(** ** Validation layer *)

Section ValidationFacts.

Lemma any_char_exists (p : ascii -> bool) (s : string) :
  any_char p s = true <->
  exists c, In c (list_ascii_of_string s) /\ p c = true.
Proof.
  induction s as [|d s IH]; simpl.
  - split; [discriminate | intros [c [[] _]]].
  - rewrite orb_true_iff, IH. split.
    + intros [Hd | [c [Hin Hc]]]; [exists d | exists c]; auto.
    + intros [c [[-> | Hin] Hc]]; [left | right; exists c]; auto.
Qed.

Lemma char_in_invalid_chars (c : ascii) :
  char_in c invalid_chars = true <->
  c = "I"%char \/ c = "O"%char \/ c = "Q"%char.
Proof.
  unfold invalid_chars; simpl.
  rewrite !orb_true_iff, !Ascii.eqb_eq. intuition discriminate.
Qed.

Lemma any_char_IOQ (s : string) :
  any_char (fun c => char_in c invalid_chars) s = true <-> contains_IOQ s.
Proof.
  rewrite any_char_exists. unfold contains_IOQ.
  split; intros [c [Hin Hc]]; exists c; split; auto;
    now apply char_in_invalid_chars.
Qed.

Lemma isspace_upper_char (c : ascii) : isspace (upper_char c) = isspace c.
Proof. destruct c as [[] [] [] [] [] [] [] []]; reflexivity. Qed.

Lemma upper_char_idempotent (c : ascii) :
  upper_char (upper_char c) = upper_char c.
Proof. destruct c as [[] [] [] [] [] [] [] []]; reflexivity. Qed.

Lemma upper_idempotent (s : string) : upper (upper s) = upper s.
Proof.
  induction s as [|c s IH]; simpl; [reflexivity|].
  now rewrite upper_char_idempotent, IH.
Qed.

Lemma lstrip_upper (s : string) : lstrip (upper s) = upper (lstrip s).
Proof.
  induction s as [|c s IH]; simpl; [reflexivity|].
  rewrite isspace_upper_char. destruct (isspace c); [exact IH | reflexivity].
Qed.

Lemma rstrip_upper (s : string) : rstrip (upper s) = upper (rstrip s).
Proof.
  induction s as [|c s IH]; simpl; [reflexivity|].
  rewrite IH, isspace_upper_char.
  destruct (rstrip s); simpl; [destruct (isspace c)|]; reflexivity.
Qed.

Lemma rstrip_idempotent (s : string) : rstrip (rstrip s) = rstrip s.
Proof.
  induction s as [|c s IH]; simpl; [reflexivity|].
  destruct (rstrip s) as [|d r] eqn:E.
  - destruct (isspace c) eqn:Hc; simpl; [reflexivity | now rewrite Hc].
  - simpl in *. now rewrite IH.
Qed.

Lemma lstrip_no_leading_space (s : string) : no_leading_space (lstrip s).
Proof.
  induction s as [|c s IH]; simpl; [exact I|].
  destruct (isspace c) eqn:Hc; [exact IH | exact Hc].
Qed.

Lemma rstrip_no_leading_space (s : string) :
  no_leading_space s -> no_leading_space (rstrip s).
Proof.
  destruct s as [|c s]; simpl; [trivial|]. intros Hc.
  destruct (rstrip s); simpl; [now rewrite Hc | exact Hc].
Qed.

Lemma lstrip_fixed (s : string) : no_leading_space s -> lstrip s = s.
Proof. destruct s as [|c s]; simpl; [trivial | now intros ->]. Qed.

Lemma strip_idempotent (s : string) : strip (strip s) = strip s.
Proof.
  unfold strip.
  rewrite (lstrip_fixed (rstrip (lstrip s))).
  - apply rstrip_idempotent.
  - apply rstrip_no_leading_space, lstrip_no_leading_space.
Qed.

Lemma strip_upper (s : string) : strip (upper s) = upper (strip s).
Proof. unfold strip. now rewrite lstrip_upper, rstrip_upper. Qed.

Lemma normal_form_fixed (s : string) :
  upper (strip (upper (strip s))) = upper (strip s).
Proof. now rewrite strip_upper, strip_idempotent, upper_idempotent. Qed.

Lemma validate_vin_Ok (vin normal : string) :
  validate_vin vin = Ok normal ->
  normal = upper (strip vin)
  /\ String.length normal = 17%nat
  /\ any_char (fun c => char_in c invalid_chars) normal = false.
Proof.
  unfold validate_vin.
  destruct (str_truthy vin); simpl; [|discriminate].
  destruct (Nat.eqb_spec (String.length (upper (strip vin))) 17); simpl;
    [|discriminate].
  destruct (any_char _ (upper (strip vin))) eqn:Hany; [discriminate|].
  intros [= <-]. auto.
Qed.

(** A VIN that has been validated passes validation again, unchanged. *)
Lemma validate_vin_idempotent (vin normal : string) :
  validate_vin vin = Ok normal -> validate_vin normal = Ok normal.
Proof.
  intros H. destruct (validate_vin_Ok _ _ H) as (Hn & Hlen & Hany).
  unfold validate_vin.
  assert (Hfix : upper (strip normal) = normal)
    by (subst normal; apply normal_form_fixed).
  rewrite Hfix, Hlen, Hany.
  destruct normal; [discriminate Hlen | reflexivity].
Qed.

End ValidationFacts.

(** C9.  Identifier validation returns the trimmed, uppercased form of its
    input exactly when that form has 17 characters and contains none of
    I, O, Q, and fails with ValidationError (InvalidInput) exactly when
    that form has another length or contains I, O or Q. *)
Theorem validate_vin_spec (vin : string) :
  let normal := upper (strip vin) in
  (validate_vin vin = Ok normal <->
   String.length normal = 17%nat /\ ~ contains_IOQ normal)
  /\ (is_ValidationError (validate_vin vin) <->
      String.length normal <> 17%nat \/ contains_IOQ normal).
Proof.
  intros normal. unfold validate_vin, is_ValidationError. fold normal.
  assert (Hempty : str_truthy vin = false -> String.length normal <> 17%nat).
  { destruct vin; [intros _; subst normal; simpl; discriminate | discriminate]. }
  destruct (str_truthy vin); cbn [negb].
  - destruct (Nat.eqb_spec (String.length normal) 17) as [Hlen | Hlen]; cbn [negb].
    + destruct (any_char _ normal) eqn:Hany.
      * apply any_char_IOQ in Hany. split; split.
        -- discriminate.
        -- intros [_ Hno]. contradiction.
        -- auto.
        -- intros _. eexists. reflexivity.
      * assert (Hno : ~ contains_IOQ normal).
        { intros Hc. apply any_char_IOQ in Hc. congruence. }
        split; split.
        -- auto.
        -- reflexivity.
        -- intros [message Hm]. discriminate.
        -- intros [Hl | Hc]; contradiction.
    + split; split.
      * discriminate.
      * intros [Hl _]. contradiction.
      * auto.
      * intros _. eexists. reflexivity.
  - specialize (Hempty eq_refl). split; split.
    + discriminate.
    + intros [Hl _]. contradiction.
    + auto.
    + intros _. eexists. reflexivity.
Qed.

Example validate_vin_normalises :
  validate_vin "  1hgcm82633a004352 " = Ok "1HGCM82633A004352".
Proof. reflexivity. Qed.

Example validate_vin_rejects_short :
  validate_vin "1HGCM82633A00435"
  = Raise (ValidationError "VIN must be exactly 17 characters").
Proof. reflexivity. Qed.

Example validate_vin_rejects_letter_o :
  validate_vin "1HGCM82633A0O4352"
  = Raise (ValidationError "VIN cannot contain I, O, or Q").
Proof. reflexivity. Qed.

(** ** The store primitives *)

Lemma firstn_In {A} (n : nat) (l : list A) (x : A) :
  In x (firstn n l) -> In x l.
Proof.
  revert n. induction l as [|y l IH]; intros [|n]; simpl; try tauto.
  intros [-> | H]; [now left | right; now apply (IH n)].
Qed.

Lemma skipn_In {A} (n : nat) (l : list A) (x : A) :
  In x (skipn n l) -> In x l.
Proof.
  revert n. induction l as [|y l IH]; intros [|n]; simpl; try tauto.
  intros H. right. now apply (IH n).
Qed.

Section OrderBy.

Context {A : Type}.
Variable le : A -> A -> bool.

Lemma insert_by_perm (x : A) (l : list A) :
  Permutation (insert_by le x l) (x :: l).
Proof.
  induction l as [|y l IH]; simpl; [reflexivity|].
  destruct (le x y); [reflexivity|].
  rewrite IH. apply perm_swap.
Qed.

Lemma order_by_perm (l : list A) : Permutation (order_by le l) l.
Proof.
  induction l as [|x l IH]; simpl; [reflexivity|].
  unfold order_by in *. simpl. rewrite insert_by_perm. now constructor.
Qed.

Lemma order_by_In (x : A) (l : list A) : In x (order_by le l) <-> In x l.
Proof.
  split; apply Permutation_in;
    [apply order_by_perm | symmetry; apply order_by_perm].
Qed.

Lemma order_by_length (l : list A) : List.length (order_by le l) = List.length l.
Proof. apply Permutation_length, order_by_perm. Qed.

Hypothesis le_total : forall a b, le a b = false -> le b a = true.
Hypothesis le_trans : forall a b c, le a b = true -> le b c = true -> le a c = true.

Let before (a b : A) : Prop := le a b = true.

Lemma insert_by_sorted (x : A) (l : list A) :
  StronglySorted before l -> StronglySorted before (insert_by le x l).
Proof.
  induction 1 as [|y l Hs IH Hall]; simpl.
  - repeat constructor.
  - destruct (le x y) eqn:Hxy.
    + constructor; [now constructor|].
      constructor; [exact Hxy|].
      eapply Forall_impl; [|exact Hall]. intros z Hz. now apply (le_trans x y z).
    + constructor; [exact IH|].
      eapply Permutation_Forall; [symmetry; apply insert_by_perm|].
      constructor; [now apply le_total | exact Hall].
Qed.

Lemma order_by_sorted (l : list A) : StronglySorted before (order_by le l).
Proof.
  induction l as [|x l IH]; simpl; [constructor|].
  now apply insert_by_sorted.
Qed.

Lemma firstn_sorted (n : nat) (l : list A) :
  StronglySorted before l -> StronglySorted before (firstn n l).
Proof.
  intros Hs. revert n.
  induction Hs as [|y l Hs IH Hall]; intros [|n]; simpl; try constructor.
  - apply IH.
  - rewrite Forall_forall in *. intros z Hz. apply Hall.
    eapply firstn_In; exact Hz.
Qed.

Lemma sql_limit_sorted (n : Z) (l : list A) :
  StronglySorted before l -> StronglySorted before (sql_limit n l).
Proof.
  intros Hs. unfold sql_limit. destruct (n <? 0)%Z; [exact Hs|].
  now apply firstn_sorted.
Qed.

(** Whatever LIMIT cuts off sorts after everything it keeps. *)
Lemma sql_limit_keeps_first (n : Z) (l : list A) :
  StronglySorted before l ->
  exists dropped, l = sql_limit n l ++ dropped
    /\ forall kept late, In kept (sql_limit n l) -> In late dropped ->
                         before kept late.
Proof.
  intros Hs. unfold sql_limit. destruct (n <? 0)%Z.
  - exists []. rewrite app_nil_r. split; [reflexivity | intros ? ? ? []].
  - exists (skipn (Z.to_nat n) l). split; [now rewrite firstn_skipn|].
    generalize (Z.to_nat n) as k. clear n.
    induction Hs as [|y l Hs IH Hall]; intros [|k] kept late; simpl;
      try contradiction.
    intros [<- | Hk] Hl.
    + rewrite Forall_forall in Hall. apply Hall.
      eapply skipn_In; exact Hl.
    + now apply (IH k).
Qed.

End OrderBy.

(** ** Maintenance scheduler: overdue intervals *)

Import MaintenanceService.

Lemma filter_vin_overdue (v : string) (current : Z)
    (l : list MaintenanceInterval) (m : MaintenanceInterval) :
  In m (filter (fun m => String.eqb (m_vin m) v && next_due_before current m) l)
  <-> In m l /\ m_vin m = v
      /\ exists due, m_next_due_mileage m = Some due /\ due < current.
Proof.
  rewrite filter_In, andb_true_iff, String.eqb_eq. unfold next_due_before.
  split.
  - intros (Hin & Hv & Hdue). repeat split; auto.
    destruct (m_next_due_mileage m) as [due|]; [|discriminate].
    exists due. split; [reflexivity | now apply Z.ltb_lt].
  - intros (Hin & Hv & due & -> & Hlt). repeat split; auto.
    now apply Z.ltb_lt.
Qed.

(** C5.  For a well-formed VIN, get_overdue reads the store without
    changing it; it returns the empty list when the vehicle is absent or
    its current mileage is NULL or 0, whatever the intervals say; and
    otherwise it returns exactly the vehicle's intervals whose next-due
    mileage is strictly below the current mileage. *)
Theorem get_overdue_spec (vin v : string) (s : Store) :
  validate_vin vin = Ok v ->
  snd (get_overdue vin s) = s
  /\ (select_current_mileage v s = None
      \/ select_current_mileage v s = Some None
      \/ select_current_mileage v s = Some (Some 0) ->
      fst (get_overdue vin s) = Ok [])
  /\ (forall current,
        select_current_mileage v s = Some (Some current) -> current <> 0 ->
        exists rows,
          fst (get_overdue vin s) = Ok rows
          /\ forall m, In m rows <->
               In m (maintenance_intervals s) /\ m_vin m = v
               /\ exists due, m_next_due_mileage m = Some due /\ due < current).
Proof.
  intros Hv. unfold get_overdue, bind, lift, execute_query, ret.
  rewrite Hv.
  destruct (select_current_mileage v s) as [[current|]|] eqn:Hsel; simpl.
  - destruct (Z.eqb_spec current 0) as [-> | Hnz]; simpl.
    + repeat split; auto. intros c [= <-] Hc. now contradiction Hc.
    + repeat split.
      * intros [H | [H | H]]; try discriminate. injection H as ->.
        now contradiction Hnz.
      * intros c [= <-] _. eexists. split; [reflexivity|].
        intros m. rewrite order_by_In. apply filter_vin_overdue.
  - repeat split; auto. intros c [=].
  - repeat split; auto. intros c [=].
Qed.

Lemma get_overdue_spec_witness :
  exists rows,
    fst (get_overdue Demo.VIN Demo.store) = Ok rows
    /\ forall m, In m rows <->
         In m (maintenance_intervals Demo.store) /\ m_vin m = Demo.VIN
         /\ exists due, m_next_due_mileage m = Some due /\ due < 45000.
Proof.
  apply (proj2 (proj2 (get_overdue_spec Demo.VIN Demo.VIN Demo.store eq_refl))).
  - reflexivity.
  - discriminate.
Defined.

Example get_overdue_demo :
  fst (get_overdue Demo.VIN Demo.store)
  = Ok [ mkInterval 1 Demo.VIN "Oil Change" (Some 5000) (Some 6)
           (Some "2024-01-01"%string) (Some 39000) (Some "2024-06-29"%string)
           (Some 44000) (Some 0) ].
Proof. reflexivity. Qed.

(** ** Vehicle deletion *)

Import VehicleService.

Section DeleteFacts.

Lemma keep_other_vin_In {A} (vin_of : A -> string) (vin : string)
    (l : list A) (row : A) :
  In row (keep_other_vin vin_of vin l) <-> In row l /\ vin_of row <> vin.
Proof.
  unfold keep_other_vin. rewrite filter_In, negb_true_iff.
  split; intros [Hin Hv]; split; auto.
  - intros Heq. apply String.eqb_eq in Heq. congruence.
  - apply not_true_is_false. intros Heq. now apply String.eqb_eq in Heq.
Qed.

Lemma keep_other_vin_fixed {A} (vin_of : A -> string) (vin : string)
    (l : list A) :
  keep_other_vin vin_of vin l = l <-> no_row_of vin_of vin l.
Proof.
  unfold no_row_of. split.
  - intros Heq. apply Forall_forall. intros row Hin.
    rewrite <- Heq in Hin. now apply keep_other_vin_In in Hin.
  - induction 1 as [|row l Hrow _ IH]; simpl; [reflexivity|].
    destruct (String.eqb_spec (vin_of row) vin); [contradiction|].
    simpl. now rewrite IH.
Qed.

Lemma keep_other_vin_no_row {A} (vin_of : A -> string) (vin : string)
    (l : list A) :
  no_row_of vin_of vin (keep_other_vin vin_of vin l).
Proof.
  apply Forall_forall. intros row Hin. now apply keep_other_vin_In in Hin.
Qed.

(** The five explicit deletes, then BaseService.delete. *)
Lemma delete_unfold (vin v : string) (s : Store) :
  validate_vin vin = Ok v ->
  delete vin s = base_delete v (without_dependents v s).
Proof.
  intros Hv. unfold delete, bind at 1, lift. rewrite Hv. reflexivity.
Qed.

Lemma without_dependents_fixed (v : string) (s : Store) :
  without_dependents v s = s <-> no_dependents v s.
Proof.
  unfold without_dependents, no_dependents. destruct s; simpl. split.
  - intros [= Hr Hf Hm Hh Ht].
    repeat split; now apply keep_other_vin_fixed.
  - intros (Ht & Hf & Hr & Hm & Hh).
    apply keep_other_vin_fixed in Ht, Hf, Hr, Hm, Hh. congruence.
Qed.

Lemma get_by_id_text (v : string) (s : Store) :
  get_by_id (SqlText v) s = find (fun x => String.eqb (v_vin x) v) (vehicles s).
Proof. reflexivity. Qed.

End DeleteFacts.

Lemma find_some_filter_length {A} (p : A -> bool) (l : list A) :
  find p l <> None -> (0 <? Z.of_nat (List.length (filter p l)))%Z = true.
Proof.
  induction l as [|x l IH]; simpl; [congruence|].
  destruct (p x); simpl; [intros _; apply Z.ltb_lt; lia | exact IH].
Qed.

Lemma vehicles_kept_In (v : string) (l : list Vehicle) (x : Vehicle) :
  In x (filter (fun x => negb (text_column_eq (v_vin x) (SqlText v))) l)
  <-> In x l /\ v_vin x <> v.
Proof. apply (keep_other_vin_In v_vin v l x). Qed.

(** C8.  Deleting a vehicle that exists succeeds, and afterwards none of
    trips, fuel_logs, repairs, maintenance_intervals and mileage_history
    holds a row with the vehicle's VIN, nor does vehicles; the rows of
    every other VIN are all still there. *)
Theorem delete_cascades (vin v : string) (s : Store) :
  validate_vin vin = Ok v ->
  get_by_id (SqlText v) s <> None ->
  fst (delete vin s) = Ok true
  /\ no_dependents v (snd (delete vin s))
  /\ (forall x, In x (vehicles (snd (delete vin s)))
                <-> In x (vehicles s) /\ v_vin x <> v)
  /\ (forall x, In x (trips (snd (delete vin s)))
                <-> In x (trips s) /\ t_vin x <> v)
  /\ (forall x, In x (fuel_logs (snd (delete vin s)))
                <-> In x (fuel_logs s) /\ f_vin x <> v)
  /\ (forall x, In x (repairs (snd (delete vin s)))
                <-> In x (repairs s) /\ r_vin x <> v)
  /\ (forall x, In x (maintenance_intervals (snd (delete vin s)))
                <-> In x (maintenance_intervals s) /\ m_vin x <> v)
  /\ (forall x, In x (mileage_history (snd (delete vin s)))
                <-> In x (mileage_history s) /\ h_vin x <> v).
Proof.
  intros Hv Hex. rewrite (delete_unfold vin v s Hv).
  unfold base_delete, bind, execute_query, execute_delete_vehicle, ret.
  replace (get_by_id (SqlText v) (without_dependents v s))
    with (get_by_id (SqlText v) s) by reflexivity.
  destruct (get_by_id (SqlText v) s) as [veh|] eqn:Hget; [|congruence].
  cbn [fst snd without_dependents vehicles trips fuel_logs repairs
       maintenance_intervals mileage_history].
  split.
  { f_equal. apply find_some_filter_length.
    unfold get_by_id in Hget. rewrite Hget. discriminate. }
  split.
  { unfold no_dependents; cbn; repeat split; apply keep_other_vin_no_row. }
  split; [intros x; apply vehicles_kept_In|].
  repeat match goal with |- _ /\ _ => split end;
    intros x; apply keep_other_vin_In.
Qed.

Lemma delete_cascades_witness :
  fst (delete Demo.VIN Demo.store) = Ok true
  /\ no_dependents Demo.VIN (snd (delete Demo.VIN Demo.store)).
Proof.
  destruct (delete_cascades Demo.VIN Demo.VIN Demo.store eq_refl)
    as (Hok & Hnone & _).
  - discriminate.
  - split; [exact Hok | exact Hnone].
Defined.


(** ** Maintenance scheduler: seeding the default intervals *)

Lemma find_snoc {A} (p : A -> bool) (l : list A) (r : A) :
  find p (l ++ [r])
  = match find p l with
    | Some x => Some x
    | None => if p r then Some r else None
    end.
Proof.
  induction l as [|x l IH]; simpl; [reflexivity|].
  destruct (p x); [reflexivity | exact IH].
Qed.

Lemma find_none_filter {A} (p : A -> bool) (l : list A) :
  find p l = None <-> filter p l = [].
Proof.
  induction l as [|x l IH]; simpl; [tauto|].
  destruct (p x); [split; discriminate | exact IH].
Qed.

Section SeedingFacts.

Variables (v : string) (cm : Z).

Local Notation "'matching' st" :=
  (fun m => String.eqb (m_vin m) v && String.eqb (m_service_type m) st)
  (at level 10, st at level 9).
Lemma seed_stores_cons e l s :
  seed_stores v cm (e :: l) s = seed_stores v cm l (seed_store v cm e s).
Proof. reflexivity. Qed.

Lemma max_id_snoc (l : list MaintenanceInterval) (row : MaintenanceInterval) :
  max_id (l ++ [row]) = Z.max (max_id l) (m_id row).
Proof. unfold max_id. now rewrite map_app, fold_left_app. Qed.

(** An insert whose parameters are in range, with an id left. *)
Lemma execute_insert_run (st : string) (mi mo next : Z) (s : Store) :
  in_int64 mi -> in_int64 mo -> in_int64 next -> id_room 1 s ->
  MaintenanceService.execute_insert v st mi mo next s
  = (Ok (last_id s + 1),
     mkStore (vehicles s) (repairs s) (fuel_logs s)
       (maintenance_intervals s
        ++ [mkInterval (last_id s + 1) v st (Some mi) (Some mo) None None
              None (Some next) (Some 0)])
       (mileage_history s) (trips s) (last_id s + 1)).
Proof.
  intros Hmi Hmo Hnext Hroom. unfold MaintenanceService.execute_insert, bind.
  rewrite bind_ints_run.
  - unfold append_interval, next_id. unfold id_room in Hroom.
    destruct (Z.leb_spec INT64_MAX (last_id s)); [lia | reflexivity].
  - intros n [[= <-] | [[= <-] | [[= <-] | []]]]; assumption.
Qed.

(** Any other insert raises and leaves the store as it was. *)
Lemma execute_insert_cases (st : string) (mi mo next : Z) (s : Store) :
  (exists e, MaintenanceService.execute_insert v st mi mo next s = (Raise e, s))
  \/ (in_int64 mi /\ in_int64 mo /\ in_int64 next /\ id_room 1 s).
Proof.
  unfold MaintenanceService.execute_insert, bind.
  destruct (bind_ints_cases [Some mi; Some mo; Some next] s)
    as [[Hbound ->] | ->]; [|left; eexists; reflexivity].
  unfold append_interval, next_id.
  destruct (Z.leb_spec INT64_MAX (last_id s)) as [Hfull | Hroom];
    [left; eexists; reflexivity | right].
  repeat split; try (apply Hbound; simpl; tauto).
  unfold id_room. lia.
Qed.

(** One turn of the loop. *)
Lemma seed_default_present (e : string * (Z * Z)) (s : Store) :
  select_interval v (fst e) s <> None -> seed_default v cm e s = (Ok tt, s).
Proof.
  unfold seed_default, bind, execute_query, ret.
  destruct (select_interval v (fst e) s); [reflexivity | congruence].
Qed.

Lemma seed_default_absent (e : string * (Z * Z)) (s : Store) :
  select_interval v (fst e) s = None -> seedable cm e -> id_room 1 s ->
  seed_default v cm e s
  = (Ok tt,
     mkStore (vehicles s) (repairs s) (fuel_logs s)
       (maintenance_intervals s
        ++ [seeded_row (last_id s + 1) v (fst e) cm (fst (snd e)) (snd (snd e))])
       (mileage_history s) (trips s) (last_id s + 1)).
Proof.
  intros Hnone (Hmi & Hmo & Hnext) Hroom.
  unfold seed_default, bind at 1, execute_query at 1. rewrite Hnone.
  unfold bind at 1.
  now rewrite (execute_insert_run (fst e) _ _ _ s Hmi Hmo Hnext Hroom).
Qed.

Lemma seed_default_cases (e : string * (Z * Z)) (s : Store) :
  (exists r, seed_default v cm e s = (r, s))
  \/ (select_interval v (fst e) s = None /\ seedable cm e /\ id_room 1 s).
Proof.
  destruct (select_interval v (fst e) s) as [row|] eqn:Hsel.
  - left. exists (Ok tt). apply seed_default_present. congruence.
  - destruct (execute_insert_cases (fst e) (fst (snd e)) (snd (snd e))
                (cm + fst (snd e)) s)
      as [[err Hraise] | (Hmi & Hmo & Hnext & Hroom)].
    + left. exists (Raise err).
      unfold seed_default, bind at 1, execute_query at 1. rewrite Hsel.
      unfold bind at 1. now rewrite Hraise.
    + right. unfold seedable. auto.
Qed.

Lemma seed_default_Ok (e : string * (Z * Z)) (s : Store) :
  seedable cm e -> id_room 1 s -> fst (seed_default v cm e s) = Ok tt.
Proof.
  intros He Hroom. destruct (select_interval v (fst e) s) eqn:Hsel.
  - rewrite seed_default_present; [reflexivity | congruence].
  - now rewrite seed_default_absent.
Qed.

Lemma step_present (e : string * (Z * Z)) (s : Store) :
  select_interval v (fst e) s <> None -> seed_store v cm e s = s.
Proof.
  intros Hsome. unfold seed_store. now rewrite seed_default_present.
Qed.

Lemma step_absent (e : string * (Z * Z)) (s : Store) :
  select_interval v (fst e) s = None -> seedable cm e -> id_room 1 s ->
  seed_store v cm e s
  = mkStore (vehicles s) (repairs s) (fuel_logs s)
      (maintenance_intervals s
       ++ [seeded_row (last_id s + 1) v (fst e) cm (fst (snd e)) (snd (snd e))])
      (mileage_history s) (trips s) (last_id s + 1).
Proof.
  intros Hnone He Hroom. unfold seed_store. now rewrite seed_default_absent.
Qed.

(** A turn leaves the store as it was or appends the row of its
    default under the next id. *)
Lemma step_cases (e : string * (Z * Z)) (s : Store) :
  seed_store v cm e s = s
  \/ (select_interval v (fst e) s = None /\ seedable cm e /\ id_room 1 s
      /\ seed_store v cm e s
         = mkStore (vehicles s) (repairs s) (fuel_logs s)
             (maintenance_intervals s
              ++ [seeded_row (last_id s + 1) v (fst e) cm (fst (snd e))
                    (snd (snd e))])
             (mileage_history s) (trips s) (last_id s + 1)).
Proof.
  destruct (seed_default_cases e s) as [[r Hr] | (Hnone & He & Hroom)].
  - left. unfold seed_store. now rewrite Hr.
  - right. split; [exact Hnone|]. split; [exact He|].
    split; [exact Hroom | now apply step_absent].
Qed.

Lemma step_room (n : nat) (e : string * (Z * Z)) (s : Store) :
  id_room (S n) s -> id_room n (seed_store v cm e s).
Proof.
  unfold id_room. intros Hroom.
  destruct (step_cases e s) as [-> | (_ & _ & _ & ->)]; [lia|].
  unfold last_id. cbn [seq_maintenance_intervals maintenance_intervals].
  rewrite max_id_snoc. cbn [seeded_row m_id].
  unfold last_id in Hroom. lia.
Qed.

Lemma for_each_seed (l : list (string * (Z * Z))) (s : Store) :
  Forall (seedable cm) l -> id_room (List.length l) s ->
  for_each l (seed_default v cm) s = (Ok tt, seed_stores v cm l s).
Proof.
  revert s. induction l as [|e l IH]; intros s Hall Hroom; [reflexivity|].
  inversion Hall as [|? ? He Hall']; subst.
  cbn [for_each]. rewrite seed_stores_cons. unfold seed_store, bind at 1.
  assert (Hone : id_room 1 s) by (unfold id_room in *; cbn [List.length] in Hroom; lia).
  pose proof (seed_default_Ok e s He Hone) as Hok.
  pose proof (step_room (List.length l) e s Hroom) as Hnext.
  unfold seed_store in Hnext.
  destruct (seed_default v cm e s) as [[[] | err] s1]; simpl in Hok;
    [now apply IH | discriminate].
Qed.

Lemma step_extends (e : string * (Z * Z)) (s : Store) :
  vehicles (seed_store v cm e s) = vehicles s
  /\ repairs (seed_store v cm e s) = repairs s
  /\ fuel_logs (seed_store v cm e s) = fuel_logs s
  /\ mileage_history (seed_store v cm e s) = mileage_history s
  /\ trips (seed_store v cm e s) = trips s
  /\ exists added,
       maintenance_intervals (seed_store v cm e s) = maintenance_intervals s ++ added.
Proof.
  destruct (step_cases e s) as [-> | (_ & _ & _ & ->)].
  - repeat split. exists []. now rewrite app_nil_r.
  - simpl. repeat split. eexists. reflexivity.
Qed.

Lemma run_extends (l : list (string * (Z * Z))) (s : Store) :
  vehicles (seed_stores v cm l s) = vehicles s
  /\ repairs (seed_stores v cm l s) = repairs s
  /\ fuel_logs (seed_stores v cm l s) = fuel_logs s
  /\ mileage_history (seed_stores v cm l s) = mileage_history s
  /\ trips (seed_stores v cm l s) = trips s
  /\ exists added,
       maintenance_intervals (seed_stores v cm l s) = maintenance_intervals s ++ added.
Proof.
  revert s. induction l as [|e l IH]; intros s; rewrite ?seed_stores_cons.
  - repeat split. exists []. now rewrite app_nil_r.
  - destruct (IH (seed_store v cm e s)) as (Hv & Hr & Hf & Hh & Ht & added & Hm).
    destruct (step_extends e s) as (Hv' & Hr' & Hf' & Hh' & Ht' & added' & Hm').
    repeat split; try congruence.
    exists (added' ++ added). now rewrite Hm, Hm', app_assoc.
Qed.

(** A row that is found stays the row that is found. *)
Lemma step_keeps_found (e : string * (Z * Z)) (s : Store) st row :
  select_interval v st s = Some row ->
  select_interval v st (seed_store v cm e s) = Some row.
Proof.
  intros Hrow. destruct (step_cases e s) as [-> | (_ & _ & _ & ->)];
    [exact Hrow|].
  unfold select_interval in *. simpl. now rewrite find_snoc, Hrow.
Qed.

Lemma run_keeps_found (l : list (string * (Z * Z))) (s : Store) st row :
  select_interval v st s = Some row ->
  select_interval v st (seed_stores v cm l s) = Some row.
Proof.
  revert s. induction l as [|e l IH]; intros s Hrow; rewrite ?seed_stores_cons;
    [exact Hrow|].
  apply IH. now apply step_keeps_found.
Qed.

Lemma seeded_row_matches id st mi mo :
  matching st (seeded_row id v st cm mi mo) = true.
Proof. simpl. now rewrite !String.eqb_refl. Qed.

Lemma step_finds_own (e : string * (Z * Z)) (s : Store) :
  select_interval v (fst e) s = None -> seedable cm e -> id_room 1 s ->
  select_interval v (fst e) (seed_store v cm e s)
  = Some (seeded_row (last_id s + 1) v (fst e) cm (fst (snd e)) (snd (snd e))).
Proof.
  intros Hsel He Hroom. rewrite (step_absent e s Hsel He Hroom).
  unfold select_interval in *. simpl maintenance_intervals.
  rewrite find_snoc, Hsel. now rewrite seeded_row_matches.
Qed.

Lemma step_keeps_absent (e : string * (Z * Z)) (s : Store) st :
  fst e <> st ->
  select_interval v st s = None ->
  select_interval v st (seed_store v cm e s) = None.
Proof.
  intros Hne Hnone. destruct (step_cases e s) as [-> | (_ & _ & _ & ->)];
    [exact Hnone|].
  unfold select_interval in *. simpl maintenance_intervals.
  rewrite find_snoc, Hnone. simpl.
  rewrite String.eqb_refl. simpl.
  destruct (String.eqb_spec (fst e) st); [contradiction | reflexivity].
Qed.

(** After the loop every default it has visited has a row. *)
Lemma run_covers (l : list (string * (Z * Z))) (s : Store) st :
  Forall (seedable cm) l -> id_room (List.length l) s ->
  In st (map fst l) -> select_interval v st (seed_stores v cm l s) <> None.
Proof.
  revert s. induction l as [|e l IH]; intros s Hall Hroom; [intros []|].
  inversion Hall as [|? ? He Hall']; subst.
  assert (Hone : id_room 1 s) by (unfold id_room in *; cbn [List.length] in Hroom; lia).
  cbn [map]; rewrite ?seed_stores_cons.
  intros [<- | Hin]; [|apply IH; auto; now apply step_room].
  destruct (select_interval v (fst e) s) as [row|] eqn:Hsel.
  - rewrite (run_keeps_found l _ (fst e) row); [discriminate|].
    now apply step_keeps_found.
  - rewrite (run_keeps_found l _ _ _ (step_finds_own e s Hsel He Hone)).
    discriminate.
Qed.

(** A loop that finds every default in place changes nothing. *)
Lemma run_fixed (l : list (string * (Z * Z))) (s : Store) :
  (forall st, In st (map fst l) -> select_interval v st s <> None) ->
  seed_stores v cm l s = s.
Proof.
  induction l as [|e l IH]; intros Hall; rewrite ?seed_stores_cons; [reflexivity|].
  rewrite step_present by (apply Hall; now left).
  apply IH. intros st Hin. apply Hall. now right.
Qed.

Lemma run_idempotent (l : list (string * (Z * Z))) (s : Store) :
  Forall (seedable cm) l -> id_room (List.length l) s ->
  seed_stores v cm l (seed_stores v cm l s) = seed_stores v cm l s.
Proof.
  intros Hall Hroom. apply run_fixed. intros st Hin. now apply run_covers.
Qed.

(** The row created for a default that had none. *)
Lemma run_creates (l : list (string * (Z * Z))) (s : Store) st mi mo :
  Forall (seedable cm) l -> id_room (List.length l) s ->
  NoDup (map fst l) ->
  In (st, (mi, mo)) l ->
  select_interval v st s = None ->
  exists id,
    select_interval v st (seed_stores v cm l s) = Some (seeded_row id v st cm mi mo).
Proof.
  revert s. induction l as [|e l IH]; intros s Hall Hroom Hnd Hin Hnone;
    [destruct Hin|].
  inversion Hall as [|? ? He Hall']; subst.
  assert (Hone : id_room 1 s) by (unfold id_room in *; cbn [List.length] in Hroom; lia).
  cbn [map] in Hnd. inversion Hnd as [|? ? Hfresh Hnd']; subst.
  rewrite ?seed_stores_cons. destruct Hin as [-> | Hin].
  - exists (last_id s + 1). apply run_keeps_found.
    exact (step_finds_own (st, (mi, mo)) s Hnone He Hone).
  - apply IH; auto using step_room. apply step_keeps_absent; auto.
    intros <-. apply Hfresh. apply (in_map fst) in Hin. exact Hin.
Qed.

Lemma count_none st (l : list MaintenanceInterval) :
  find (matching st) l = None <-> count_intervals v st l = 0%nat.
Proof.
  unfold count_intervals. rewrite find_none_filter.
  split; [now intros -> | apply length_zero_iff_nil].
Qed.

Lemma step_count_other (e : string * (Z * Z)) (s : Store) st :
  fst e <> st \/ select_interval v st s <> None ->
  count_intervals v st (maintenance_intervals (seed_store v cm e s))
  = count_intervals v st (maintenance_intervals s).
Proof.
  intros Hcase.
  destruct (step_cases e s) as [-> | (Hsel & _ & _ & ->)]; [reflexivity|].
  assert (Hne : fst e <> st) by (destruct Hcase; congruence).
  unfold count_intervals. simpl maintenance_intervals.
  rewrite filter_app, length_app. simpl.
  rewrite String.eqb_refl. simpl.
  destruct (String.eqb_spec (fst e) st); [contradiction|]. simpl. lia.
Qed.

Lemma run_count_present (l : list (string * (Z * Z))) (s : Store) st :
  select_interval v st s <> None ->
  count_intervals v st (maintenance_intervals (seed_stores v cm l s))
  = count_intervals v st (maintenance_intervals s).
Proof.
  revert s. induction l as [|e l IH]; intros s Hsome; rewrite ?seed_stores_cons;
    [reflexivity|].
  rewrite IH.
  - apply step_count_other. now right.
  - destruct (select_interval v st s) as [row|] eqn:Hrow; [|congruence].
    now rewrite (step_keeps_found e s st row Hrow).
Qed.

(** A default that had no row has exactly one after the loop. *)
Lemma run_count_created (l : list (string * (Z * Z))) (s : Store) st :
  Forall (seedable cm) l -> id_room (List.length l) s ->
  In st (map fst l) ->
  select_interval v st s = None ->
  count_intervals v st (maintenance_intervals (seed_stores v cm l s)) = 1%nat.
Proof.
  revert s. induction l as [|e l IH]; intros s Hall Hroom Hin Hnone;
    [destruct Hin|].
  inversion Hall as [|? ? He Hall']; subst.
  assert (Hone : id_room 1 s) by (unfold id_room in *; cbn [List.length] in Hroom; lia).
  rewrite ?seed_stores_cons. destruct (String.eqb_spec (fst e) st) as [Heq | Hne].
  - subst st.
    rewrite run_count_present
      by (rewrite (step_finds_own e s Hnone He Hone); discriminate).
    rewrite (step_absent e s Hnone He Hone).
    unfold count_intervals. simpl maintenance_intervals.
    rewrite filter_app, length_app.
    apply count_none in Hnone. unfold count_intervals in Hnone.
    rewrite Hnone. simpl. now rewrite !String.eqb_refl.
  - destruct Hin as [Heq | Hin]; [contradiction|].
    apply IH; auto using step_room. now apply step_keeps_absent.
Qed.

End SeedingFacts.

Lemma DEFAULT_INTERVALS_NoDup : NoDup (map fst DEFAULT_INTERVALS).
Proof.
  cbv [DEFAULT_INTERVALS map fst].
  repeat (constructor; [simpl; intuition discriminate|]). constructor.
Qed.

(** Every default can be seeded at a current mileage that leaves 60000
    miles below the largest 64-bit integer. *)
Lemma DEFAULT_INTERVALS_seedable (cm : Z) :
  in_int64 cm -> in_int64 (cm + 60000) ->
  Forall (seedable cm) DEFAULT_INTERVALS.
Proof.
  unfold in_int64, INT64_MIN, INT64_MAX. intros Hcm Hmax.
  unfold DEFAULT_INTERVALS.
  repeat (constructor;
          [unfold seedable, in_int64, INT64_MIN, INT64_MAX; cbn [fst snd]; lia|]).
  constructor.
Qed.

(** initialize_for_vehicle on an existing vehicle, at a current mileage
    and with ids that leave room for the ten defaults: the loop, then
    the listing of get_by_vin. *)
Lemma initialize_for_vehicle_run (vin v : string) (current : option Z)
    (s : Store) :
  validate_vin vin = Ok v ->
  select_current_mileage v s = Some current ->
  in_int64 (or_zero current) -> in_int64 (or_zero current + 60000) ->
  id_room 10 s ->
  initialize_for_vehicle vin s
  = (fst (get_by_vin v (seed_stores v (or_zero current) DEFAULT_INTERVALS s)),
     seed_stores v (or_zero current) DEFAULT_INTERVALS s).
Proof.
  intros Hv Hsel Hcm Hmax Hroom.
  unfold initialize_for_vehicle, bind at 1, lift. rewrite Hv.
  unfold bind at 1, execute_query at 1. rewrite Hsel.
  unfold bind at 1.
  rewrite for_each_seed;
    [|now apply DEFAULT_INTERVALS_seedable | exact Hroom].
  unfold get_by_vin, bind, lift, execute_query.
  now rewrite (validate_vin_idempotent vin v Hv).
Qed.

(** C3.  On an existing vehicle whose current mileage leaves 60000
    miles below the largest 64-bit integer, in a table that has ten ids
    left, seeding the default intervals a second time returns the same
    listing and leaves the store exactly as the first run left it.  The
    first run only appends interval rows: every row that was there
    stays as it was, a default that had a row for the vehicle keeps it,
    and a default that had none gets exactly one row, with the default
    miles and months and next-due mileage = current mileage + default
    miles. *)
Theorem initialize_for_vehicle_idempotent (vin v : string)
    (current : option Z) (s : Store) :
  validate_vin vin = Ok v ->
  select_current_mileage v s = Some current ->
  in_int64 (or_zero current) ->
  in_int64 (or_zero current + 60000) ->
  id_room 10 s ->
  let once := initialize_for_vehicle vin s in
  let twice := initialize_for_vehicle vin (snd once) in
  (exists rows, fst once = Ok rows /\ fst twice = Ok rows)
  /\ snd twice = snd once
  /\ (exists added,
        maintenance_intervals (snd once) = maintenance_intervals s ++ added)
  /\ (vehicles (snd once) = vehicles s
      /\ repairs (snd once) = repairs s
      /\ fuel_logs (snd once) = fuel_logs s
      /\ mileage_history (snd once) = mileage_history s
      /\ trips (snd once) = trips s)
  /\ (forall service_type miles months,
        In (service_type, (miles, months)) DEFAULT_INTERVALS ->
        match select_interval v service_type s with
        | Some row => select_interval v service_type (snd once) = Some row
        | None =>
            (exists id,
               select_interval v service_type (snd once)
               = Some (seeded_row id v service_type (or_zero current)
                         miles months))
            /\ count_intervals v service_type
                 (maintenance_intervals (snd once)) = 1%nat
        end).
Proof.
  intros Hv Hsel Hcm Hmax Hroom once twice.
  set (cm := or_zero current) in *.
  set (s1 := seed_stores v cm DEFAULT_INTERVALS s).
  pose proof (DEFAULT_INTERVALS_seedable cm Hcm Hmax) as Hall.
  assert (Honce : once = (fst (get_by_vin v s1), s1))
    by (apply initialize_for_vehicle_run; assumption).
  destruct (run_extends v cm DEFAULT_INTERVALS s)
    as (Hveh & Hrep & Hfuel & Hhist & Htrips & added & Hadded).
  fold s1 in Hveh, Hrep, Hfuel, Hhist, Htrips, Hadded.
  assert (Hfixed : seed_stores v cm DEFAULT_INTERVALS s1 = s1)
    by (now apply run_idempotent).
  assert (Htwice : twice = (fst (get_by_vin v s1), s1)).
  { unfold twice. rewrite Honce. cbn [snd].
    unfold initialize_for_vehicle, bind at 1, lift. rewrite Hv.
    unfold bind at 1, execute_query at 1.
    replace (select_current_mileage v s1) with (Some current)
      by (unfold select_current_mileage in *; now rewrite Hveh).
    unfold bind at 1. fold cm.
    assert (Hloop : for_each DEFAULT_INTERVALS (seed_default v cm) s1
                    = (Ok tt, s1)).
    { clear - Hall Hroom. subst s1.
      assert (Hcovered : forall st, In st (map fst DEFAULT_INTERVALS) ->
                select_interval v st (seed_stores v cm DEFAULT_INTERVALS s)
                <> None)
        by (intros st; now apply run_covers).
      revert Hcovered. generalize (seed_stores v cm DEFAULT_INTERVALS s).
      generalize DEFAULT_INTERVALS.
      induction l as [|e l IH]; intros s1 Hcovered; [reflexivity|].
      cbn [for_each]. unfold bind at 1.
      rewrite seed_default_present by (apply Hcovered; now left).
      apply IH. intros st Hin. apply Hcovered. now right. }
    rewrite Hloop.
    unfold get_by_vin, bind, lift, execute_query.
    now rewrite (validate_vin_idempotent vin v Hv). }
  rewrite Honce, Htwice. cbn [fst snd].
  split.
  { unfold get_by_vin, bind, lift, execute_query.
    rewrite (validate_vin_idempotent vin v Hv). eexists. split; reflexivity. }
  split; [reflexivity|].
  split; [now exists added|].
  split; [repeat split; assumption|].
  intros st mi mo Hin.
  destruct (select_interval v st s) as [row|] eqn:Hrow.
  - now apply run_keeps_found.
  - split.
    + apply run_creates; auto using DEFAULT_INTERVALS_NoDup.
    + apply run_count_created; auto.
      apply (in_map fst) in Hin. exact Hin.
Qed.

Lemma initialize_for_vehicle_idempotent_witness :
  snd (initialize_for_vehicle Demo.VIN
         (snd (initialize_for_vehicle Demo.VIN Demo.store)))
  = snd (initialize_for_vehicle Demo.VIN Demo.store).
Proof.
  refine (proj1 (proj2 (initialize_for_vehicle_idempotent
                          Demo.VIN Demo.VIN (Some 45000) Demo.store
                          eq_refl eq_refl _ _ _))).
  - unfold in_int64, INT64_MIN, INT64_MAX. simpl. lia.
  - unfold in_int64, INT64_MIN, INT64_MAX. simpl. lia.
  - unfold id_room. vm_compute. discriminate.
Defined.

(** Beyond that mileage the loop stops at the first default whose
    next-due mileage does not fit: the rows inserted before it stay.
    At 5120 miles below the largest 64-bit integer the Oil Change row
    is inserted, the Transmission Fluid row raises OverflowError, and a
    second call raises again and changes nothing. *)
Example initialize_for_vehicle_overflow :
  let s := mkStore
             [ mkVehicle 1 Demo.VIN 2020 "Honda" "Civic"
                 (Some (INT64_MAX - 5120)) None ]
             [] [] [] [] [] 0 in
  let once := initialize_for_vehicle Demo.VIN s in
  fst once = Raise OverflowError
  /\ maintenance_intervals (snd once)
     = [ seeded_row 1 Demo.VIN "Oil Change" (INT64_MAX - 5120) 5000 6 ]
  /\ initialize_for_vehicle Demo.VIN (snd once)
     = (Raise OverflowError, snd once).
Proof. repeat split. Qed.


(** ** Metrics engine: fuel economy *)

Import Metrics.

Section MpgFacts.

Context {arith : FloatArith}.

Lemma float_lt_spec (a b : Q) : float_lt a b = true <-> (a < b)%Q.
Proof.
  unfold float_lt. rewrite negb_true_iff, <- not_true_iff_false, Qle_bool_iff.
  split; [apply Qnot_le_lt | apply Qlt_not_le].
Qed.

Lemma usable_pair_spec (p : FuelLog * FuelLog) :
  usable_pair p = true <->
  (0 < f_gallons (fst p))%Q /\ 0 < f_odometer (fst p) - f_odometer (snd p).
Proof.
  unfold usable_pair, pair_miles.
  now rewrite andb_true_iff, float_lt_spec, Z.ltb_lt.
Qed.

(** The guard [gallons > 0] keeps the divisor away from zero. *)
Lemma div_by_real_positive (n : Z) (x : Q) :
  float_lt 0 x = true ->
  div_by_real n x = Ok (float_div (float_of_int n) (float_of_real x)).
Proof.
  intros Hx. apply float_lt_spec in Hx. unfold div_by_real.
  destruct (Qeq_bool x 0) eqn:Heq; [|reflexivity].
  apply Qeq_bool_iff in Heq. rewrite Heq in Hx.
  now apply Qlt_irrefl in Hx.
Qed.

(** The loop of calculate_mpg never raises: it gives the values of the
    usable pairs [(logs[i], logs[i + 1])], in order. *)
Lemma mpg_values_pairs (logs : list FuelLog) :
  mpg_values logs
  = Ok (map pair_mpg (filter usable_pair (consecutive_pairs logs))).
Proof.
  induction logs as [|a logs IH]; [reflexivity|].
  destruct logs as [|b rest]; [reflexivity|].
  change (consecutive_pairs (a :: b :: rest))
    with ((a, b) :: consecutive_pairs (b :: rest)).
  cbn [filter]. unfold usable_pair at 1, pair_miles at 1. cbn [fst snd].
  cbn [mpg_values] in *.
  destruct (float_lt 0 (f_gallons a)) eqn:Hg; cbn [andb]; [|exact IH].
  destruct (0 <? f_odometer a - f_odometer b)%Z; [|exact IH].
  rewrite (div_by_real_positive _ _ Hg), IH. reflexivity.
Qed.

Lemma py_max_Ok (x : float) (l : list float) : exists y, py_max (x :: l) = Ok y.
Proof. eexists. reflexivity. Qed.

Lemma py_min_Ok (x : float) (l : list float) : exists y, py_min (x :: l) = Ok y.
Proof. eexists. reflexivity. Qed.

(** [max] and [min] return an item of the list. *)
Lemma py_max_In (l : list float) (y : float) : py_max l = Ok y -> In y l.
Proof.
  destruct l as [|x l]; [discriminate|]. cbn [py_max]. intros [= <-].
  revert x. induction l as [|a l IH]; intros x; [now left|].
  cbn [fold_left].
  destruct (IH (if float_less x a then a else x)) as [Heq | Hin].
  - rewrite <- Heq. destruct (float_less x a); [right; now left | now left].
  - right. now right.
Qed.

Lemma py_min_In (l : list float) (y : float) : py_min l = Ok y -> In y l.
Proof.
  destruct l as [|x l]; [discriminate|]. cbn [py_min]. intros [= <-].
  revert x. induction l as [|a l IH]; intros x; [now left|].
  cbn [fold_left].
  destruct (IH (if float_less a x then a else x)) as [Heq | Hin].
  - rewrite <- Heq. destruct (float_less a x); [right; now left | now left].
  - right. now right.
Qed.

(** The length of a list with an item is not zero. *)
Lemma div_by_length (total : number) (x : float) (l : list float) :
  exists average,
    div_by_int total (Z.of_nat (List.length (x :: l))) = Ok average.
Proof.
  unfold div_by_int.
  destruct (Z.eqb_spec (Z.of_nat (List.length (x :: l))) 0) as [Hzero | _];
    [simpl List.length in Hzero; lia | eexists; reflexivity].
Qed.

(** mpg_statistics returns a result for every list of logs. *)
Lemma mpg_statistics_total (no_logs no_values : option string)
    (logs : list FuelLog) :
  exists r, mpg_statistics no_logs no_values logs = Ok r.
Proof.
  unfold mpg_statistics.
  destruct (Z.of_nat (List.length logs) <? 2)%Z; [eexists; reflexivity|].
  rewrite mpg_values_pairs.
  destruct (map pair_mpg _) as [|first values]; [eexists; reflexivity|].
  destruct (div_by_length (Float (float_sum (first :: values))) first values)
    as [average ->].
  destruct (py_max_Ok first values) as [best ->].
  destruct (py_min_Ok first values) as [worst ->].
  eexists. reflexivity.
Qed.

Lemma mpg_statistics_few (no_logs no_values : option string)
    (logs : list FuelLog) :
  (List.length logs < 2)%nat ->
  mpg_statistics no_logs no_values logs
  = Ok (mkMpgResult None None None None 0 no_logs).
Proof.
  intros Hlen. unfold mpg_statistics.
  destruct (Z.ltb_spec (Z.of_nat (List.length logs)) 2); [reflexivity | lia].
Qed.

Lemma mpg_statistics_unusable (no_logs no_values : option string)
    (logs : list FuelLog) :
  Forall (fun p => usable_pair p = false) (consecutive_pairs logs) ->
  exists text,
    mpg_statistics no_logs no_values logs
    = Ok (mkMpgResult None None None None 0 text).
Proof.
  intros Hnone. unfold mpg_statistics.
  destruct (Z.of_nat (List.length logs) <? 2)%Z; [eexists; reflexivity|].
  rewrite mpg_values_pairs.
  replace (filter usable_pair (consecutive_pairs logs)) with (@nil (FuelLog * FuelLog)).
  - eexists; reflexivity.
  - symmetry. induction Hnone as [|p l Hp _ IH]; simpl; [reflexivity|].
    now rewrite Hp.
Qed.

(** The figures of a result with values: the count of the values, and
    the roundings of their average, of the first of them and of two of
    them, the ones that [max] and [min] pick. *)
Lemma mpg_statistics_values (no_logs no_values : option string)
    (logs : list FuelLog) (r : MpgResult) :
  mpg_statistics no_logs no_values logs = Ok r ->
  let values := map pair_mpg (filter usable_pair (consecutive_pairs logs)) in
  data_points r <> 0 ->
  data_points r = Z.of_nat (List.length values)
  /\ message r = None
  /\ (exists first rest average best worst,
        values = first :: rest
        /\ div_by_int (Float (float_sum values)) (data_points r) = Ok average
        /\ py_max values = Ok best /\ py_min values = Ok worst
        /\ average_mpg r = Some (float_round average 1)
        /\ last_mpg r = Some (float_round first 1)
        /\ best_mpg r = Some (float_round best 1)
        /\ worst_mpg r = Some (float_round worst 1)).
Proof.
  intros Hr values Hpoints. unfold mpg_statistics in Hr.
  destruct (Z.of_nat (List.length logs) <? 2)%Z;
    [injection Hr as <-; exfalso; now apply Hpoints|].
  rewrite mpg_values_pairs in Hr. fold values in Hr.
  destruct values as [|first rest] eqn:Hvalues;
    [injection Hr as <-; exfalso; now apply Hpoints|].
  destruct (div_by_length (Float (float_sum (first :: rest))) first rest)
    as [average Haverage].
  rewrite Haverage in Hr.
  destruct (py_max_Ok first rest) as [best Hbest].
  destruct (py_min_Ok first rest) as [worst Hworst].
  rewrite Hbest, Hworst in Hr. injection Hr as <-. cbn [data_points message
    average_mpg last_mpg best_mpg worst_mpg].
  split; [reflexivity|]. split; [reflexivity|].
  exists first, rest, average, best, worst.
  repeat split; assumption.
Qed.

(** The logs that the query keeps. *)
Lemma odometer_desc_total (a b : FuelLog) :
  odometer_desc a b = false -> odometer_desc b a = true.
Proof. unfold odometer_desc. rewrite Z.leb_gt, Z.leb_le. lia. Qed.

Lemma odometer_desc_trans (a b c : FuelLog) :
  odometer_desc a b = true -> odometer_desc b c = true ->
  odometer_desc a c = true.
Proof. unfold odometer_desc. rewrite !Z.leb_le. lia. Qed.

Lemma full_tank_of_spec (v : string) (f : FuelLog) :
  full_tank_of v f = true <-> full_tank_log v f.
Proof.
  unfold full_tank_of, full_tank_log.
  rewrite andb_true_iff, String.eqb_eq.
  destruct (f_full_tank f) as [flag|].
  - rewrite Z.eqb_eq. intuition congruence.
  - intuition congruence.
Qed.

Lemma full_tank_filter (v : string) (l : list FuelLog) (f : FuelLog) :
  In f (filter (full_tank_of v) l) <-> In f l /\ full_tank_log v f.
Proof. now rewrite filter_In, full_tank_of_spec. Qed.

Lemma sql_limit_In {A} (n : Z) (l : list A) (x : A) :
  In x (sql_limit n l) -> In x l.
Proof.
  unfold sql_limit. destruct (n <? 0)%Z; [auto | apply firstn_In].
Qed.

Lemma sql_limit_length {A} (n : Z) (l : list A) :
  0 <= n ->
  List.length (sql_limit n l) = Nat.min (Z.to_nat n) (List.length l).
Proof.
  intros Hn. unfold sql_limit.
  destruct (Z.ltb_spec n 0); [lia | apply length_firstn].
Qed.

Lemma sql_limit_length_le {A} (n : Z) (l : list A) :
  (List.length (sql_limit n l) <= List.length l)%nat.
Proof.
  unfold sql_limit. destruct (n <? 0)%Z; [lia|].
  rewrite length_firstn. lia.
Qed.

(** In a list sorted by descending odometer, the first log of every
    consecutive pair is the later one. *)
Lemma sorted_pairs (l : list FuelLog) :
  StronglySorted (fun a b => odometer_desc a b = true) l ->
  Forall (fun p => f_odometer (snd p) <= f_odometer (fst p))
         (consecutive_pairs l).
Proof.
  induction 1 as [|a l Hs IH Hall]; [constructor|].
  destruct l as [|b rest]; [constructor|].
  change (consecutive_pairs (a :: b :: rest))
    with ((a, b) :: consecutive_pairs (b :: rest)).
  constructor; [|exact IH].
  inversion Hall as [|? ? Hab _]; subst. simpl.
  unfold odometer_desc in Hab. now apply Z.leb_le.
Qed.

Lemma consecutive_pairs_length {A} (l : list A) :
  List.length (consecutive_pairs l) = (List.length l - 1)%nat.
Proof.
  unfold consecutive_pairs. rewrite length_combine.
  destruct l as [|a l]; [reflexivity|]. cbn [tl List.length]. lia.
Qed.

End MpgFacts.

Lemma StronglySorted_impl {A} (R R' : A -> A -> Prop) (l : list A) :
  (forall a b, R a b -> R' a b) -> StronglySorted R l -> StronglySorted R' l.
Proof.
  intros Himpl. induction 1 as [|a l Hs IH Hall]; constructor; auto.
  eapply Forall_impl; [|exact Hall]. auto.
Qed.

Lemma select_full_tank_logs_sorted (v : string) (limit : Z) (s : Store) :
  StronglySorted (fun a b => odometer_desc a b = true)
    (select_full_tank_logs v limit s).
Proof.
  unfold select_full_tank_logs.
  apply sql_limit_sorted, order_by_sorted;
    [exact odometer_desc_total | exact odometer_desc_trans].
Qed.

Lemma select_full_tank_logs_length (v : string) (limit : Z) (s : Store) :
  (List.length (select_full_tank_logs v limit s)
   <= List.length (filter (full_tank_of v) (fuel_logs s)))%nat.
Proof.
  unfold select_full_tank_logs.
  etransitivity; [apply sql_limit_length_le|].
  now rewrite order_by_length.
Qed.

(** The two full-tank logs of the example, in either table order, come
    back with the later one first. *)
Lemma select_two_logs (v : string) (limit : Z) (s : Store)
    (earlier later : FuelLog) :
  f_odometer earlier < f_odometer later ->
  2 <= limit ->
  filter (full_tank_of v) (fuel_logs s) = [earlier; later]
  \/ filter (full_tank_of v) (fuel_logs s) = [later; earlier] ->
  select_full_tank_logs v limit s = [later; earlier].
Proof.
  intros Hlt Hlimit Hlogs. unfold select_full_tank_logs, sql_limit.
  destruct (Z.ltb_spec limit 0); [lia|].
  assert (Hsorted : order_by odometer_desc
                      (filter (full_tank_of v) (fuel_logs s))
                    = [later; earlier]).
  { destruct Hlogs as [-> | ->]; cbn; unfold odometer_desc.
    - destruct (Z.leb_spec (f_odometer later) (f_odometer earlier));
        [lia | reflexivity].
    - destruct (Z.leb_spec (f_odometer earlier) (f_odometer later));
        [reflexivity | lia]. }
  rewrite Hsorted. apply firstn_all2. simpl. lia.
Qed.

Section CalculateMpg.

Context {arith : FloatArith}.

Lemma calculate_mpg_run (vin v : string) (limit : Z) (s : Store) :
  validate_vin vin = Ok v ->
  (in_int64 (limit + 1) ->
   FuelLogService.calculate_mpg vin limit s
   = (mpg_statistics
        (Some "Need at least 2 full tank fill-ups to calculate MPG"%string)
        (Some "Unable to calculate MPG from available data"%string)
        (select_full_tank_logs v (limit + 1) s), s))
  /\ AnalyticsService.calculate_mpg vin s
     = (mpg_statistics None None (select_full_tank_logs v 11 s), s).
Proof.
  intros Hv. split.
  - intros Hlimit. unfold FuelLogService.calculate_mpg, bind at 1, lift.
    rewrite Hv. unfold bind at 1. rewrite bind_ints_run; [reflexivity|].
    intros n [[= <-] | []]. exact Hlimit.
  - unfold AnalyticsService.calculate_mpg, bind, lift, execute_query.
    now rewrite Hv.
Qed.

(** A limit whose successor does not fit 64 bits makes the query raise. *)
Lemma calculate_mpg_overflow (vin v : string) (limit : Z) (s : Store) :
  validate_vin vin = Ok v ->
  ~ in_int64 (limit + 1) ->
  FuelLogService.calculate_mpg vin limit s = (Raise OverflowError, s).
Proof.
  intros Hv Hlimit. unfold FuelLogService.calculate_mpg, bind at 1, lift.
  rewrite Hv. unfold bind at 1.
  destruct (bind_ints_cases [Some (limit + 1)] s) as [[Hbound _] | ->];
    [|reflexivity].
  exfalso. apply Hlimit, Hbound. now left.
Qed.

Lemma calculate_mpg_malformed (vin : string) (limit : Z) (s : Store)
    (e : Exception) :
  validate_vin vin = Raise e ->
  AnalyticsService.calculate_mpg vin s = (Raise e, s)
  /\ FuelLogService.calculate_mpg vin limit s = (Raise e, s).
Proof.
  intros Hv.
  unfold AnalyticsService.calculate_mpg, FuelLogService.calculate_mpg,
    bind, lift.
  now rewrite Hv.
Qed.

Lemma unusable_pairs (l : list (FuelLog * FuelLog)) :
  Forall (fun p => ~ ((0 < f_gallons (fst p))%Q
                      /\ 0 < f_odometer (fst p) - f_odometer (snd p))) l ->
  Forall (fun p => usable_pair p = false) l.
Proof.
  apply Forall_impl. intros p Hp.
  apply not_true_is_false. intros Hu. now apply usable_pair_spec in Hu.
Qed.

End CalculateMpg.

(** The arithmetic of the examples rounds equal rationals alike. *)
Lemma round_half_even_comp (x y : Q) :
  (x == y)%Q -> ExactArith.round_half_even x = ExactArith.round_half_even y.
Proof.
  intros Hxy. unfold ExactArith.round_half_even.
  rewrite (Qfloor_comp x y Hxy).
  assert (Hc : (x - inject_Z (Qfloor y) ?= 1 # 2)%Q
               = (y - inject_Z (Qfloor y) ?= 1 # 2)%Q)
    by (apply Qcompare_comp; [now rewrite Hxy | reflexivity]).
  now rewrite Hc.
Qed.

Lemma round_decimal_comp (x y : Q) (ndigits : Z) :
  (x == y)%Q -> ExactArith.round_decimal x ndigits = ExactArith.round_decimal y ndigits.
Proof.
  intros Hxy. unfold ExactArith.round_decimal.
  rewrite (round_half_even_comp (x * inject_Z (10 ^ ndigits))
             (y * inject_Z (10 ^ ndigits))); [reflexivity|].
  now rewrite Hxy.
Qed.

(** The statistics of two logs that make a usable pair, in every
    arithmetic: the four figures are roundings of the one value. *)
Lemma mpg_statistics_pair {arith : FloatArith}
    (no_logs no_values : option string) (earlier later : FuelLog) :
  (0 < f_gallons later)%Q -> f_odometer earlier < f_odometer later ->
  let value :=
    float_div (float_of_int (f_odometer later - f_odometer earlier))
      (float_of_real (f_gallons later)) in
  mpg_statistics no_logs no_values [later; earlier]
  = Ok (mkMpgResult
          (Some (float_round (quotient (Float (float_sum [value])) 1) 1))
          (Some (float_round value 1)) (Some (float_round value 1))
          (Some (float_round value 1)) 1 None).
Proof.
  intros Hgallons Hmiles value.
  unfold mpg_statistics. cbn [List.length Z.of_nat].
  change (Z.pos (Pos.of_succ_nat 1) <? 2)%Z with false. cbv iota.
  cbn [mpg_values].
  assert (Hpositive : float_lt 0 (f_gallons later) = true)
    by now apply float_lt_spec.
  rewrite Hpositive.
  replace (0 <? f_odometer later - f_odometer earlier)%Z with true
    by (symmetry; apply Z.ltb_lt; lia).
  cbn [andb]. rewrite (div_by_real_positive _ _ Hpositive).
  reflexivity.
Qed.

(** The example of C1 in the arithmetic of the examples: the statistics
    of the two logs, the later one first. *)
Lemma mpg_statistics_example (no_logs no_values : option string)
    (earlier later : FuelLog) :
  f_odometer later = 1300 -> (f_gallons later == 10)%Q ->
  f_odometer earlier = 1000 ->
  mpg_statistics (arith := ExactArith.exact) no_logs no_values [later; earlier]
  = Ok (mkMpgResult (arith := ExactArith.exact) (Some 30%Q) (Some 30%Q)
          (Some 30%Q) (Some 30%Q) 1 None).
Proof.
  intros Hlater Hgallons Hearlier.
  unfold mpg_statistics. cbn [List.length Z.of_nat].
  change (Z.pos (Pos.of_succ_nat 1) <? 2)%Z with false. cbv iota.
  cbn [mpg_values]. rewrite Hlater, Hearlier.
  assert (Hpositive : float_lt 0 (f_gallons later) = true)
    by (apply float_lt_spec; rewrite Hgallons; reflexivity).
  rewrite Hpositive. change (0 <? 1300 - 1000)%Z with true. cbn [andb].
  rewrite (div_by_real_positive (arith := ExactArith.exact) _ _ Hpositive).
  cbn [div_by_int quotient List.length Z.of_nat Z.eqb Pos.of_succ_nat py_max
       py_min fold_left float_round float_sum float_div float_of_int
       float_of_real ExactArith.exact ExactArith.sum].
  assert (Hvalue : (inject_Z (1300 - 1000) / f_gallons later == 30)%Q)
    by (rewrite Hgallons; reflexivity).
  rewrite (round_decimal_comp _ 30 1 Hvalue).
  rewrite (round_decimal_comp
             ((0 + inject_Z (1300 - 1000) / f_gallons later) / inject_Z 1)
             30 1)
    by (rewrite Hvalue; reflexivity).
  reflexivity.
Qed.

(** C1, as the code has it.  For a well-formed VIN and a limit N >= 0
    with N + 1 in the 64-bit range, calculate_mpg takes the N + 1
    full-tank logs of the vehicle with the highest odometers (all of
    them when there are fewer), in descending odometer order, so that
    in every consecutive pair the first log is the later one.  The
    values are, pair by pair, the miles between the two logs divided by
    the gallons of the LATER (higher-odometer) log, for the pairs whose
    miles and later gallons are both positive.  When the full-tank logs
    of the vehicle are two, at 1000 miles (5 gal) and 1300 miles
    (10 gal), and N >= 1, the single value is (1300 - 1000) / 10 and
    the four figures are its roundings, in every arithmetic; computed,
    that is 30.0 for the average, last, best and worst. *)
Theorem calculate_mpg_pairs {arith : FloatArith} (vin v : string)
    (limit : Z) (s : Store) :
  validate_vin vin = Ok v ->
  0 <= limit ->
  in_int64 (limit + 1) ->
  let logs := select_full_tank_logs v (limit + 1) s in
  List.length logs
  = Nat.min (Z.to_nat (limit + 1))
      (List.length (filter (full_tank_of v) (fuel_logs s)))
  /\ (exists dropped,
        Permutation (logs ++ dropped) (filter (full_tank_of v) (fuel_logs s))
        /\ forall kept late, In kept logs -> In late dropped ->
                             f_odometer late <= f_odometer kept)
  /\ (forall f, In f logs -> In f (fuel_logs s) /\ full_tank_log v f)
  /\ (forall f, In f (fuel_logs s) -> full_tank_log v f ->
        In f logs
        \/ forall kept, In kept logs -> f_odometer f <= f_odometer kept)
  /\ StronglySorted (fun a b => f_odometer b <= f_odometer a) logs
  /\ Forall (fun p => f_odometer (snd p) <= f_odometer (fst p))
       (consecutive_pairs logs)
  /\ mpg_values logs
     = Ok (map (fun p =>
                  float_div
                    (float_of_int (f_odometer (fst p) - f_odometer (snd p)))
                    (float_of_real (f_gallons (fst p))))
             (filter usable_pair (consecutive_pairs logs)))
  /\ (forall p, usable_pair p = true <->
        (0 < f_gallons (fst p))%Q
        /\ 0 < f_odometer (fst p) - f_odometer (snd p))
  /\ FuelLogService.calculate_mpg vin limit s
     = (mpg_statistics
          (Some "Need at least 2 full tank fill-ups to calculate MPG"%string)
          (Some "Unable to calculate MPG from available data"%string) logs,
        s)
  /\ (forall earlier later,
        f_odometer later = 1300 -> (f_gallons later == 10)%Q ->
        f_odometer earlier = 1000 -> (f_gallons earlier == 5)%Q ->
        filter (full_tank_of v) (fuel_logs s) = [earlier; later]
        \/ filter (full_tank_of v) (fuel_logs s) = [later; earlier] ->
        1 <= limit ->
        logs = [later; earlier]
        /\ mpg_values logs
           = Ok [float_div (float_of_int (1300 - 1000))
                   (float_of_real (f_gallons later))]
        /\ (let value :=
              float_div (float_of_int (1300 - 1000))
                (float_of_real (f_gallons later)) in
            let figures :=
              mkMpgResult
                (Some (float_round (quotient (Float (float_sum [value])) 1) 1))
                (Some (float_round value 1)) (Some (float_round value 1))
                (Some (float_round value 1)) 1 None in
            fst (FuelLogService.calculate_mpg vin limit s) = Ok figures
            /\ fst (AnalyticsService.calculate_mpg vin s) = Ok figures)
        /\ fst (FuelLogService.calculate_mpg (arith := ExactArith.exact)
                  vin limit s)
           = Ok (mkMpgResult (arith := ExactArith.exact) (Some 30%Q)
                   (Some 30%Q) (Some 30%Q) (Some 30%Q) 1 None)
        /\ fst (AnalyticsService.calculate_mpg (arith := ExactArith.exact)
                  vin s)
           = Ok (mkMpgResult (arith := ExactArith.exact) (Some 30%Q)
                   (Some 30%Q) (Some 30%Q) (Some 30%Q) 1 None)).
Proof.
  intros Hv Hlimit Hrange logs.
  pose proof (select_full_tank_logs_sorted v (limit + 1) s) as Hsorted.
  fold logs in Hsorted.
  pose (sorted :=
          order_by odometer_desc (filter (full_tank_of v) (fuel_logs s))).
  destruct (sql_limit_keeps_first odometer_desc (limit + 1) sorted)
    as (dropped & Hsplit & Hlate).
  { apply order_by_sorted;
      [exact odometer_desc_total | exact odometer_desc_trans]. }
  change (sql_limit (limit + 1) sorted) with logs in Hsplit, Hlate.
  split.
  { unfold logs, select_full_tank_logs.
    rewrite sql_limit_length by lia. now rewrite order_by_length. }
  split.
  { exists dropped. split.
    - rewrite <- Hsplit. apply order_by_perm.
    - intros kept late Hk Hl. specialize (Hlate kept late Hk Hl).
      unfold odometer_desc in Hlate. now apply Z.leb_le. }
  split.
  { intros f Hf. apply sql_limit_In in Hf. apply order_by_In in Hf.
    now apply full_tank_filter in Hf. }
  split.
  { intros f Hf Hfull.
    assert (Hin : In f sorted) by (apply order_by_In, full_tank_filter; auto).
    rewrite Hsplit in Hin. apply in_app_or in Hin.
    destruct Hin as [Hkept | Hdropped]; [now left | right].
    intros kept Hk. specialize (Hlate kept f Hk Hdropped).
    unfold odometer_desc in Hlate. now apply Z.leb_le. }
  split.
  { eapply StronglySorted_impl; [|exact Hsorted].
    intros a b Hab. unfold odometer_desc in Hab. now apply Z.leb_le. }
  split; [now apply sorted_pairs|].
  split; [apply mpg_values_pairs|].
  split; [apply usable_pair_spec|].
  split; [exact (proj1 (calculate_mpg_run vin v limit s Hv) Hrange)|].
  intros earlier later Hlater Hgallons Hearlier _ Htable Hone.
  assert (Hlogs : logs = [later; earlier])
    by (apply select_two_logs; [lia | lia | exact Htable]).
  assert (Heleven : select_full_tank_logs v 11 s = [later; earlier])
    by (apply select_two_logs; [lia | lia | exact Htable]).
  split; [exact Hlogs|].
  split.
  { rewrite Hlogs. cbn [mpg_values]. rewrite Hlater, Hearlier.
    assert (Hpositive : float_lt 0 (f_gallons later) = true)
      by (apply float_lt_spec; rewrite Hgallons; reflexivity).
    rewrite Hpositive. change (0 <? 1300 - 1000)%Z with true. cbn [andb].
    now rewrite (div_by_real_positive _ _ Hpositive). }
  split.
  { destruct (calculate_mpg_run vin v limit s Hv) as [Hfuel Hana].
    rewrite (Hfuel Hrange), Hana. cbn [fst]. fold logs.
    rewrite Hlogs, Heleven. cbv zeta.
    assert (Hpositive : (0 < f_gallons later)%Q)
      by (rewrite Hgallons; reflexivity).
    assert (Hmiles : f_odometer earlier < f_odometer later) by lia.
    pose proof (fun a b => mpg_statistics_pair a b earlier later Hpositive Hmiles)
      as Hpair.
    cbv zeta in Hpair. rewrite Hlater, Hearlier in Hpair.
    split; apply Hpair. }
  destruct (calculate_mpg_run (arith := ExactArith.exact) vin v limit s Hv)
    as [Hfuel Hana].
  rewrite (Hfuel Hrange), Hana. cbn [fst]. fold logs.
  rewrite Hlogs, Heleven.
  split; apply mpg_statistics_example; assumption.
Qed.

Lemma calculate_mpg_pairs_witness :
  FuelLogService.calculate_mpg (arith := ExactArith.exact) Demo.VIN 10
    Demo.store
  = (mpg_statistics (arith := ExactArith.exact)
       (Some "Need at least 2 full tank fill-ups to calculate MPG"%string)
       (Some "Unable to calculate MPG from available data"%string)
       (select_full_tank_logs Demo.VIN (10 + 1) Demo.store), Demo.store).
Proof.
  destruct (calculate_mpg_pairs (arith := ExactArith.exact) Demo.VIN Demo.VIN
              10 Demo.store eq_refl)
    as (_ & _ & _ & _ & _ & _ & _ & _ & Hrun & _);
    [lia | unfold in_int64, INT64_MIN, INT64_MAX; lia | exact Hrun].
Defined.

(** C1 as stated fails on its own example: with full-tank logs at 1000
    miles (5 gal) and 1300 miles (10 gal) the one value is 300 / 10 = 30,
    not 300 / 5 = 60, and so are the four statistics. *)
Lemma calculate_mpg_example_is_30 :
  map (fun f => (f_odometer f, f_gallons f))
      (select_full_tank_logs Demo.VIN 11 Demo.store)
  = [(1300, 10%Q); (1000, 5%Q)]
  /\ mpg_values (arith := ExactArith.exact)
       (select_full_tank_logs Demo.VIN 11 Demo.store)
     = Ok [(300 / 10)%Q]
  /\ ~ (300 / 10 == 300 / 5)%Q
  /\ fst (AnalyticsService.calculate_mpg (arith := ExactArith.exact)
            Demo.VIN Demo.store)
     = Ok (mkMpgResult (arith := ExactArith.exact) (Some 30%Q) (Some 30%Q)
             (Some 30%Q) (Some 30%Q) 1 None)
  /\ fst (AnalyticsService.calculate_mpg (arith := ExactArith.exact)
            Demo.VIN Demo.store)
     <> Ok (mkMpgResult (arith := ExactArith.exact) (Some 60%Q) (Some 60%Q)
              (Some 60%Q) (Some 60%Q) 1 None)
  /\ fst (FuelLogService.calculate_mpg (arith := ExactArith.exact)
            Demo.VIN 10 Demo.store)
     = Ok (mkMpgResult (arith := ExactArith.exact) (Some 30%Q) (Some 30%Q)
             (Some 30%Q) (Some 30%Q) 1 None).
Proof.
  repeat split; try reflexivity; try discriminate.
Qed.

(** C6.  Neither calculate_mpg method changes the store, and for a
    limit N with N + 1 in the 64-bit range the only exception either
    can raise is the ValidationError of a malformed VIN: there is no
    ZeroDivisionError, whatever the fuel logs are and whatever the
    arithmetic of the floats returns.  For a well-formed VIN both
    return a result; with fewer than two full-tank logs of the vehicle,
    and whenever no consecutive pair of the logs taken has positive
    miles together with positive gallons, it is the result without
    data: average_mpg = None, last_mpg = None, count 0. *)
Theorem calculate_mpg_insufficient_data {arith : FloatArith} (vin : string)
    (limit : Z) (s : Store) :
  in_int64 (limit + 1) ->
  snd (AnalyticsService.calculate_mpg vin s) = s
  /\ snd (FuelLogService.calculate_mpg vin limit s) = s
  /\ (forall e,
        fst (AnalyticsService.calculate_mpg vin s) = Raise e
        \/ fst (FuelLogService.calculate_mpg vin limit s) = Raise e ->
        validate_vin vin = Raise e /\ is_ValidationError (validate_vin vin))
  /\ (forall v, validate_vin vin = Ok v ->
      (exists r, fst (AnalyticsService.calculate_mpg vin s) = Ok r)
      /\ (exists r, fst (FuelLogService.calculate_mpg vin limit s) = Ok r)
      /\ ((List.length (filter (full_tank_of v) (fuel_logs s)) < 2)%nat ->
          fst (AnalyticsService.calculate_mpg vin s)
          = Ok (mkMpgResult None None None None 0 None)
          /\ fst (FuelLogService.calculate_mpg vin limit s)
             = Ok (mkMpgResult None None None None 0
                     (Some "Need at least 2 full tank fill-ups to calculate MPG"%string)))
      /\ (Forall (fun p => ~ ((0 < f_gallons (fst p))%Q
                              /\ 0 < f_odometer (fst p) - f_odometer (snd p)))
            (consecutive_pairs (select_full_tank_logs v 11 s)) ->
          exists r, fst (AnalyticsService.calculate_mpg vin s) = Ok r
                    /\ no_data r)
      /\ (Forall (fun p => ~ ((0 < f_gallons (fst p))%Q
                              /\ 0 < f_odometer (fst p) - f_odometer (snd p)))
            (consecutive_pairs (select_full_tank_logs v (limit + 1) s)) ->
          exists r, fst (FuelLogService.calculate_mpg vin limit s) = Ok r
                    /\ no_data r)).
Proof.
  intros Hrange.
  destruct (validate_vin vin) as [v | e] eqn:Hv.
  - destruct (calculate_mpg_run vin v limit s Hv) as [Hfuel Hana].
    specialize (Hfuel Hrange).
    rewrite Hfuel, Hana. cbn [fst snd].
    destruct (mpg_statistics_total None None (select_full_tank_logs v 11 s))
      as [ra Hra].
    destruct (mpg_statistics_total
                (Some "Need at least 2 full tank fill-ups to calculate MPG"%string)
                (Some "Unable to calculate MPG from available data"%string)
                (select_full_tank_logs v (limit + 1) s)) as [rf Hrf].
    split; [reflexivity|]. split; [reflexivity|].
    split.
    { intros e [He | He]; congruence. }
    intros v' [= <-].
    split; [now exists ra|]. split; [now exists rf|].
    split.
    { intros Hfew. split; apply mpg_statistics_few;
        (eapply Nat.le_lt_trans;
         [apply select_full_tank_logs_length | exact Hfew]). }
    split.
    + intros Hnone. apply unusable_pairs in Hnone.
      destruct (mpg_statistics_unusable None None _ Hnone) as [text ->].
      eexists. split; [reflexivity | now repeat split].
    + intros Hnone. apply unusable_pairs in Hnone.
      destruct (mpg_statistics_unusable
                  (Some "Need at least 2 full tank fill-ups to calculate MPG"%string)
                  (Some "Unable to calculate MPG from available data"%string)
                  _ Hnone) as [text ->].
      eexists. split; [reflexivity | now repeat split].
  - destruct (calculate_mpg_malformed vin limit s e Hv) as [Hana Hfuel].
    rewrite Hana, Hfuel. cbn [fst snd].
    split; [reflexivity|]. split; [reflexivity|].
    split.
    + intros e' [[= <-] | [= <-]]; (split; [reflexivity|]).
      all: revert Hv; unfold validate_vin;
        repeat match goal with
               | |- context [if ?b then _ else _] => destruct b
               end; intros [= <-]; eexists; reflexivity.
    + intros v [=].
Qed.

Lemma calculate_mpg_insufficient_data_witness :
  fst (AnalyticsService.calculate_mpg (arith := ExactArith.exact)
         Demo.OTHER Demo.store)
  = Ok (mkMpgResult (arith := ExactArith.exact) None None None None 0 None)
  /\ fst (FuelLogService.calculate_mpg (arith := ExactArith.exact)
            Demo.OTHER 10 Demo.store)
     = Ok (mkMpgResult (arith := ExactArith.exact) None None None None 0
             (Some "Need at least 2 full tank fill-ups to calculate MPG"%string)).
Proof.
  destruct (calculate_mpg_insufficient_data (arith := ExactArith.exact)
              Demo.OTHER 10 Demo.store)
    as (_ & _ & _ & H);
    [unfold in_int64, INT64_MIN, INT64_MAX; lia|].
  destruct (H Demo.OTHER eq_refl) as (_ & _ & Hfew & _).
  apply Hfew. simpl. lia.
Defined.

Example calculate_mpg_unusable_demo :
  fst (FuelLogService.calculate_mpg (arith := ExactArith.exact)
         Demo.OTHER 10 Demo.flat_store)
  = Ok (mkMpgResult (arith := ExactArith.exact) None None None None 0
          (Some "Unable to calculate MPG from available data"%string)).
Proof. reflexivity. Qed.

(** ** Metrics engine: cost per mile *)

Section CostFacts.

Context {arith : FloatArith}.

Lemma fold_left_max (l : list Z) (x : Z) :
  In (fold_left Z.max l x) (x :: l)
  /\ forall y, In y (x :: l) -> y <= fold_left Z.max l x.
Proof.
  revert x. induction l as [|a l IH]; intros x; simpl.
  - split; [now left | intros y [-> | []]; lia].
  - destruct (IH (Z.max x a)) as [Hin Hle]. split.
    + destruct Hin as [Hm | Hin]; [|now right; right].
      rewrite <- Hm. destruct (Z.max_spec x a) as [[_ ->] | [_ ->]]; auto.
    + intros y [-> | [-> | Hy]].
      * specialize (Hle (Z.max y a) (or_introl eq_refl)). lia.
      * specialize (Hle (Z.max x y) (or_introl eq_refl)). lia.
      * apply Hle. now right.
Qed.

Lemma fold_left_min (l : list Z) (x : Z) :
  In (fold_left Z.min l x) (x :: l)
  /\ forall y, In y (x :: l) -> fold_left Z.min l x <= y.
Proof.
  revert x. induction l as [|a l IH]; intros x; simpl.
  - split; [now left | intros y [-> | []]; lia].
  - destruct (IH (Z.min x a)) as [Hin Hle]. split.
    + destruct Hin as [Hm | Hin]; [|now right; right].
      rewrite <- Hm. destruct (Z.min_spec x a) as [[_ ->] | [_ ->]]; auto.
    + intros y [-> | [-> | Hy]].
      * specialize (Hle (Z.min y a) (or_introl eq_refl)). lia.
      * specialize (Hle (Z.min x y) (or_introl eq_refl)). lia.
      * apply Hle. now right.
Qed.

(** [(last or 0) - (first or 0)] over MIN and MAX is the span. *)
Lemma min_max_span (l : list Z) :
  span_of l (or_zero (sql_max l) - or_zero (sql_min l)).
Proof.
  destruct l as [|x l]; [left; auto | right].
  simpl sql_max; simpl sql_min; simpl or_zero.
  destruct (fold_left_max l x) as [Hmax_in Hmax].
  destruct (fold_left_min l x) as [Hmin_in Hmin].
  exists (fold_left Z.min l x), (fold_left Z.max l x).
  repeat split; auto.
Qed.

(** [x / total_miles if total_miles > 0 else 0]: the guard keeps the
    divisor away from zero. *)
Lemma per_mile_Ok (x : number) (miles : Z) :
  per_mile x miles
  = Ok (if (0 <? miles)%Z then Float (quotient x miles) else Int 0).
Proof.
  unfold per_mile, div_by_int.
  destruct (Z.ltb_spec 0 miles) as [Hpos | Hneg]; [|reflexivity].
  destruct (Z.eqb_spec miles 0); [lia | reflexivity].
Qed.

Lemma calculate_cost_per_mile_run (vin v : string) (s : Store) :
  validate_vin vin = Ok v ->
  let repair := select_repair_cost v s in
  let fuel := select_fuel_cost v s in
  let fuel_span :=
    or_zero (snd (select_odometer_range v s))
    - or_zero (fst (select_odometer_range v s)) in
  let history_span :=
    or_zero (snd (select_mileage_range v s))
    - or_zero (fst (select_mileage_range v s)) in
  let miles := if (fuel_span <=? 0)%Z then history_span else fuel_span in
  let per x := if (0 <? miles)%Z then Float (quotient x miles) else Int 0 in
  AnalyticsService.calculate_cost_per_mile vin s
  = (Ok (mkCostPerMile (py_round (py_add repair fuel) 2) (py_round repair 2)
           (py_round fuel 2) miles (py_round (per (py_add repair fuel)) 3)
           (py_round (per fuel) 3) (py_round (per repair) 3)), s).
Proof.
  intros Hv repair fuel fuel_span history_span miles per.
  unfold AnalyticsService.calculate_cost_per_mile, bind, lift, execute_query, ret.
  rewrite Hv. fold repair fuel fuel_span.
  destruct (fuel_span <=? 0)%Z eqn:Hspan.
  - fold history_span. subst miles. rewrite !per_mile_Ok. reflexivity.
  - subst miles. rewrite !per_mile_Ok. reflexivity.
Qed.

End CostFacts.

(** C4.  For a well-formed VIN, calculate_cost_per_mile returns a result
    and leaves the store alone.  Its distance is the span of the
    odometer readings of the vehicle's fuel logs (largest minus
    smallest) or, when that span is not positive, the span of its
    mileage history.  The total cost is the sum of the vehicle's repair
    costs plus the sum of the total costs of its fuel logs, each sum
    being what SUM returns over the rows and the int 0 over no row.
    cost_per_mile is the total cost divided by the distance, rounded to
    3 decimals, when the distance is positive, and the int 0 otherwise.
    On the sample store, with a repair of 100, fuel costs of 20 and 30
    and odometer readings of 1000 and 1300, it is 150 / 300 = 0.5. *)
Theorem calculate_cost_per_mile_spec {arith : FloatArith} (vin v : string)
    (s : Store) :
  validate_vin vin = Ok v ->
  let repair :=
    coalesce_sum
      (map r_cost (filter (fun r => String.eqb (r_vin r) v) (repairs s))) in
  let fuel :=
    coalesce_sum
      (map f_total_cost
         (filter (fun f => String.eqb (f_vin f) v) (fuel_logs s))) in
  exists r fuel_span history_span,
    AnalyticsService.calculate_cost_per_mile vin s = (Ok r, s)
    /\ span_of (odometer_readings v s) fuel_span
    /\ span_of (history_readings v s) history_span
    /\ total_miles r
       = (if (fuel_span <=? 0)%Z then history_span else fuel_span)
    /\ (0 < total_miles r ->
        exists per_mile,
          div_by_int (py_add repair fuel) (total_miles r) = Ok per_mile
          /\ cost_per_mile r = Float (float_round per_mile 3))
    /\ (total_miles r <= 0 -> cost_per_mile r = Int 0)
    /\ total_cost r = py_round (py_add repair fuel) 2
    /\ (forall repair_total fuel_total,
          repair = Float repair_total -> fuel = Float fuel_total ->
          select_odometer_range v s = (Some 1000, Some 1300) ->
          cost_per_mile r
          = Float (float_round
                     (float_div (float_add repair_total fuel_total)
                        (float_of_int 300)) 3))
    /\ (exists example,
          fst (AnalyticsService.calculate_cost_per_mile
                 (arith := ExactArith.exact) Demo.VIN Demo.store)
          = Ok example
          /\ repair_cost example = Float (arith := ExactArith.exact) 100%Q
          /\ fuel_cost example = Float (arith := ExactArith.exact) 50%Q
          /\ total_miles example = 300
          /\ cost_per_mile example
             = Float (arith := ExactArith.exact) (1 # 2)%Q).
Proof.
  intros Hv repair fuel.
  pose proof (calculate_cost_per_mile_run vin v s Hv) as Hrun.
  cbv zeta in Hrun.
  eexists. exists (or_zero (snd (select_odometer_range v s))
                   - or_zero (fst (select_odometer_range v s))).
  exists (or_zero (snd (select_mileage_range v s))
          - or_zero (fst (select_mileage_range v s))).
  split; [exact Hrun|].
  split; [apply min_max_span|].
  split; [apply min_max_span|].
  cbn [total_miles cost_per_mile total_cost].
  change (select_repair_cost v s) with repair.
  change (select_fuel_cost v s) with fuel.
  split; [reflexivity|].
  split.
  { intros Hpos. exists (quotient (py_add repair fuel)
      (if (or_zero (snd (select_odometer_range v s))
           - or_zero (fst (select_odometer_range v s)) <=? 0)%Z
       then or_zero (snd (select_mileage_range v s))
            - or_zero (fst (select_mileage_range v s))
       else or_zero (snd (select_odometer_range v s))
            - or_zero (fst (select_odometer_range v s)))).
    split.
    - unfold div_by_int.
      match goal with
      | |- (if (?n =? 0)%Z then _ else _) = _ =>
          destruct (Z.eqb_spec n 0); [lia | reflexivity]
      end.
    - apply Z.ltb_lt in Hpos. now rewrite Hpos. }
  split.
  { intros Hneg. destruct (Z.ltb_spec 0
      (if (or_zero (snd (select_odometer_range v s))
           - or_zero (fst (select_odometer_range v s)) <=? 0)%Z
       then or_zero (snd (select_mileage_range v s))
            - or_zero (fst (select_mileage_range v s))
       else or_zero (snd (select_odometer_range v s))
            - or_zero (fst (select_odometer_range v s)))); [lia | reflexivity]. }
  split; [reflexivity|].
  split; [|eexists; repeat split].
  intros repair_total fuel_total Hrepair Hfuel Hreadings.
  rewrite Hreadings, Hrepair, Hfuel. cbn [fst snd or_zero].
  change ((1300 - 1000 <=? 0)%Z) with false. cbv iota.
  change ((0 <? 1300 - 1000)%Z) with true. cbv iota.
  reflexivity.
Qed.

Lemma calculate_cost_per_mile_spec_witness :
  exists r fuel_span history_span,
    AnalyticsService.calculate_cost_per_mile (arith := ExactArith.exact)
      Demo.VIN Demo.store = (Ok r, Demo.store)
    /\ span_of (odometer_readings Demo.VIN Demo.store) fuel_span
    /\ span_of (history_readings Demo.VIN Demo.store) history_span
    /\ total_miles r
       = (if (fuel_span <=? 0)%Z then history_span else fuel_span).
Proof.
  destruct (calculate_cost_per_mile_spec (arith := ExactArith.exact)
              Demo.VIN Demo.VIN Demo.store eq_refl)
    as (r & fuel_span & history_span & Hrun & Hfuel & Hhist & Hmiles & _).
  exists r, fuel_span, history_span. repeat split; assumption.
Defined.

Example calculate_cost_per_mile_demo :
  fst (AnalyticsService.calculate_cost_per_mile (arith := ExactArith.exact)
         Demo.VIN Demo.store)
  = Ok (mkCostPerMile (arith := ExactArith.exact)
          (Float (arith := ExactArith.exact) 150%Q)
          (Float (arith := ExactArith.exact) 100%Q)
          (Float (arith := ExactArith.exact) 50%Q) 300
          (Float (arith := ExactArith.exact) (1 # 2)%Q)
          (Float (arith := ExactArith.exact) (167 # 1000)%Q)
          (Float (arith := ExactArith.exact) (333 # 1000)%Q)).
Proof. reflexivity. Qed.

(** ** Maintenance scheduler: recording a service *)

Section RecordServiceFacts.

Lemma find_In {A} (p : A -> bool) (l : list A) (x : A) :
  In x l -> p x = true -> find p l <> None.
Proof.
  induction l as [|y l IH]; simpl; [tauto|].
  intros [-> | Hin] Hp; [now rewrite Hp|].
  destruct (p y); [discriminate | auto].
Qed.

(** The UPDATE runs when its two mileages are in range, and raises
    before it has changed anything when one is not. *)
Lemma execute_update_cases (data : ServiceRecord) (id_value : Z) (s : Store) :
  (bound [last_performed_mileage data; next_due_mileage data]
   /\ MaintenanceService.execute_update data id_value s
      = set_interval data id_value s)
  \/ (~ bound [last_performed_mileage data; next_due_mileage data]
      /\ MaintenanceService.execute_update data id_value s
         = (Raise OverflowError, s)).
Proof.
  unfold MaintenanceService.execute_update, bind, bind_ints.
  destruct (forallb _ _) eqn:Hall; [left | right]; (split; [|reflexivity]).
  - intros n Hin. rewrite forallb_forall in Hall.
    now apply int64_spec, (Hall (Some n)).
  - intros Hbound. apply not_true_iff_false in Hall. apply Hall.
    apply forallb_forall. intros [n|] Hin; [|reflexivity].
    now apply int64_spec, Hbound.
Qed.

(** Reading a row back by its id after the UPDATE gives the first row
    of that id with the four columns set. *)
Lemma get_by_id_after_update (data : ServiceRecord) (id_value : Z) (s : Store) :
  MaintenanceService.get_by_id id_value (snd (set_interval data id_value s))
  = option_map (set_service_record data) (MaintenanceService.get_by_id id_value s).
Proof.
  unfold MaintenanceService.get_by_id, set_interval. cbn [snd maintenance_intervals].
  induction (maintenance_intervals s) as [|m l IH]; [reflexivity|].
  cbn [map find]. destruct (m_id m =? id_value)%Z eqn:Hid.
  - cbn [set_service_record m_id]. now rewrite Hid.
  - now rewrite Hid.
Qed.

Lemma update_existing (data : ServiceRecord) (m : MaintenanceInterval)
    (s : Store) :
  In m (maintenance_intervals s) ->
  exists old,
    MaintenanceService.get_by_id (m_id m) s = Some old
    /\ (bound [last_performed_mileage data; next_due_mileage data] ->
        MaintenanceService.update (m_id m) data s
        = (Ok (Some (set_service_record data old)),
           snd (set_interval data (m_id m) s)))
    /\ (~ bound [last_performed_mileage data; next_due_mileage data] ->
        MaintenanceService.update (m_id m) data s
        = (Raise OverflowError, s)).
Proof.
  intros Hin.
  assert (Hsome : MaintenanceService.get_by_id (m_id m) s <> None)
    by (apply (find_In _ _ m Hin); apply Z.eqb_refl).
  destruct (MaintenanceService.get_by_id (m_id m) s) as [old|] eqn:Hold; [|congruence].
  exists old. split; [reflexivity|].
  assert (Hrun : MaintenanceService.update (m_id m) data s
                 = bind (MaintenanceService.execute_update data (m_id m))
                     (fun _ => execute_query
                                 (MaintenanceService.get_by_id (m_id m))) s).
  { unfold MaintenanceService.update, bind at 1, execute_query at 1.
    now rewrite Hold. }
  rewrite Hrun. unfold bind.
  destruct (execute_update_cases data (m_id m) s) as [[Hbound ->] | [Hout ->]].
  - split; [|contradiction]. intros _.
    change (set_interval data (m_id m) s)
      with (Ok (Z.of_nat (List.length
                  (filter (fun x => (m_id x =? m_id m)%Z)
                          (maintenance_intervals s)))),
            snd (set_interval data (m_id m) s)).
    cbv iota. unfold execute_query.
    now rewrite get_by_id_after_update, Hold.
  - split; [contradiction | reflexivity].
Qed.

End RecordServiceFacts.

Lemma recorded_mileage_reads (v : string) (mileage : option Z) (s : Store) :
  snd (recorded_mileage v mileage s) = s.
Proof.
  unfold recorded_mileage, bind, lift, execute_query, ret.
  destruct mileage as [value|].
  - now destruct (validate_positive_number value "Mileage").
  - now destruct (select_current_mileage v s).
Qed.

(** The mileage that is recorded: the one of the request when a double
    holds it exactly, and otherwise the current mileage of the vehicle,
    0 for a vehicle that is absent. *)
Lemma recorded_mileage_given (v : string) (given : Z) (s : Store) :
  exact_mileage given ->
  recorded_mileage v (Some given) s = (Ok (Some given), s).
Proof.
  intros Hgiven. unfold recorded_mileage, bind, lift, ret.
  now rewrite (validate_positive_number_exact given "Mileage" Hgiven).
Qed.

Lemma recorded_mileage_current (v : string) (s : Store) :
  recorded_mileage v None s
  = (Ok (match select_current_mileage v s with
         | Some current => current
         | None => Some 0
         end), s).
Proof.
  unfold recorded_mileage, bind, execute_query, ret.
  now destruct (select_current_mileage v s).
Qed.

Lemma int_truthy_spec (x : option Z) :
  int_truthy x = true <-> exists z, x = Some z /\ z <> 0.
Proof.
  destruct x as [z|]; simpl.
  - rewrite negb_true_iff, Z.eqb_neq. split; [eauto | now intros [? [[= <-] ?]]].
  - split; [discriminate | now intros [? [? _]]].
Qed.

Lemma int_truthy_false (x : option Z) :
  int_truthy x = false <-> x = None \/ x = Some 0.
Proof.
  destruct x as [z|]; simpl.
  - rewrite negb_false_iff, Z.eqb_eq.
    split; [intros ->; auto | intros [? | [= ->]]; [discriminate | reflexivity]].
  - split; auto.
Qed.

(** C7, as the code has it.  The mileage m that is recorded is the one
    of the request (any mileage from 0 to 2^53, which a double holds
    exactly) or, without one, the current mileage of the vehicle.  When
    a matching interval exists, m is known, m and the new next-due
    mileage fit 64 bits and the new next-due date is a date of the
    calendar (not after 9999-12-31), record_service stores the recorded
    date and m and returns the updated row.  Its next-due mileage is
    m + interval_miles when interval_miles is set and not 0, and NULL
    when interval_miles is NULL or 0; its next-due date is the recorded
    date plus interval_months * 30 days when interval_months is set and
    not 0, and NULL otherwise.  Whenever interval_miles is set and
    positive, the next-due mileage is at least the recorded mileage. *)
Theorem record_service_next_due
    (today : string) (strptime : string -> option Z) (strftime : Z -> string)
    (vin v service_type : string) (date : option string) (mileage : option Z)
    (s : Store) (interval : MaintenanceInterval) (d : string) (m : Z) :
  validate_vin vin = Ok v ->
  recorded_date today strptime date = Ok d ->
  select_interval v service_type s = Some interval ->
  (exists given, mileage = Some given /\ exact_mileage given /\ m = given)
  \/ (mileage = None
      /\ match select_current_mileage v s with
         | Some current => current
         | None => Some 0
         end = Some m) ->
  in_int64 m ->
  (forall miles, m_interval_miles interval = Some miles -> miles <> 0 ->
     in_int64 (m + miles)) ->
  (forall months, m_interval_months interval = Some months -> months <> 0 ->
     exists day, strptime d = Some day
                 /\ MINORDINAL <= day + months * 30 <= MAXORDINAL) ->
  exists row s',
    record_service today strptime strftime vin service_type date mileage s
    = (Ok (Some row), s')
    /\ In row (maintenance_intervals s')
    /\ m_id row = m_id interval
    /\ m_last_performed_date row = Some d
    /\ m_last_performed_mileage row = Some m
    /\ (forall miles, m_interval_miles interval = Some miles -> miles <> 0 ->
          m_next_due_mileage row = Some (m + miles))
    /\ (m_interval_miles interval = None \/ m_interval_miles interval = Some 0 ->
          m_next_due_mileage row = None)
    /\ (forall miles, m_interval_miles interval = Some miles -> 0 < miles ->
          exists due, m_next_due_mileage row = Some due /\ m <= due)
    /\ (forall months day,
          m_interval_months interval = Some months -> months <> 0 ->
          strptime d = Some day ->
          m_next_due_date row = Some (strftime (day + months * 30)))
    /\ (m_interval_months interval = None \/ m_interval_months interval = Some 0 ->
          m_next_due_date row = None).
Proof.
  intros Hv Hd Hsel Hm Hrange Hdue Hdate.
  assert (Hread : recorded_mileage v mileage s = (Ok (Some m), s)).
  { destruct Hm as [(given & -> & Hgiven & ->) | [-> Hcurrent]].
    - now apply recorded_mileage_given.
    - now rewrite recorded_mileage_current, Hcurrent. }
  assert (Hin : In interval (maintenance_intervals s))
    by (apply find_some in Hsel; tauto).
  set (next_mileage :=
         if int_truthy (m_interval_miles interval)
         then Some (m + or_zero (m_interval_miles interval)) else None).
  assert (Hnext_date : exists next_date,
            (if int_truthy (m_interval_months interval)
             then bind (lift (plus_days strptime strftime d
                                (or_zero (m_interval_months interval) * 30)))
                       (fun x => ret (Some x))
             else ret None) s = (Ok next_date, s)
            /\ (forall months day,
                  m_interval_months interval = Some months -> months <> 0 ->
                  strptime d = Some day ->
                  next_date = Some (strftime (day + months * 30)))
            /\ (m_interval_months interval = None
                \/ m_interval_months interval = Some 0 -> next_date = None)).
  { destruct (int_truthy (m_interval_months interval)) eqn:Htruthy.
    - apply int_truthy_spec in Htruthy. destruct Htruthy as (k & Hk & Hnz).
      destruct (Hdate k Hk Hnz) as (day & Hday & Hlo & Hhi).
      exists (Some (strftime (day + k * 30))).
      rewrite Hk. cbn [or_zero]. unfold bind, lift, ret, plus_days.
      rewrite Hday.
      apply Z.leb_le in Hlo, Hhi. rewrite Hlo, Hhi. cbn [andb].
      split; [reflexivity|]. split.
      + intros k' day' [= <-] _ [= <-]. reflexivity.
      + intros [? | [= ->]]; [discriminate | contradiction].
    - exists None. split; [reflexivity|]. split; [|reflexivity].
      apply int_truthy_false in Htruthy.
      intros k day Hk Hnz _. destruct Htruthy as [Hnone | Hzero]; congruence. }
  destruct Hnext_date as (next_date & Hrun_date & Hdate_set & Hdate_unset).
  assert (Hbound : bound [Some m; next_mileage]).
  { intros n [[= <-] | [Hn | []]]; [exact Hrange|].
    unfold next_mileage in Hn.
    destruct (int_truthy (m_interval_miles interval)) eqn:Htruthy;
      [|discriminate].
    apply int_truthy_spec in Htruthy. destruct Htruthy as (miles & Hmiles & Hnz).
    rewrite Hmiles in Hn. cbn [or_zero] in Hn. injection Hn as <-.
    now apply Hdue. }
  destruct (update_existing (mkServiceRecord d (Some m) next_date next_mileage)
              interval s Hin) as (old & Hold & Hupdate & _).
  specialize (Hupdate Hbound).
  exists (set_service_record (mkServiceRecord d (Some m) next_date next_mileage) old).
  eexists. split.
  { unfold record_service, bind at 1, lift. rewrite Hv.
    unfold bind at 1. rewrite Hd.
    unfold bind at 1, execute_query at 1. rewrite Hsel.
    unfold bind at 1. rewrite Hread.
    unfold bind at 1.
    replace (if int_truthy (m_interval_miles interval)
             then ret (Some (m + or_zero (m_interval_miles interval)))
             else ret None) with (@ret (option Z) next_mileage)
      by (unfold next_mileage; now destruct (int_truthy _)).
    unfold ret at 1. unfold bind at 1.
    unfold lift in Hrun_date. rewrite Hrun_date.
    exact Hupdate. }
  split.
  { assert (Hfound : MaintenanceService.get_by_id (m_id interval)
                       (snd (set_interval
                               (mkServiceRecord d (Some m) next_date next_mileage)
                               (m_id interval) s))
                     = Some (set_service_record
                               (mkServiceRecord d (Some m) next_date next_mileage)
                               old))
      by (now rewrite get_by_id_after_update, Hold).
    apply find_some in Hfound. tauto. }
  split.
  { unfold MaintenanceService.get_by_id in Hold. apply find_some in Hold.
    cbn [set_service_record m_id]. now apply Z.eqb_eq. }
  cbn [set_service_record m_last_performed_date m_last_performed_mileage
       m_next_due_mileage m_next_due_date last_performed_date
       last_performed_mileage next_due_date next_due_mileage].
  split; [reflexivity|]. split; [reflexivity|].
  split.
  { intros miles Hmiles Hnz. unfold next_mileage. rewrite Hmiles. simpl.
    apply Z.eqb_neq in Hnz. now rewrite Hnz. }
  split.
  { intros Hcase. apply int_truthy_false in Hcase. unfold next_mileage.
    now rewrite Hcase. }
  split.
  { intros miles Hmiles Hpos. exists (m + miles). unfold next_mileage.
    rewrite Hmiles. simpl.
    destruct (Z.eqb_spec miles 0); [lia | split; [reflexivity | lia]]. }
  split; assumption.
Qed.

Lemma record_service_next_due_witness :
  exists row s',
    record_service Demo.today Datetime.strptime Datetime.strftime
      Demo.VIN "Oil Change" None (Some 46000) Demo.store
    = (Ok (Some row), s')
    /\ m_last_performed_mileage row = Some 46000
    /\ m_next_due_mileage row = Some (46000 + 5000)
    /\ m_next_due_date row = Some "2025-05-03"%string.
Proof.
  destruct (record_service_next_due Demo.today Datetime.strptime
              Datetime.strftime Demo.VIN Demo.VIN "Oil Change" None
              (Some 46000) Demo.store
              (mkInterval 1 Demo.VIN "Oil Change" (Some 5000) (Some 6)
                 (Some "2024-01-01"%string) (Some 39000)
                 (Some "2024-06-29"%string) (Some 44000) (Some 0))
              Demo.today 46000 eq_refl eq_refl eq_refl)
    as (row & s' & Hrun & _ & _ & _ & Hlast & Hdue & _ & _ & Hdate & _).
  - left. exists 46000. split; [reflexivity|].
    split; [unfold exact_mileage; lia | reflexivity].
  - unfold in_int64, INT64_MIN, INT64_MAX. lia.
  - intros miles [= <-] _. unfold in_int64, INT64_MIN, INT64_MAX. lia.
  - intros months [= <-] _. exists 739194. split; [reflexivity|].
    unfold MINORDINAL, MAXORDINAL. lia.
  - exists row, s'. split; [exact Hrun|]. split; [exact Hlast|].
    split; [apply Hdue; [reflexivity | discriminate]|].
    apply (Hdate 6 739194); [reflexivity | discriminate | reflexivity].
Defined.

(** C7 as stated fails where interval_miles is set to 0: the service is
    recorded at 46000 miles and the next-due mileage is cleared instead
    of being 46000 + 0. *)
Lemma record_service_zero_interval :
  option_map m_interval_miles
    (select_interval Demo.VIN "State Inspection" Demo.zero_interval_store)
  = Some (Some 0)
  /\ fst (record_service Demo.today Datetime.strptime Datetime.strftime
            Demo.VIN "State Inspection" (Some "2024-03-01"%string)
            (Some 46000) Demo.zero_interval_store)
     = Ok (Some (mkInterval 1 Demo.VIN "State Inspection" (Some 0) (Some 12)
                   (Some "2024-03-01"%string) (Some 46000)
                   (Some "2025-02-24"%string) None (Some 1)))
  /\ @None Z <> Some (46000 + 0).
Proof. repeat split; discriminate. Qed.

(** Outside those ranges: a mileage that no double holds is recorded as
    the nearest double; a next-due mileage beyond 64 bits raises
    OverflowError, and so does a next-due date after 9999-12-31, and
    nothing is recorded. *)
Example record_service_out_of_range :
  fst (record_service Demo.today Datetime.strptime Datetime.strftime
         Demo.VIN "Oil Change" None (Some 9007199254740993) Demo.store)
  = Ok (Some (mkInterval 1 Demo.VIN "Oil Change" (Some 5000) (Some 6)
                (Some Demo.today) (Some 9007199254740992)
                (Some "2025-05-03"%string) (Some 9007199254745992) (Some 0)))
  /\ record_service Demo.today Datetime.strptime Datetime.strftime
       Demo.VIN "Oil Change" None (Some (INT64_MAX - 4095)) Demo.store
     = (Raise OverflowError, Demo.store)
  /\ record_service Demo.today Datetime.strptime Datetime.strftime
       Demo.VIN "Oil Change" (Some "9999-12-01"%string) (Some 46000)
       Demo.store
     = (Raise OverflowError, Demo.store).
Proof. repeat split. Qed.

(** ** Vehicle creation *)

(** What create returns does not depend on the seeding routine, and so
    not on whether it raises. *)
Lemma bind_fst_ext {A B} (m : M A) (k1 k2 : A -> M B) (s : Store) :
  (forall a s', fst (k1 a s') = fst (k2 a s')) ->
  fst (bind m k1 s) = fst (bind m k2 s).
Proof.
  intros Hk. unfold bind. destruct (m s) as [[a | e] s']; [apply Hk | reflexivity].
Qed.

Lemma create_with_ignores_seeding
    (seed1 seed2 : string -> M (list MaintenanceInterval))
    (data : VehicleData) (s : Store) :
  fst (create_with seed1 data s) = fst (create_with seed2 data s).
Proof.
  unfold create_with.
  repeat (apply bind_fst_ext; intros ? ?).
  reflexivity.
Qed.

(** A seeding routine that raises is swallowed: the vehicle is stored,
    without any interval, and create returns normally. *)
Example create_with_failing_seed :
  create_with Demo.failing_seed Demo.civic empty_store
  = (Ok None,
     mkStore [ mkVehicle 1 Demo.VIN 2020 "Honda" "Civic" (Some 0) None ]
       [] [] [] [] [] 0).
Proof. reflexivity. Qed.

(** Whatever BaseService.create reads back from vehicles is a row whose
    VIN is the decimal text of the new rowid. *)
Lemma base_create_reads_rowid (data : VehicleData) (s : Store) (row : Vehicle) :
  fst (base_create data s) = Ok (Some row) ->
  v_vin row = str_of_int (next_rowid (vehicles s)).
Proof.
  unfold base_create, bind at 1, lift.
  destruct (validate_required data); [|discriminate].
  unfold bind, VehicleService.execute_insert, bind, execute_query.
  match goal with
  | |- context [bind_ints ?params s] =>
      destruct (bind_ints_cases params s) as [[_ ->] | ->]
  end; [|discriminate].
  cbn [append_vehicle fst]. intros [= Hfound].
  unfold VehicleService.get_by_id in Hfound. apply find_some in Hfound.
  destruct Hfound as [_ Heq]. now apply String.eqb_eq in Heq.
Qed.

(** C10, at a valid new vehicle on an empty database.  create stores the
    vehicle, seeds its ten default intervals and returns normally, but
    what it returns is None, not the created row: the row is read back
    with cursor.lastrowid (here 1) as the key, and no VIN equals the
    text of a rowid.  Looking the VIN up afterwards finds the row. *)
Theorem create_returns_None :
  fst (create Demo.civic empty_store) = Ok None
  /\ VehicleService.get_by_id (SqlText Demo.VIN)
       (snd (create Demo.civic empty_store))
     = Some (mkVehicle 1 Demo.VIN 2020 "Honda" "Civic" (Some 0) None)
  /\ VehicleService.get_by_id (SqlInteger 1)
       (snd (create Demo.civic empty_store)) = None
  /\ List.length (maintenance_intervals (snd (create Demo.civic empty_store)))
     = 10%nat.
Proof. repeat split. Qed.

(** ** Failures and what they leave behind *)

Section Atomicity.

Context {A B : Type}.

Lemma read_only_all_or_nothing (m : M A) : read_only m -> all_or_nothing m.
Proof. intros Hm s e _. apply Hm. Qed.

Lemma never_raises_all_or_nothing (m : M A) :
  never_raises m -> all_or_nothing m.
Proof. intros Hm s e He. destruct (Hm s) as [a Ha]. congruence. Qed.

(** Reading first keeps a method all-or-nothing. *)
Lemma all_or_nothing_after_read (m : M A) (k : A -> M B) :
  read_only m -> (forall a, all_or_nothing (k a)) ->
  all_or_nothing (bind m k).
Proof.
  intros Hm Hk s e. unfold bind. specialize (Hm s).
  destruct (m s) as [[a | e'] s1]; cbn [snd] in Hm; subst s1.
  - apply Hk.
  - reflexivity.
Qed.

(** So does finishing with steps that cannot raise. *)
Lemma all_or_nothing_then_total (m : M A) (k : A -> M B) :
  all_or_nothing m -> (forall a, never_raises (k a)) ->
  all_or_nothing (bind m k).
Proof.
  intros Hm Hk s e. unfold bind. specialize (Hm s).
  destruct (m s) as [[a | e'] s1].
  - intros He. destruct (Hk a s1) as [b Hb]. congruence.
  - intros _. now apply (Hm e').
Qed.

Lemma never_raises_bind (m : M A) (k : A -> M B) :
  never_raises m -> (forall a, never_raises (k a)) -> never_raises (bind m k).
Proof.
  intros Hm Hk s. unfold bind. destruct (Hm s) as [a Ha].
  destruct (m s) as [[a' | e] s1]; [apply Hk | discriminate].
Qed.

Lemma read_only_lift (r : result A) : read_only (lift r).
Proof. intros s. reflexivity. Qed.

Lemma read_only_execute_query (select : Store -> A) :
  read_only (execute_query select).
Proof. intros s. reflexivity. Qed.

Lemma read_only_raise (e : Exception) : read_only (@raise A e).
Proof. intros s. reflexivity. Qed.

Lemma read_only_ret (a : A) : read_only (ret a).
Proof. intros s. reflexivity. Qed.

Lemma never_raises_ret (a : A) : never_raises (ret a).
Proof. intros s. now exists a. Qed.

Lemma never_raises_execute_query (select : Store -> A) :
  never_raises (execute_query select).
Proof. intros s. now exists (select s). Qed.

Lemma never_raises_try_pass (body : M A) : never_raises (try_pass body).
Proof. intros s. now exists tt. Qed.

Lemma read_only_bind_ints (params : list (option Z)) :
  read_only (bind_ints params).
Proof. intros s. unfold bind_ints. now destruct (forallb _ params). Qed.

Lemma all_or_nothing_unchanged (m : M A) :
  all_or_nothing m -> unchanged_on_rejection m.
Proof. intros Hm s e He _. now apply (Hm s e). Qed.

End Atomicity.

Create HintDb atomicity.
#[local] Hint Resolve read_only_lift read_only_execute_query read_only_raise
  read_only_ret never_raises_ret never_raises_execute_query
  never_raises_try_pass read_only_all_or_nothing never_raises_all_or_nothing
  read_only_bind_ints
  : atomicity.

(** A statement that writes is all-or-nothing by itself: when it
    raises, its connection rolls back. *)
Lemma append_interval_all_or_nothing (row : Z -> MaintenanceInterval) :
  all_or_nothing (append_interval row).
Proof.
  intros s e. unfold append_interval.
  destruct (next_id s); [discriminate | reflexivity].
Qed.

Lemma vehicle_insert_all_or_nothing (data : VehicleData) :
  all_or_nothing (VehicleService.execute_insert data).
Proof.
  unfold VehicleService.execute_insert.
  apply all_or_nothing_after_read; [auto with atomicity | intros _].
  apply never_raises_all_or_nothing. intros s. eexists. reflexivity.
Qed.

Lemma create_all_or_nothing (data : VehicleData) :
  all_or_nothing (create data).
Proof.
  unfold create, create_with.
  apply all_or_nothing_after_read; [auto with atomicity | intros vin].
  apply all_or_nothing_after_read.
  { destruct (_ || _); auto with atomicity. }
  intros _.
  apply all_or_nothing_after_read; [auto with atomicity | intros already].
  apply all_or_nothing_after_read.
  { destruct already; auto with atomicity. }
  intros _.
  apply all_or_nothing_after_read.
  { cbn [d_current_mileage].
    destruct (d_current_mileage data) as [[value|]|]; auto with atomicity.
    intros s. unfold bind, lift, ret.
    destruct (validate_positive_number value "Mileage"); reflexivity. }
  intros mileage.
  apply all_or_nothing_then_total.
  - unfold base_create.
    apply all_or_nothing_after_read; [auto with atomicity | intros _].
    apply all_or_nothing_then_total;
      [apply vehicle_insert_all_or_nothing | auto with atomicity].
  - intros vehicle. apply never_raises_bind; auto with atomicity.
Qed.

(** What a turn of the seeding loop can raise is what its INSERT can
    raise: OverflowError and OperationalError. *)
Lemma seed_default_raises (v : string) (cm : Z) (e : string * (Z * Z))
    (s : Store) (err : Exception) :
  fst (seed_default v cm e s) = Raise err ->
  err = OverflowError \/ err = OperationalError.
Proof.
  unfold seed_default, bind at 1, execute_query at 1.
  destruct (select_interval v (fst e) s); [discriminate|].
  unfold bind at 1, MaintenanceService.execute_insert, bind at 1.
  match goal with
  | |- context [bind_ints ?params s] =>
      destruct (bind_ints_cases params s) as [[_ ->] | ->]
  end; [|intros [= <-]; now left].
  unfold append_interval. destruct (next_id s) eqn:Hnext; [discriminate|].
  unfold next_id in Hnext. destruct (INT64_MAX <=? last_id s)%Z; [|discriminate].
  injection Hnext as <-. intros [= <-]. now right.
Qed.

Lemma for_each_seed_raises (v : string) (cm : Z) (l : list (string * (Z * Z)))
    (s : Store) (err : Exception) :
  fst (for_each l (seed_default v cm) s) = Raise err ->
  err = OverflowError \/ err = OperationalError.
Proof.
  revert s. induction l as [|e l IH]; intros s; [discriminate|].
  cbn [for_each]. unfold bind at 1.
  pose proof (seed_default_raises v cm e s) as Hturn.
  destruct (seed_default v cm e s) as [[[] | err'] s1]; cbn [fst] in *.
  - apply IH.
  - intros [= <-]. now apply Hturn.
Qed.

Lemma initialize_for_vehicle_unchanged (vin : string) :
  unchanged_on_rejection (initialize_for_vehicle vin).
Proof.
  intros s e He Hrejection.
  destruct (validate_vin vin) as [v | e'] eqn:Hv.
  - destruct (select_current_mileage v s) as [current|] eqn:Hsel.
    + exfalso. revert He.
      unfold initialize_for_vehicle, bind at 1, lift. rewrite Hv.
      unfold bind at 1, execute_query at 1. rewrite Hsel.
      unfold bind at 1.
      pose proof (for_each_seed_raises v (or_zero current) DEFAULT_INTERVALS s)
        as Hloop.
      destruct (for_each DEFAULT_INTERVALS (seed_default v (or_zero current)) s)
        as [[[] | err] s1]; cbn [fst] in *.
      * unfold get_by_vin, bind, lift, execute_query.
        rewrite (validate_vin_idempotent vin v Hv). discriminate.
      * intros [= <-].
        destruct (Hloop err eq_refl) as [-> | ->];
          destruct Hrejection as [[message [=]] | [message [=]]].
    + unfold initialize_for_vehicle, bind, lift, execute_query, raise.
      now rewrite Hv, Hsel.
  - unfold initialize_for_vehicle, bind, lift. now rewrite Hv.
Qed.

Lemma update_all_or_nothing (id_value : Z) (data : ServiceRecord) :
  all_or_nothing (MaintenanceService.update id_value data).
Proof.
  unfold MaintenanceService.update.
  apply all_or_nothing_after_read; [auto with atomicity | intros [old|]];
    [|auto with atomicity].
  apply all_or_nothing_then_total; [|auto with atomicity].
  unfold MaintenanceService.execute_update.
  apply all_or_nothing_after_read; [auto with atomicity | intros _].
  apply never_raises_all_or_nothing. intros s. eexists. reflexivity.
Qed.

Lemma record_service_all_or_nothing
    (today : string) (strptime : string -> option Z) (strftime : Z -> string)
    (vin service_type : string) (date : option string) (mileage : option Z) :
  all_or_nothing
    (record_service today strptime strftime vin service_type date mileage).
Proof.
  unfold record_service.
  apply all_or_nothing_after_read; [auto with atomicity | intros v].
  apply all_or_nothing_after_read; [auto with atomicity | intros d].
  apply all_or_nothing_after_read; [auto with atomicity | intros [interval|]];
    [|auto with atomicity].
  apply all_or_nothing_after_read; [exact (recorded_mileage_reads v mileage)|].
  intros m.
  apply all_or_nothing_after_read.
  { destruct (int_truthy _); [destruct m|]; auto with atomicity. }
  intros next_mileage.
  apply all_or_nothing_after_read.
  { destruct (int_truthy _); [|auto with atomicity].
    intros s. unfold bind, lift, ret.
    destruct (plus_days _ _ _ _); reflexivity. }
  intros next_date. apply update_all_or_nothing.
Qed.

(** C2, as the code has it.  VehicleService.create,
    MaintenanceService.initialize_for_vehicle and
    MaintenanceService.record_service leave the store as it was whenever
    they raise a ValidationError or a NotFoundError.
    VehicleService.delete does so when the VIN is malformed: it raises
    ValidationError before any statement runs.  A delete with a
    well-formed VIN that has no vehicle row raises NotFoundError only
    after the five dependent deletes have been committed: what is left
    is the store without the dependent rows of that VIN (no vehicle row
    and no row of another VIN is touched), so the tables are as they
    were exactly when no dependent row named the VIN. *)
Theorem delete_failure_effects (vin : string) (s : Store) :
  (forall data, unchanged_on_rejection (create data))
  /\ (forall vin', unchanged_on_rejection (initialize_for_vehicle vin'))
  /\ (forall today strptime strftime vin' service_type date mileage,
        unchanged_on_rejection
          (record_service today strptime strftime vin' service_type date
             mileage))
  /\ (is_ValidationError (validate_vin vin) ->
      is_ValidationError (fst (delete vin s)) /\ snd (delete vin s) = s)
  /\ (forall v, validate_vin vin = Ok v -> get_by_id (SqlText v) s = None ->
      is_NotFoundError (fst (delete vin s))
      /\ snd (delete vin s) = without_dependents v s
      /\ (snd (delete vin s) = s <-> no_dependents v s)).
Proof.
  split; [intros data; apply all_or_nothing_unchanged, create_all_or_nothing|].
  split; [exact initialize_for_vehicle_unchanged|].
  split.
  { intros. apply all_or_nothing_unchanged, record_service_all_or_nothing. }
  split.
  - intros [message Hm]. unfold delete, bind, lift. rewrite Hm. simpl.
    split; [now exists message | reflexivity].
  - intros v Hv Hnone. rewrite (delete_unfold vin v s Hv).
    unfold base_delete, bind, execute_query, raise.
    replace (get_by_id (SqlText v) (without_dependents v s))
      with (get_by_id (SqlText v) s) by reflexivity.
    rewrite Hnone. cbn [fst snd].
    split; [eexists; reflexivity|].
    split; [reflexivity | apply without_dependents_fixed].
Qed.

Lemma delete_failure_effects_witness :
  is_NotFoundError (fst (delete Demo.VIN Demo.orphan_store))
  /\ snd (delete Demo.VIN Demo.orphan_store)
     = without_dependents Demo.VIN Demo.orphan_store.
Proof.
  destruct (delete_failure_effects Demo.VIN Demo.orphan_store)
    as (_ & _ & _ & _ & H).
  destruct (H Demo.VIN eq_refl eq_refl) as (Hraise & Hstore & _).
  split; [exact Hraise | exact Hstore].
Defined.

(** C2 as stated fails: on a store whose only row is a repair for a VIN
    without vehicle row, delete raises NotFoundError and the repair is
    gone. *)
Lemma delete_missing_vehicle_changes_store :
  validate_vin Demo.VIN = Ok Demo.VIN
  /\ get_by_id (SqlText Demo.VIN) Demo.orphan_store = None
  /\ is_NotFoundError (fst (delete Demo.VIN Demo.orphan_store))
  /\ repairs Demo.orphan_store <> []
  /\ repairs (snd (delete Demo.VIN Demo.orphan_store)) = []
  /\ snd (delete Demo.VIN Demo.orphan_store) <> Demo.orphan_store.
Proof.
  repeat split; try reflexivity; try discriminate.
  eexists; reflexivity.
Qed.

(* ================================================================== *)
(** * Further properties of the services *)
(* ================================================================== *)

(** ** Upcoming maintenance *)

Lemma next_due_asc_total (a b : MaintenanceInterval) :
  next_due_asc a b = false -> next_due_asc b a = true.
Proof.
  unfold next_due_asc.
  destruct (m_next_due_mileage a), (m_next_due_mileage b); try discriminate;
    try reflexivity.
  rewrite Z.leb_gt, Z.leb_le. lia.
Qed.

Lemma next_due_asc_trans (a b c : MaintenanceInterval) :
  next_due_asc a b = true -> next_due_asc b c = true -> next_due_asc a c = true.
Proof.
  unfold next_due_asc.
  destruct (m_next_due_mileage a), (m_next_due_mileage b),
    (m_next_due_mileage c); try discriminate; try reflexivity.
  rewrite !Z.leb_le. lia.
Qed.

Lemma next_due_asc_due_no_later (a b : MaintenanceInterval) :
  next_due_asc a b = true -> due_no_later a b.
Proof.
  unfold next_due_asc, due_no_later. intros Hle x y Ha Hb.
  rewrite Ha, Hb in Hle. now apply Z.leb_le.
Qed.

(** X1.  For a well-formed VIN and a limit from 0 to the largest
    64-bit integer, get_upcoming reads the store and returns [limit]
    intervals of the vehicle (all of those with a next-due mileage when
    they are fewer), each with a next-due mileage, in ascending
    next-due order; an interval of the vehicle with a next-due mileage
    that is left out is due no earlier than every one returned. *)
Theorem get_upcoming_soonest (vin v : string) (limit : Z) (s : Store) :
  validate_vin vin = Ok v ->
  0 <= limit <= INT64_MAX ->
  exists rows,
    MaintenanceService.get_upcoming vin limit s = (Ok rows, s)
    /\ List.length rows
       = Nat.min (Z.to_nat limit)
           (List.length
              (filter (fun m => String.eqb (m_vin m) v && has_next_due m)
                      (maintenance_intervals s)))
    /\ (forall m, In m rows ->
          In m (maintenance_intervals s) /\ m_vin m = v
          /\ m_next_due_mileage m <> None)
    /\ StronglySorted due_no_later rows
    /\ (forall m, In m (maintenance_intervals s) -> m_vin m = v ->
          m_next_due_mileage m <> None ->
          In m rows \/ forall kept, In kept rows -> due_no_later kept m).
Proof.
  intros Hv Hlimit.
  unfold MaintenanceService.get_upcoming, bind at 1, lift.
  rewrite Hv. unfold bind at 1.
  rewrite bind_ints_run
    by (intros n [[= <-] | []]; unfold in_int64, INT64_MIN; lia).
  unfold execute_query.
  set (candidates := filter (fun m => String.eqb (m_vin m) v && has_next_due m)
                            (maintenance_intervals s)).
  assert (Hcand : forall m, In m candidates <->
                    In m (maintenance_intervals s) /\ m_vin m = v
                    /\ m_next_due_mileage m <> None).
  { intros m. unfold candidates.
    rewrite filter_In, andb_true_iff, String.eqb_eq. unfold has_next_due.
    destruct (m_next_due_mileage m); intuition congruence. }
  assert (Hsorted : StronglySorted (fun a b => next_due_asc a b = true)
                      (order_by next_due_asc candidates))
    by (apply order_by_sorted;
        [exact next_due_asc_total | exact next_due_asc_trans]).
  eexists. split; [reflexivity|].
  split; [rewrite sql_limit_length by lia; now rewrite order_by_length|].
  split.
  { intros m Hm. apply sql_limit_In, order_by_In in Hm. now apply Hcand. }
  split.
  { eapply StronglySorted_impl; [exact next_due_asc_due_no_later|].
    now apply sql_limit_sorted. }
  intros m Hin Hvin Hdue.
  destruct (sql_limit_keeps_first next_due_asc limit _ Hsorted)
    as (dropped & Hsplit & Hlate).
  assert (Hm : In m (order_by next_due_asc candidates))
    by (apply order_by_In, Hcand; auto).
  rewrite Hsplit in Hm. apply in_app_or in Hm.
  destruct Hm as [Hkept | Hdropped]; [now left | right].
  intros kept Hk. apply next_due_asc_due_no_later. now apply Hlate.
Qed.

Lemma get_upcoming_soonest_witness :
  exists rows,
    MaintenanceService.get_upcoming Demo.VIN 1 Demo.store = (Ok rows, Demo.store)
    /\ List.length rows = 1%nat.
Proof.
  destruct (get_upcoming_soonest Demo.VIN Demo.VIN 1 Demo.store eq_refl)
    as (rows & Hrun & Hlen & _); [unfold INT64_MAX; lia|].
  exists rows. split; [exact Hrun | exact Hlen].
Defined.

(** ** The maintenance schedule *)

Lemma get_maintenance_schedule_run (vin v : string) (s : Store) :
  validate_vin vin = Ok v ->
  let current :=
    match select_current_mileage v s with
    | Some current => current
    | None => Some 0
    end in
  MaintenanceService.get_maintenance_schedule vin s
  = (Ok (mkSchedule v current
           (map (schedule_item current)
              (order_by next_due_asc_nulls_last
                 (filter (fun m => String.eqb (m_vin m) v)
                         (maintenance_intervals s))))), s).
Proof.
  intros Hv current.
  unfold MaintenanceService.get_maintenance_schedule,
    MaintenanceService.get_by_vin, bind, lift, execute_query, ret.
  now rewrite Hv, (validate_vin_idempotent vin v Hv).
Qed.

Lemma schedule_item_interval (current : option Z) (l : list MaintenanceInterval) :
  map item_interval (map (schedule_item current) l) = l.
Proof.
  induction l as [|m l IH]; [reflexivity|]. cbn [map]. rewrite IH. f_equal.
  unfold schedule_item.
  destruct (m_next_due_mileage m); [destruct (int_truthy current)|]; reflexivity.
Qed.

Lemma schedule_item_status (current : option Z) (m : MaintenanceInterval) :
  (status (schedule_item current m) = unknown <->
   m_next_due_mileage m = None \/ current = None \/ current = Some 0)
  /\ (forall due c,
        m_next_due_mileage m = Some due -> current = Some c -> c <> 0 ->
        miles_until_due (schedule_item current m) = Some (due - c)
        /\ (status (schedule_item current m) = overdue <-> due < c)
        /\ (status (schedule_item current m) = due_soon <-> c <= due < c + 500)
        /\ (status (schedule_item current m) = ok <-> c + 500 <= due)).
Proof.
  unfold schedule_item.
  destruct (m_next_due_mileage m) as [due|].
  - destruct (int_truthy current) eqn:Htruthy.
    + apply int_truthy_spec in Htruthy. destruct Htruthy as (c & -> & Hc).
      cbn [or_zero status miles_until_due]. split.
      * split.
        -- destruct (due - c <? 0)%Z; [discriminate|].
           destruct (due - c <? 500)%Z; discriminate.
        -- intros [? | [? | [= ?]]]; try discriminate. contradiction.
      * intros due' c' [= <-] [= <-] _. split; [reflexivity|].
        destruct (Z.ltb_spec (due - c) 0); [|destruct (Z.ltb_spec (due - c) 500)];
          repeat split; intros; try discriminate; try reflexivity; lia.
    + apply int_truthy_false in Htruthy. cbn [status]. split.
      * split; [auto | reflexivity].
      * intros due' c [= <-] Hc Hnz. destruct Htruthy; congruence.
  - cbn [status]. split.
    + split; [auto | reflexivity].
    + intros due c [=].
Qed.

(** X2.  For a well-formed VIN, get_maintenance_schedule reads the store
    and lists the vehicle's intervals in the order of get_by_vin, one
    item each.  An item is unknown exactly when its next-due mileage is
    NULL or the current mileage is NULL or 0 (0 also stands for a
    vehicle that is absent); otherwise miles_until_due is next-due minus
    current mileage and the status is overdue below 0, due_soon from 0
    to 499 and ok from 500 on. *)
Theorem get_maintenance_schedule_statuses (vin v : string) (s : Store) :
  validate_vin vin = Ok v ->
  exists schedule,
    MaintenanceService.get_maintenance_schedule vin s = (Ok schedule, s)
    /\ schedule_vin schedule = v
    /\ schedule_current_mileage schedule
       = match select_current_mileage v s with
         | Some current => current
         | None => Some 0
         end
    /\ fst (MaintenanceService.get_by_vin vin s)
       = Ok (map item_interval (schedule_intervals schedule))
    /\ forall item, In item (schedule_intervals schedule) ->
         (status item = unknown <->
          m_next_due_mileage (item_interval item) = None
          \/ schedule_current_mileage schedule = None
          \/ schedule_current_mileage schedule = Some 0)
         /\ (forall due c,
               m_next_due_mileage (item_interval item) = Some due ->
               schedule_current_mileage schedule = Some c -> c <> 0 ->
               miles_until_due item = Some (due - c)
               /\ (status item = overdue <-> due < c)
               /\ (status item = due_soon <-> c <= due < c + 500)
               /\ (status item = ok <-> c + 500 <= due)).
Proof.
  intros Hv. pose proof (get_maintenance_schedule_run vin v s Hv) as Hrun.
  cbv zeta in Hrun. eexists. split; [exact Hrun|].
  cbn [schedule_vin schedule_current_mileage schedule_intervals].
  split; [reflexivity|]. split; [reflexivity|].
  split.
  { unfold MaintenanceService.get_by_vin, bind, lift, execute_query.
    rewrite Hv. cbn [fst]. now rewrite schedule_item_interval. }
  intros item Hitem. apply in_map_iff in Hitem.
  destruct Hitem as (m & <- & _).
  replace (item_interval (schedule_item _ m)) with m.
  - apply schedule_item_status.
  - unfold schedule_item.
    destruct (m_next_due_mileage m); [destruct (int_truthy _)|]; reflexivity.
Qed.

Lemma get_maintenance_schedule_statuses_witness :
  exists schedule,
    MaintenanceService.get_maintenance_schedule Demo.VIN Demo.store
    = (Ok schedule, Demo.store)
    /\ schedule_vin schedule = Demo.VIN.
Proof.
  destruct (get_maintenance_schedule_statuses Demo.VIN Demo.VIN Demo.store
              eq_refl) as (schedule & Hrun & Hvin & _).
  exists schedule. split; [exact Hrun | exact Hvin].
Defined.

Example get_maintenance_schedule_demo :
  option_map (fun schedule =>
                map (fun item => (m_service_type (item_interval item),
                                  miles_until_due item, status item))
                    (schedule_intervals schedule))
    (match fst (MaintenanceService.get_maintenance_schedule Demo.VIN Demo.store)
     with Ok schedule => Some schedule | Raise _ => None end)
  = Some [ ("Oil Change"%string, Some (-1000), overdue);
           ("Tire Rotation"%string, Some 5000, ok) ].
Proof. reflexivity. Qed.

(** X3.  The schedule and get_overdue agree: for a well-formed VIN, the
    intervals that the schedule marks overdue are exactly the intervals
    that get_overdue returns. *)
Theorem schedule_overdue_is_get_overdue (vin v : string) (s : Store) :
  validate_vin vin = Ok v ->
  exists schedule rows,
    fst (MaintenanceService.get_maintenance_schedule vin s) = Ok schedule
    /\ fst (MaintenanceService.get_overdue vin s) = Ok rows
    /\ forall m,
         In m rows <->
         exists item, In item (schedule_intervals schedule)
                      /\ item_interval item = m /\ status item = overdue.
Proof.
  intros Hv. rewrite (get_maintenance_schedule_run vin v s Hv).
  unfold MaintenanceService.get_overdue, bind, lift, execute_query, ret.
  rewrite Hv. cbn [fst schedule_intervals].
  set (listed := order_by next_due_asc_nulls_last
                   (filter (fun m => String.eqb (m_vin m) v)
                           (maintenance_intervals s))).
  assert (Hlisted : forall m, In m listed <->
                      In m (maintenance_intervals s) /\ m_vin m = v).
  { intros m. unfold listed.
    now rewrite order_by_In, filter_In, String.eqb_eq. }
  assert (Hitems : forall current m,
            (exists item, In item (map (schedule_item current) listed)
                          /\ item_interval item = m /\ status item = overdue)
            <-> In m listed /\ status (schedule_item current m) = overdue).
  { intros current m. split.
    - intros (item & Hin & Hm & Hst). apply in_map_iff in Hin.
      destruct Hin as (m' & <- & Hin').
      assert (Heq : item_interval (schedule_item current m') = m')
        by (unfold schedule_item;
            destruct (m_next_due_mileage m'); [destruct (int_truthy _)|];
            reflexivity).
      rewrite Heq in Hm. subst m'. auto.
    - intros [Hin Hst]. exists (schedule_item current m).
      split; [now apply in_map|]. split; [|exact Hst].
      unfold schedule_item.
      destruct (m_next_due_mileage m); [destruct (int_truthy _)|]; reflexivity. }
  destruct (select_current_mileage v s) as [[current|]|] eqn:Hsel.
  - destruct (Z.eqb_spec current 0) as [-> | Hnz]; cbn [int_truthy negb Z.eqb].
    + eexists. exists []. split; [reflexivity|]. split; [reflexivity|].
      intros m. cbn [schedule_intervals]. rewrite Hitems. split; [intros []|].
      intros [_ Hst].
      assert (Hunknown : status (schedule_item (Some 0) m) = unknown)
        by (apply schedule_item_status; auto).
      congruence.
    + apply Z.eqb_neq in Hnz. rewrite ?Hnz. cbn [negb or_zero].
      apply Z.eqb_neq in Hnz.
      eexists. eexists. split; [reflexivity|]. split; [reflexivity|].
      intros m. cbn [schedule_intervals].
      rewrite Hitems, order_by_In, filter_vin_overdue, Hlisted.
      split.
      * intros (Hin & Hvin & due & Hdue & Hlt). split; [auto|].
        destruct (schedule_item_status (Some current) m) as [_ Hcase].
        destruct (Hcase due current Hdue eq_refl Hnz) as (_ & Hover & _).
        now apply Hover.
      * intros [[Hin Hvin] Hst]. repeat split; auto.
        destruct (m_next_due_mileage m) as [due|] eqn:Hdue.
        -- exists due. split; [reflexivity|].
           destruct (schedule_item_status (Some current) m) as [_ Hcase].
           destruct (Hcase due current Hdue eq_refl Hnz) as (_ & Hover & _).
           now apply Hover.
        -- unfold schedule_item in Hst. rewrite Hdue in Hst. discriminate.
  - eexists. exists []. split; [reflexivity|]. split; [reflexivity|].
    intros m. cbn [schedule_intervals]. rewrite Hitems.
    split; [intros []|]. intros [_ Hst].
    assert (Hunknown : status (schedule_item None m) = unknown)
      by (apply schedule_item_status; auto).
    congruence.
  - eexists. exists []. split; [reflexivity|]. split; [reflexivity|].
    intros m. cbn [schedule_intervals]. rewrite Hitems.
    split; [intros []|]. intros [_ Hst].
    assert (Hunknown : status (schedule_item (Some 0) m) = unknown)
      by (apply schedule_item_status; auto).
    congruence.
Qed.

Lemma schedule_overdue_is_get_overdue_witness :
  exists schedule rows,
    fst (MaintenanceService.get_maintenance_schedule Demo.VIN Demo.store)
    = Ok schedule
    /\ fst (MaintenanceService.get_overdue Demo.VIN Demo.store) = Ok rows.
Proof.
  destruct (schedule_overdue_is_get_overdue Demo.VIN Demo.VIN Demo.store
              eq_refl) as (schedule & rows & Hs & Hr & _).
  exists schedule, rows. split; [exact Hs | exact Hr].
Defined.

(** ** Creating an interval *)

Lemma max_id_bound (l : list MaintenanceInterval) (m : MaintenanceInterval) :
  In m l -> m_id m <= max_id l.
Proof.
  intros Hin. unfold max_id.
  apply (proj2 (fold_left_max (map m_id l) 0)).
  right. now apply in_map.
Qed.

Lemma new_id_fresh (s : Store) (m : MaintenanceInterval) :
  In m (maintenance_intervals s) -> m_id m < last_id s + 1.
Proof. intros Hin. apply max_id_bound in Hin. unfold last_id. lia. Qed.

Lemma find_fresh_id (l : list MaintenanceInterval) (row : MaintenanceInterval) :
  (forall m, In m l -> m_id m < m_id row) ->
  find (fun m => (m_id m =? m_id row)%Z) (l ++ [row]) = Some row.
Proof.
  intros Hfresh. rewrite find_snoc.
  replace (find (fun m => (m_id m =? m_id row)%Z) l) with (@None MaintenanceInterval).
  - now rewrite Z.eqb_refl.
  - symmetry. apply find_none_filter.
    induction l as [|m l IH]; [reflexivity|]. simpl.
    destruct (Z.eqb_spec (m_id m) (m_id row)) as [Heq | _].
    + specialize (Hfresh m (or_introl eq_refl)). lia.
    + apply IH. intros m' Hm'. apply Hfresh. now right.
Qed.

Lemma last_id_nonnegative (s : Store) : 0 <= last_id s.
Proof.
  unfold last_id, max_id.
  pose proof (proj2 (fold_left_max (map m_id (maintenance_intervals s)) 0) 0
                (or_introl eq_refl)).
  lia.
Qed.

(** The INSERT of a creation: it raises and leaves the store as it
    was, or its ints are in range and an id is left. *)
Lemma insert_interval_cases (data : IntervalData) (s : Store) :
  (exists e, MaintenanceService.insert_interval data s = (Raise e, s)
             /\ (e = OverflowError \/ e = OperationalError))
  \/ (bound (interval_ints data) /\ id_room 1 s).
Proof.
  unfold MaintenanceService.insert_interval, bind.
  destruct (bind_ints_cases (interval_ints data) s) as [[Hbound ->] | ->];
    [|left; eexists; split; [reflexivity | now left]].
  unfold append_interval, next_id.
  destruct (Z.leb_spec INT64_MAX (last_id s)) as [Hfull | Hroom];
    [left; eexists; split; [reflexivity | now right] | right].
  split; [exact Hbound | unfold id_room; lia].
Qed.

(** BaseService.create on maintenance_intervals reads back the row that
    it has just inserted. *)
Lemma maintenance_base_create_run (data : IntervalData) (s : Store) :
  i_vin data <> None -> i_service_type data <> None ->
  bound (interval_ints data) -> id_room 1 s ->
  exists row,
    MaintenanceService.base_create data s
    = (Ok (Some row),
       mkStore (vehicles s) (repairs s) (fuel_logs s)
         (maintenance_intervals s ++ [row])
         (mileage_history s) (trips s) (m_id row))
    /\ (forall m, In m (maintenance_intervals s) -> m_id m < m_id row)
    /\ seq_maintenance_intervals s < m_id row
    /\ i_vin data = Some (m_vin row)
    /\ i_service_type data = Some (m_service_type row)
    /\ m_interval_miles row
       = match i_interval_miles data with Some given => given | None => None end
    /\ m_interval_months row = i_interval_months data
    /\ m_last_performed_date row = i_last_performed_date data
    /\ m_last_performed_mileage row = i_last_performed_mileage data
    /\ m_next_due_date row = i_next_due_date data
    /\ m_next_due_mileage row = i_next_due_mileage data
    /\ m_is_custom row
       = match i_is_custom data with Some given => given | None => Some 0 end
    /\ m_id row = last_id s + 1.
Proof.
  intros Hvin Htype Hbound Hroom.
  destruct (i_vin data) as [vin|] eqn:Evin; [|congruence].
  destruct (i_service_type data) as [service_type|] eqn:Etype; [|congruence].
  set (new_id := last_id s + 1).
  set (row := mkInterval new_id vin service_type
                (match i_interval_miles data with
                 | Some given => given
                 | None => None
                 end)
                (i_interval_months data) (i_last_performed_date data)
                (i_last_performed_mileage data) (i_next_due_date data)
                (i_next_due_mileage data)
                (match i_is_custom data with
                 | Some given => given
                 | None => Some 0
                 end)).
  assert (Hfresh : forall m, In m (maintenance_intervals s) -> m_id m < m_id row)
    by (intros m Hm; change (m_id row) with new_id; now apply new_id_fresh).
  assert (Hinsert : MaintenanceService.insert_interval data s
                    = (Ok new_id,
                       mkStore (vehicles s) (repairs s) (fuel_logs s)
                         (maintenance_intervals s ++ [row])
                         (mileage_history s) (trips s) new_id)).
  { unfold MaintenanceService.insert_interval, bind.
    rewrite (bind_ints_run _ s Hbound).
    unfold append_interval, next_id. unfold id_room in Hroom.
    destruct (Z.leb_spec INT64_MAX (last_id s)); [lia|].
    rewrite Evin, Etype. reflexivity. }
  exists row. split.
  - unfold MaintenanceService.base_create, bind at 1, lift,
      MaintenanceService.validate_required.
    rewrite Evin, Etype. cbn [app]. unfold bind. rewrite Hinsert.
    unfold execute_query, MaintenanceService.get_by_id.
    cbn [maintenance_intervals].
    change new_id with (m_id row).
    now rewrite (find_fresh_id (maintenance_intervals s) row Hfresh).
  - split; [exact Hfresh|].
    split; [change (m_id row) with new_id; unfold new_id, last_id; lia|].
    repeat split.
Qed.

Lemma str_truthy_spec (x : string) : str_truthy x = true <-> x <> EmptyString.
Proof. destruct x; simpl; split; congruence. Qed.

(** What MaintenanceService.create does once its checks have passed. *)
Lemma maintenance_create_row (data : IntervalData) (s : Store)
    (v service_type : string) (current : option Z) :
  validate_vin (match i_vin data with Some x => x | None => EmptyString end)
  = Ok v ->
  i_service_type data = Some service_type ->
  service_type <> EmptyString ->
  select_current_mileage v s = Some current ->
  select_interval v service_type s = None ->
  bound (interval_ints (completed data v service_type current)) ->
  id_room 1 s ->
  exists row,
    MaintenanceService.create data s
    = (Ok (Some row),
       mkStore (vehicles s) (repairs s) (fuel_logs s)
         (maintenance_intervals s ++ [row])
         (mileage_history s) (trips s) (m_id row))
    /\ (forall m, In m (maintenance_intervals s) -> m_id m < m_id row)
    /\ m_vin row = v
    /\ m_service_type row = service_type
    /\ (m_interval_miles row, m_interval_months row)
       = match i_interval_miles data, default_interval service_type with
         | None, Some (miles, months) => (Some miles, Some months)
         | Some given, _ => (given, i_interval_months data)
         | None, None => (None, i_interval_months data)
         end
    /\ m_next_due_mileage row
       = (if int_truthy (m_interval_miles row)
             && negb (int_truthy (i_next_due_mileage data))
          then Some (or_zero current + or_zero (m_interval_miles row))
          else i_next_due_mileage data)
    /\ m_last_performed_date row = i_last_performed_date data
    /\ m_last_performed_mileage row = i_last_performed_mileage data
    /\ m_next_due_date row = i_next_due_date data
    /\ m_is_custom row
       = match i_is_custom data with Some given => given | None => Some 0 end
    /\ m_id row = last_id s + 1.
Proof.
  intros Hv Htype Hnonempty Hvehicle Hnone Hbound Hroom.
  apply str_truthy_spec in Hnonempty.
  unfold MaintenanceService.create, bind at 1, lift. rewrite Hv.
  rewrite Htype, Hnonempty. cbn [negb].
  unfold bind at 1, ret at 1.
  unfold bind at 1, execute_query at 1. rewrite Hvehicle.
  unfold bind at 1, execute_query at 1. rewrite Hnone.
  destruct (maintenance_base_create_run
              (completed data v service_type current) s)
    as (row & Hrun & Hfresh & _ & Hvin & Hst & Hmiles & Hmonths & Hdate
        & Hmileage & Hnextdate & Hnext & Hcustom & Hid);
    [discriminate | discriminate | exact Hbound | exact Hroom |].
  unfold completed in Hvin, Hst, Hmiles, Hmonths, Hdate, Hmileage,
    Hnextdate, Hnext, Hcustom.
  cbn [i_vin i_service_type i_interval_miles i_interval_months
       i_last_performed_date i_last_performed_mileage i_next_due_date
       i_next_due_mileage i_is_custom] in *.
  exists row. split; [exact Hrun|]. split; [exact Hfresh|].
  split; [congruence|]. split; [congruence|].
  split.
  { rewrite Hmiles, Hmonths.
    destruct (i_interval_miles data) as [given|];
      [reflexivity | destruct (default_interval service_type) as [[mi mo]|];
                     reflexivity]. }
  split.
  { rewrite Hnext, Hmiles.
    destruct (i_interval_miles data) as [given|];
      [reflexivity | destruct (default_interval service_type) as [[mi mo]|];
                     reflexivity]. }
  repeat split; assumption.
Qed.

Lemma insert_interval_all_or_nothing (data : IntervalData) :
  all_or_nothing (MaintenanceService.insert_interval data).
Proof.
  unfold MaintenanceService.insert_interval.
  apply all_or_nothing_after_read; [auto with atomicity | intros _].
  apply append_interval_all_or_nothing.
Qed.

Lemma maintenance_base_create_all_or_nothing (data : IntervalData) :
  all_or_nothing (MaintenanceService.base_create data).
Proof.
  unfold MaintenanceService.base_create.
  apply all_or_nothing_after_read; [auto with atomicity | intros _].
  apply all_or_nothing_then_total;
    [apply insert_interval_all_or_nothing | auto with atomicity].
Qed.

Lemma maintenance_create_all_or_nothing (data : IntervalData) :
  all_or_nothing (MaintenanceService.create data).
Proof.
  unfold MaintenanceService.create.
  apply all_or_nothing_after_read; [auto with atomicity | intros vin].
  apply all_or_nothing_after_read.
  { destruct (negb _); auto with atomicity. }
  intros _.
  apply all_or_nothing_after_read; [auto with atomicity | intros [current|]];
    [|auto with atomicity].
  apply all_or_nothing_after_read; [auto with atomicity | intros [existing|]];
    [auto with atomicity|].
  apply maintenance_base_create_all_or_nothing.
Qed.

Lemma maintenance_create_duplicate (data : IntervalData) (s : Store)
    (v service_type : string) :
  validate_vin (match i_vin data with Some x => x | None => EmptyString end)
  = Ok v ->
  i_service_type data = Some service_type ->
  service_type <> EmptyString ->
  select_current_mileage v s <> None ->
  select_interval v service_type s <> None ->
  MaintenanceService.create data s
  = (Raise (ValidationError
              ("Maintenance interval for '" ++ service_type
               ++ "' already exists")%string), s).
Proof.
  intros Hv Htype Hnonempty Hvehicle Hexisting.
  apply str_truthy_spec in Hnonempty.
  destruct (select_current_mileage v s) as [current|] eqn:Ecur; [|congruence].
  destruct (select_interval v service_type s) as [existing|] eqn:Eint;
    [|congruence].
  unfold MaintenanceService.create, bind at 1, lift. rewrite Hv.
  rewrite Htype, Hnonempty. cbn [negb].
  unfold bind at 1, ret at 1.
  unfold bind at 1, execute_query at 1. rewrite Ecur.
  unfold bind at 1, execute_query at 1. now rewrite Eint.
Qed.

(** X4.  MaintenanceService.create refuses, in this order: a malformed
    VIN and a missing or empty service type (ValidationError), a VIN
    without vehicle row (NotFoundError), and a service type that the
    vehicle already has (ValidationError).  Whenever it raises, the
    store is as it was. *)
Theorem maintenance_create_rejections (data : IntervalData) (s : Store) :
  all_or_nothing (MaintenanceService.create data)
  /\ (forall e,
        validate_vin (match i_vin data with Some x => x | None => EmptyString end)
        = Raise e ->
        fst (MaintenanceService.create data s) = Raise e)
  /\ (forall v,
        validate_vin (match i_vin data with Some x => x | None => EmptyString end)
        = Ok v ->
        (i_service_type data = None \/ i_service_type data = Some EmptyString ->
         fst (MaintenanceService.create data s)
         = Raise (ValidationError "Service type is required"))
        /\ (forall service_type,
              i_service_type data = Some service_type ->
              service_type <> EmptyString ->
              (select_current_mileage v s = None ->
               fst (MaintenanceService.create data s)
               = Raise (NotFoundError
                          ("Vehicle with VIN " ++ v ++ " not found")%string))
              /\ (select_current_mileage v s <> None ->
                  select_interval v service_type s <> None ->
                  fst (MaintenanceService.create data s)
                  = Raise (ValidationError
                             ("Maintenance interval for '" ++ service_type
                              ++ "' already exists")%string)))).
Proof.
  split; [apply maintenance_create_all_or_nothing|].
  split.
  { intros e He. unfold MaintenanceService.create, bind, lift. now rewrite He. }
  intros v Hv. split.
  - intros Hmissing.
    unfold MaintenanceService.create, bind at 1, lift. rewrite Hv.
    unfold bind at 1.
    now destruct Hmissing as [-> | ->].
  - intros service_type Htype Hnonempty. apply str_truthy_spec in Hnonempty.
    split.
    + intros Hvehicle.
      unfold MaintenanceService.create, bind at 1, lift. rewrite Hv.
      rewrite Htype, Hnonempty. cbn [negb].
      unfold bind at 1, ret at 1.
      unfold bind at 1, execute_query at 1. now rewrite Hvehicle.
    + intros Hvehicle Hexisting. apply str_truthy_spec in Hnonempty.
      now rewrite (maintenance_create_duplicate data s v service_type).
Qed.

Lemma maintenance_create_rejections_witness :
  fst (MaintenanceService.create
         (mkIntervalData (Some Demo.VIN) (Some "Oil Change"%string) None None
            None None None None None) Demo.store)
  = Raise (ValidationError
             "Maintenance interval for 'Oil Change' already exists").
Proof.
  destruct (maintenance_create_rejections
              (mkIntervalData (Some Demo.VIN) (Some "Oil Change"%string) None
                 None None None None None None) Demo.store)
    as (_ & _ & H).
  destruct (H Demo.VIN eq_refl) as [_ H'].
  destruct (H' "Oil Change"%string eq_refl) as [_ Hdup]; [discriminate|].
  apply Hdup; discriminate.
Defined.

Lemma select_interval_snoc (v service_type : string) (s : Store)
    (row : MaintenanceInterval) (l : list MaintenanceInterval) :
  maintenance_intervals s = l ++ [row] ->
  find (fun m => String.eqb (m_vin m) v
                 && String.eqb (m_service_type m) service_type) l = None ->
  m_vin row = v -> m_service_type row = service_type ->
  select_interval v service_type s = Some row.
Proof.
  intros Hs Hnone Hvin Htype. unfold select_interval.
  rewrite Hs, find_snoc, Hnone, Hvin, Htype, !String.eqb_refl. reflexivity.
Qed.

(** X5.  Once its checks pass (well-formed VIN, non-empty service type,
    vehicle present, no interval of that type yet), with the ints of
    the row to insert in the 64-bit range and an id left,
    MaintenanceService.create appends one row and returns it: the row
    carries the validated VIN and the service type, its id is above
    every id in the table, no other table changes, and both the lookup
    by id and the lookup by vehicle and service type now find this very
    row.  Creating the same interval again is refused and changes
    nothing. *)
Theorem maintenance_create_lookup (data : IntervalData) (s : Store)
    (v service_type : string) (current : option Z) :
  validate_vin (match i_vin data with Some x => x | None => EmptyString end)
  = Ok v ->
  i_service_type data = Some service_type ->
  service_type <> EmptyString ->
  select_current_mileage v s = Some current ->
  select_interval v service_type s = None ->
  bound (interval_ints (completed data v service_type current)) ->
  id_room 1 s ->
  exists row s',
    MaintenanceService.create data s = (Ok (Some row), s')
    /\ maintenance_intervals s' = maintenance_intervals s ++ [row]
    /\ same_other_tables s s'
    /\ m_vin row = v /\ m_service_type row = service_type
    /\ (forall m, In m (maintenance_intervals s) -> m_id m < m_id row)
    /\ MaintenanceService.get_by_id (m_id row) s' = Some row
    /\ select_interval v service_type s' = Some row
    /\ is_ValidationError (fst (MaintenanceService.create data s'))
    /\ snd (MaintenanceService.create data s') = s'.
Proof.
  intros Hv Htype Hnonempty Hvehicle Hnone Hbound Hroom.
  destruct (maintenance_create_row data s v service_type current
              Hv Htype Hnonempty Hvehicle Hnone Hbound Hroom)
    as (row & Hrun & Hfresh & Hvin & Hst & _).
  eexists row, _. split; [exact Hrun|].
  cbn [maintenance_intervals].
  split; [reflexivity|]. split; [repeat split|].
  split; [exact Hvin|]. split; [exact Hst|]. split; [exact Hfresh|].
  split.
  { unfold MaintenanceService.get_by_id. cbn [maintenance_intervals].
    now apply find_fresh_id. }
  assert (Hfound : select_interval v service_type
                     (mkStore (vehicles s) (repairs s) (fuel_logs s)
                        (maintenance_intervals s ++ [row])
                        (mileage_history s) (trips s) (m_id row)) = Some row)
    by (apply (select_interval_snoc v service_type _ row
                 (maintenance_intervals s));
        [reflexivity | exact Hnone | exact Hvin | exact Hst]).
  split; [exact Hfound|].
  rewrite (maintenance_create_duplicate data _ v service_type Hv Htype
             Hnonempty).
  - split; [eexists; reflexivity | reflexivity].
  - unfold select_current_mileage in *. cbn [vehicles]. rewrite Hvehicle.
    discriminate.
  - rewrite Hfound. discriminate.
Qed.

Lemma maintenance_create_lookup_witness :
  exists row s',
    MaintenanceService.create
      (mkIntervalData (Some Demo.VIN) (Some "Brake Fluid"%string) None None
         None None None None None) Demo.store
    = (Ok (Some row), s')
    /\ select_interval Demo.VIN "Brake Fluid" s' = Some row.
Proof.
  destruct (maintenance_create_lookup
              (mkIntervalData (Some Demo.VIN) (Some "Brake Fluid"%string) None
                 None None None None None None)
              Demo.store Demo.VIN "Brake Fluid"%string (Some 45000)
              eq_refl eq_refl)
    as (row & s' & Hrun & _ & _ & _ & _ & _ & _ & Hfound & _);
    [discriminate | reflexivity | reflexivity | | |].
  - bound_by_computation.
  - unfold id_room. vm_compute. discriminate.
  - exists row, s'. split; [exact Hrun | exact Hfound].
Defined.

Lemma default_interval_In (service_type : string) (miles months : Z) :
  In (service_type, (miles, months)) DEFAULT_INTERVALS ->
  default_interval service_type = Some (miles, months)
  /\ miles <> 0 /\ service_type <> EmptyString.
Proof.
  unfold DEFAULT_INTERVALS. intros H.
  repeat (destruct H as [[= <- <- <-] | H];
          [repeat split; discriminate|]).
  destruct H.
Qed.

(** X6.  When the request names one of the default service types and
    carries no interval_miles key (and the ints of the row to insert
    are in the 64-bit range, with an id left), MaintenanceService.create
    takes both the miles and the months from the default table (a
    months value in the request is overwritten), and sets the next-due
    mileage to the vehicle's current mileage plus the default miles
    unless the request gives a next-due mileage other than 0.  A request that carries
    nothing but the VIN and the service type creates exactly the row
    that initialize_for_vehicle would have seeded. *)
Theorem maintenance_create_inherits_defaults (data : IntervalData) (s : Store)
    (v service_type : string) (current : option Z) (miles months : Z) :
  validate_vin (match i_vin data with Some x => x | None => EmptyString end)
  = Ok v ->
  i_service_type data = Some service_type ->
  In (service_type, (miles, months)) DEFAULT_INTERVALS ->
  select_current_mileage v s = Some current ->
  select_interval v service_type s = None ->
  i_interval_miles data = None ->
  bound (interval_ints (completed data v service_type current)) ->
  id_room 1 s ->
  exists row s',
    MaintenanceService.create data s = (Ok (Some row), s')
    /\ m_interval_miles row = Some miles
    /\ m_interval_months row = Some months
    /\ (i_next_due_mileage data = None \/ i_next_due_mileage data = Some 0 ->
        m_next_due_mileage row = Some (or_zero current + miles))
    /\ (forall given, i_next_due_mileage data = Some given -> given <> 0 ->
        m_next_due_mileage row = Some given)
    /\ (i_last_performed_date data = None ->
        i_last_performed_mileage data = None ->
        i_next_due_date data = None ->
        i_next_due_mileage data = None ->
        i_is_custom data = None ->
        row = seeded_row (m_id row) v service_type (or_zero current)
                miles months).
Proof.
  intros Hv Htype Hdefault Hvehicle Hnone Habsent Hbound Hroom.
  destruct (default_interval_In _ _ _ Hdefault) as (Hlookup & Hmiles & Hname).
  destruct (maintenance_create_row data s v service_type current
              Hv Htype Hname Hvehicle Hnone Hbound Hroom)
    as (row & Hrun & _ & Hvin & Hst & Hpair & Hnext & Hdate & Hmileage
        & Hnextdate & Hcustom & _).
  rewrite Habsent, Hlookup in Hpair. injection Hpair as Hmi Hmo.
  rewrite Hmi in Hnext. cbn [int_truthy or_zero] in Hnext.
  apply Z.eqb_neq in Hmiles. rewrite Hmiles in Hnext. cbn [negb andb] in Hnext.
  eexists row, _. split; [exact Hrun|].
  split; [exact Hmi|]. split; [exact Hmo|].
  split.
  { intros Hcase. apply int_truthy_false in Hcase. now rewrite Hcase in Hnext. }
  split.
  { intros given Hgiven Hnz. rewrite Hgiven in Hnext. cbn [int_truthy] in Hnext.
    apply Z.eqb_neq in Hnz. now rewrite Hnz in Hnext. }
  intros Hd Hm Hnd Hn Hc.
  rewrite Hn in Hnext. cbn [int_truthy negb] in Hnext.
  rewrite Hd in Hdate. rewrite Hm in Hmileage. rewrite Hnd in Hnextdate.
  rewrite Hc in Hcustom.
  destruct row. cbn in *. unfold seeded_row. congruence.
Qed.

Lemma maintenance_create_inherits_defaults_witness :
  exists row s',
    MaintenanceService.create
      (mkIntervalData (Some Demo.VIN) (Some "Brake Fluid"%string) None
         (Some 3) None None None None None) Demo.store
    = (Ok (Some row), s')
    /\ m_interval_miles row = Some 30000
    /\ m_interval_months row = Some 24.
Proof.
  destruct (maintenance_create_inherits_defaults
              (mkIntervalData (Some Demo.VIN) (Some "Brake Fluid"%string) None
                 (Some 3) None None None None None)
              Demo.store Demo.VIN "Brake Fluid"%string (Some 45000) 30000 24
              eq_refl eq_refl)
    as (row & s' & Hrun & Hmi & Hmo & _);
    [ do 8 right; left; reflexivity | reflexivity | reflexivity | reflexivity
    | | | ].
  - bound_by_computation.
  - unfold id_room. vm_compute. discriminate.
  - exists row, s'. repeat split; assumption.
Defined.

(** ** The rules on maintenance_intervals *)

Section IntervalRules.

Lemma NoDup_snoc {A} (l : list A) (x : A) :
  NoDup l -> ~ In x l -> NoDup (l ++ [x]).
Proof.
  intros Hl Hx. apply (Permutation_NoDup (l := x :: l)).
  - apply Permutation_cons_append.
  - now constructor.
Qed.

Lemma filter_keeps_distinct {K R} (key : R -> K) (keep : R -> bool)
    (rows : list R) :
  NoDup (map key rows) -> NoDup (map key (filter keep rows)).
Proof.
  induction rows as [|row rows IH]; cbn [map filter]; [trivial|].
  intros Hnd. inversion Hnd as [|? ? Hrow Hrows]; subst.
  destruct (keep row); [|now apply IH]. cbn [map].
  constructor; [|now apply IH].
  intros Hin. apply Hrow. apply in_map_iff in Hin.
  destruct Hin as (other & Hkey & Hin). apply filter_In in Hin.
  apply in_map_iff. exists other. tauto.
Qed.

Lemma rules_same (s s' : Store) :
  maintenance_intervals s' = maintenance_intervals s ->
  unique_ids s /\ one_interval_per_type s ->
  unique_ids s' /\ one_interval_per_type s'.
Proof. unfold unique_ids, one_interval_per_type. now intros ->. Qed.

Lemma rules_append (s s' : Store) (row : MaintenanceInterval) :
  maintenance_intervals s' = maintenance_intervals s ++ [row] ->
  (forall m, In m (maintenance_intervals s) -> m_id m < m_id row) ->
  select_interval (m_vin row) (m_service_type row) s = None ->
  unique_ids s /\ one_interval_per_type s ->
  unique_ids s' /\ one_interval_per_type s'.
Proof.
  unfold unique_ids, one_interval_per_type.
  intros -> Hfresh Hnone [Hids Hkeys]. rewrite !map_app. cbn [map]. split.
  - apply NoDup_snoc; [exact Hids|]. intros Hin. apply in_map_iff in Hin.
    destruct Hin as (m & Hid & Hm). specialize (Hfresh m Hm). lia.
  - apply NoDup_snoc; [exact Hkeys|]. intros Hin. apply in_map_iff in Hin.
    destruct Hin as (m & [= Hvin Htype] & Hm).
    unfold select_interval in Hnone.
    apply (find_In _ _ m Hm) in Hnone; [exact Hnone|].
    now rewrite Hvin, Htype, !String.eqb_refl.
Qed.

Lemma rules_filter (s s' : Store) (p : MaintenanceInterval -> bool) :
  maintenance_intervals s' = filter p (maintenance_intervals s) ->
  unique_ids s /\ one_interval_per_type s ->
  unique_ids s' /\ one_interval_per_type s'.
Proof.
  unfold unique_ids, one_interval_per_type.
  intros -> [Hids Hkeys]. split; now apply filter_keeps_distinct.
Qed.

Lemma rules_execute_update (data : ServiceRecord) (id_value : Z) (s : Store) :
  unique_ids s /\ one_interval_per_type s ->
  unique_ids (snd (MaintenanceService.execute_update data id_value s))
  /\ one_interval_per_type (snd (MaintenanceService.execute_update data id_value s)).
Proof.
  intros Hrules.
  destruct (execute_update_cases data id_value s) as [[_ ->] | [_ ->]];
    [|exact Hrules].
  revert Hrules. unfold unique_ids, one_interval_per_type, set_interval.
  cbn [snd maintenance_intervals]. intros [Hids Hkeys].
  rewrite !map_map.
  erewrite (map_ext _ m_id), (map_ext _ (fun m => (m_vin m, m_service_type m)));
    [split; eassumption | |];
    intros m; now destruct (m_id m =? id_value)%Z.
Qed.

Lemma rules_set_interval (data : ServiceRecord) (id_value : Z) (s : Store) :
  unique_ids s /\ one_interval_per_type s ->
  unique_ids (snd (set_interval data id_value s))
  /\ one_interval_per_type (snd (set_interval data id_value s)).
Proof.
  unfold unique_ids, one_interval_per_type, set_interval.
  cbn [snd maintenance_intervals]. intros [Hids Hkeys].
  rewrite !map_map.
  erewrite (map_ext _ m_id), (map_ext _ (fun m => (m_vin m, m_service_type m)));
    [split; eassumption | |];
    intros m; now destruct (m_id m =? id_value)%Z.
Qed.

Lemma keeps_rules_read_only {A} (m : M A) :
  read_only m -> keeps_interval_rules m.
Proof. intros Hm s Hids Hkeys. rewrite (Hm s). auto. Qed.

Lemma keeps_rules_bind {A B} (m : M A) (k : A -> M B) :
  keeps_interval_rules m -> (forall a, keeps_interval_rules (k a)) ->
  keeps_interval_rules (bind m k).
Proof.
  intros Hm Hk s Hids Hkeys. unfold bind.
  destruct (Hm s Hids Hkeys) as [Hids1 Hkeys1].
  destruct (m s) as [[a | e] s1]; cbn [snd] in *; [now apply Hk | auto].
Qed.

End IntervalRules.

Lemma seed_store_cases (v : string) (cm : Z) (e : string * (Z * Z)) (s : Store) :
  seed_store v cm e s = s
  \/ (select_interval v (fst e) s = None
      /\ exists row,
           maintenance_intervals (seed_store v cm e s)
           = maintenance_intervals s ++ [row]
           /\ (forall m, In m (maintenance_intervals s) -> m_id m < m_id row)
           /\ m_vin row = v /\ m_service_type row = fst e).
Proof.
  destruct (step_cases v cm e s) as [Hsame | (Hnone & _ & _ & ->)];
    [now left | right].
  split; [exact Hnone|]. eexists. cbn [maintenance_intervals].
  split; [reflexivity|]. cbn [seeded_row m_id m_vin m_service_type].
  split; [|split; reflexivity].
  intros m Hm. now apply new_id_fresh.
Qed.

Lemma seed_stores_rules (v : string) (cm : Z) (l : list (string * (Z * Z)))
    (s : Store) :
  unique_ids s /\ one_interval_per_type s ->
  unique_ids (seed_stores v cm l s)
  /\ one_interval_per_type (seed_stores v cm l s).
Proof.
  revert s. induction l as [|e l IH]; intros s Hrules; [exact Hrules|].
  rewrite seed_stores_cons. apply IH.
  destruct (seed_store_cases v cm e s)
    as [-> | (Hnone & row & Happ & Hfresh & Hvin & Htype)]; [exact Hrules|].
  apply (rules_append s _ row Happ Hfresh); [|exact Hrules].
  now rewrite Hvin, Htype.
Qed.

(** The loop keeps the rules wherever it stops. *)
Lemma for_each_seed_rules (v : string) (cm : Z) (l : list (string * (Z * Z)))
    (s : Store) :
  unique_ids s /\ one_interval_per_type s ->
  unique_ids (snd (for_each l (seed_default v cm) s))
  /\ one_interval_per_type (snd (for_each l (seed_default v cm) s)).
Proof.
  revert s. induction l as [|e l IH]; intros s Hrules; [exact Hrules|].
  cbn [for_each]. unfold bind.
  assert (Hturn : unique_ids (seed_store v cm e s)
                  /\ one_interval_per_type (seed_store v cm e s)).
  { destruct (seed_store_cases v cm e s)
      as [-> | (Hnone & row & Happ & Hfresh & Hvin & Htype)]; [exact Hrules|].
    apply (rules_append s _ row Happ Hfresh); [|exact Hrules].
    now rewrite Hvin, Htype. }
  unfold seed_store in Hturn.
  destruct (seed_default v cm e s) as [[[] | err] s1]; cbn [snd] in *;
    [now apply IH | exact Hturn].
Qed.

Lemma initialize_for_vehicle_rules (vin : string) :
  keeps_interval_rules (initialize_for_vehicle vin).
Proof.
  unfold initialize_for_vehicle.
  apply keeps_rules_bind;
    [apply keeps_rules_read_only; auto with atomicity | intros v].
  apply keeps_rules_bind;
    [apply keeps_rules_read_only; auto with atomicity | intros [current|]];
    [|apply keeps_rules_read_only; auto with atomicity].
  apply keeps_rules_bind.
  - intros s Hids Hkeys. now apply for_each_seed_rules.
  - intros _. apply keeps_rules_read_only. intros s.
    unfold get_by_vin, bind, lift, execute_query.
    now destruct (validate_vin v).
Qed.

(** ** How the writers of maintenance_intervals leave the store *)

Lemma bind_read_cases {A B} (m : M A) (k : A -> M B) (s : Store) :
  read_only m ->
  (exists e, m s = (Raise e, s) /\ bind m k s = (Raise e, s))
  \/ (exists a, m s = (Ok a, s) /\ bind m k s = k a s).
Proof.
  intros Hm. unfold bind. specialize (Hm s).
  destruct (m s) as [[a | e] s1]; cbn [snd] in Hm; subst s1.
  - right. now exists a.
  - left. now exists e.
Qed.

(** One reading step of a method: either it raises, and the method
    with it, or it hands its value to the rest. *)
Ltac read_step a Hstep :=
  match goal with
  | |- context [bind ?m ?k ?s] =>
      let Hread := fresh "Hread" in
      let e := fresh "e" in
      let Hbind := fresh "Hbind" in
      assert (Hread : read_only m);
      [ | destruct (bind_read_cases m k s Hread)
            as [(e & _ & Hbind) | (a & Hstep & Hbind)];
          rewrite Hbind; clear Hbind Hread;
          [ left; exists e; reflexivity | cbv beta ] ]
  end.

Lemma record_service_run
    (today : string) (strptime : string -> option Z) (strftime : Z -> string)
    (vin service_type : string) (date : option string) (mileage : option Z)
    (s : Store) :
  (exists e,
     record_service today strptime strftime vin service_type date mileage s
     = (Raise e, s))
  \/ (exists v d interval m next_date,
        validate_vin vin = Ok v
        /\ select_interval v service_type s = Some interval
        /\ recorded_mileage v mileage s = (Ok m, s)
        /\ record_service today strptime strftime vin service_type date mileage s
           = (Ok (option_map
                    (set_service_record
                       (mkServiceRecord d m next_date
                          (if int_truthy (m_interval_miles interval)
                           then option_map
                                  (fun x => x + or_zero (m_interval_miles interval))
                                  m
                           else None)))
                    (MaintenanceService.get_by_id (m_id interval) s)),
              snd (set_interval
                     (mkServiceRecord d m next_date
                        (if int_truthy (m_interval_miles interval)
                         then option_map
                                (fun x => x + or_zero (m_interval_miles interval))
                                m
                         else None))
                     (m_id interval) s))).
Proof.
  unfold record_service.
  read_step v Hv; [auto with atomicity|].
  read_step d Hd; [auto with atomicity|].
  read_step found Hsel; [auto with atomicity|].
  destruct found as [interval|]; [|left; eexists; reflexivity].
  read_step m Hm; [exact (recorded_mileage_reads v mileage)|].
  read_step next_mileage Hnext.
  { destruct (int_truthy (m_interval_miles interval)); [destruct m|];
      auto with atomicity. }
  read_step next_date Hdate.
  { destruct (int_truthy (m_interval_months interval)); [|auto with atomicity].
    intros s0. unfold bind, lift, ret.
    destruct (plus_days _ _ _ _); reflexivity. }
  unfold lift in Hv. injection Hv as Hv.
  unfold execute_query in Hsel. injection Hsel as Hsel.
  assert (Hin : In interval (maintenance_intervals s))
    by (apply find_some in Hsel; tauto).
  assert (Hnm : next_mileage
                = if int_truthy (m_interval_miles interval)
                  then option_map
                         (fun x => x + or_zero (m_interval_miles interval)) m
                  else None).
  { revert Hnext.
    destruct (int_truthy (m_interval_miles interval)); [destruct m|];
      unfold ret, raise; cbn [option_map]; congruence. }
  destruct (update_existing (mkServiceRecord d m next_date next_mileage)
              interval s Hin) as (old & Hold & Hupdate & Hraise).
  destruct (execute_update_cases (mkServiceRecord d m next_date next_mileage)
              (m_id interval) s) as [[Hbound _] | [Hout _]].
  - right. exists v, d, interval, m, next_date.
    split; [exact Hv|]. split; [exact Hsel|]. split; [exact Hm|].
    rewrite <- Hnm. now rewrite (Hupdate Hbound), Hold.
  - left. exists OverflowError. exact (Hraise Hout).
Qed.

Lemma maintenance_create_cases (data : IntervalData) (s : Store) :
  (exists e, MaintenanceService.create data s = (Raise e, s))
  \/ (exists v service_type current row,
        validate_vin (match i_vin data with Some x => x | None => EmptyString end)
        = Ok v
        /\ i_service_type data = Some service_type
        /\ select_current_mileage v s = Some current
        /\ select_interval v service_type s = None
        /\ MaintenanceService.create data s
           = (Ok (Some row),
              mkStore (vehicles s) (repairs s) (fuel_logs s)
                (maintenance_intervals s ++ [row])
                (mileage_history s) (trips s) (m_id row))
        /\ (forall m, In m (maintenance_intervals s) -> m_id m < m_id row)
        /\ m_vin row = v
        /\ m_service_type row = service_type
        /\ in_int64 (m_id row)
        /\ m_id row = last_id s + 1).
Proof.
  destruct (validate_vin
              (match i_vin data with Some x => x | None => EmptyString end))
    as [v | e] eqn:Hv.
  2: { left. exists e. unfold MaintenanceService.create, bind, lift.
       now rewrite Hv. }
  assert (Hrequired :
            i_service_type data = None \/ i_service_type data = Some EmptyString ->
            MaintenanceService.create data s
            = (Raise (ValidationError "Service type is required"), s)).
  { intros Hmissing.
    unfold MaintenanceService.create, bind at 1, lift. rewrite Hv.
    unfold bind at 1. now destruct Hmissing as [-> | ->]. }
  destruct (i_service_type data) as [service_type|] eqn:Htype;
    [|left; eexists; apply Hrequired; now left].
  destruct (string_dec service_type EmptyString) as [-> | Hnonempty];
    [left; eexists; apply Hrequired; now right|].
  clear Hrequired.
  destruct (select_current_mileage v s) as [current|] eqn:Hvehicle.
  - destruct (select_interval v service_type s) as [existing|] eqn:Hexisting.
    + left. eexists.
      apply (maintenance_create_duplicate data s v service_type Hv Htype Hnonempty);
        congruence.
    + destruct (insert_interval_cases (completed data v service_type current) s)
        as [(e & Hraise & _) | [Hbound Hroom]].
      * left. exists e. apply str_truthy_spec in Hnonempty.
        unfold MaintenanceService.create, bind at 1, lift. rewrite Hv.
        rewrite Htype, Hnonempty. cbn [negb].
        unfold bind at 1, ret at 1.
        unfold bind at 1, execute_query at 1. rewrite Hvehicle.
        unfold bind at 1, execute_query at 1. rewrite Hexisting.
        unfold MaintenanceService.base_create, bind at 1, lift.
        cbn [MaintenanceService.validate_required completed i_vin
             i_service_type app].
        unfold bind at 1. now rewrite Hraise.
      * right.
        destruct (maintenance_create_row data s v service_type current Hv Htype
                    Hnonempty Hvehicle Hexisting Hbound Hroom)
          as (row & Hrun & Hfresh & Hvin & Hst & _ & _ & _ & _ & _ & _ & Hid).
        exists v, service_type, current, row.
        pose proof (last_id_nonnegative s).
        unfold id_room in Hroom.
        repeat split; try assumption; try reflexivity; unfold INT64_MIN; lia.
  - left. eexists. apply str_truthy_spec in Hnonempty.
    unfold MaintenanceService.create, bind at 1, lift. rewrite Hv.
    rewrite Htype, Hnonempty. cbn [negb].
    unfold bind at 1, ret at 1.
    unfold bind at 1, execute_query at 1. rewrite Hvehicle. reflexivity.
Qed.

Lemma maintenance_delete_run (id_value : Z) (s : Store) :
  (~ in_int64 id_value
   /\ MaintenanceService.delete id_value s = (Raise OverflowError, s))
  \/ (in_int64 id_value
      /\ MaintenanceService.get_by_id id_value s = None
      /\ MaintenanceService.delete id_value s
         = (Raise (NotFoundError ("maintenance_intervals with id="
                                  ++ str_of_int id_value ++ " not found")%string),
            s))
  \/ (in_int64 id_value
      /\ MaintenanceService.get_by_id id_value s <> None
      /\ MaintenanceService.delete id_value s
         = (Ok true, snd (MaintenanceService.execute_delete_by_id id_value s))).
Proof.
  destruct (bind_ints_cases [Some id_value] s) as [[Hbound Hok] | Hraise].
  - right. specialize (Hbound id_value (or_introl eq_refl)).
    unfold MaintenanceService.delete, bind. rewrite Hok.
    unfold execute_query, raise, ret.
    destruct (MaintenanceService.get_by_id id_value s) as [old|] eqn:Hold.
    + right. split; [exact Hbound|]. split; [discriminate|].
      cbn [MaintenanceService.execute_delete_by_id snd]. do 2 f_equal.
      apply find_some_filter_length.
      unfold MaintenanceService.get_by_id in Hold. now rewrite Hold.
    + left. split; [exact Hbound|]. now split.
  - left. unfold MaintenanceService.delete, bind. rewrite Hraise.
    split; [|reflexivity].
    intros Hin. rewrite bind_ints_run in Hraise; [discriminate|].
    intros n [[= <-] | []]. exact Hin.
Qed.

Lemma vehicle_base_delete_intervals (v : string) (s : Store) :
  maintenance_intervals (snd (VehicleService.base_delete v s))
  = maintenance_intervals s.
Proof.
  unfold VehicleService.base_delete, bind, execute_query, raise, ret.
  now destruct (VehicleService.get_by_id (SqlText v) s).
Qed.

Lemma maintenance_create_rules (data : IntervalData) :
  keeps_interval_rules (MaintenanceService.create data).
Proof.
  intros s Hids Hkeys.
  destruct (maintenance_create_cases data s)
    as [(e & ->) | (v & st & current & row & _ & _ & _ & Hnone & -> & Hfresh
                    & Hvin & Hst & _)]; [auto|].
  apply (rules_append s _ row); [reflexivity | exact Hfresh | | auto].
  now rewrite Hvin, Hst.
Qed.

Lemma record_service_rules
    (today : string) (strptime : string -> option Z) (strftime : Z -> string)
    (vin service_type : string) (date : option string) (mileage : option Z) :
  keeps_interval_rules
    (record_service today strptime strftime vin service_type date mileage).
Proof.
  intros s Hids Hkeys.
  destruct (record_service_run today strptime strftime vin service_type date
              mileage s)
    as [(e & ->) | (v & d & interval & m & next_date & _ & _ & _ & ->)];
    [auto|].
  cbn [snd]. now apply rules_set_interval.
Qed.

Lemma maintenance_delete_rules (id_value : Z) :
  keeps_interval_rules (MaintenanceService.delete id_value).
Proof.
  intros s Hids Hkeys.
  destruct (maintenance_delete_run id_value s)
    as [[_ ->] | [(_ & _ & ->) | (_ & _ & ->)]]; [auto | auto |].
  cbn [snd]. eapply rules_filter; [reflexivity | auto].
Qed.

Lemma vehicle_create_rules (data : VehicleData) :
  keeps_interval_rules (VehicleService.create data).
Proof.
  unfold VehicleService.create, create_with.
  apply keeps_rules_bind;
    [apply keeps_rules_read_only; auto with atomicity | intros v].
  apply keeps_rules_bind.
  { apply keeps_rules_read_only. destruct (_ || _); auto with atomicity. }
  intros _.
  apply keeps_rules_bind;
    [apply keeps_rules_read_only; auto with atomicity | intros already].
  apply keeps_rules_bind.
  { apply keeps_rules_read_only. destruct already; auto with atomicity. }
  intros _.
  apply keeps_rules_bind.
  { apply keeps_rules_read_only. cbn [d_current_mileage].
    destruct (d_current_mileage data) as [[value|]|]; auto with atomicity.
    intros s. unfold bind, lift, ret.
    destruct (validate_positive_number value "Mileage"); reflexivity. }
  intros mileage.
  apply keeps_rules_bind.
  - intros s Hids Hkeys. apply (rules_same s); [|auto].
    unfold VehicleService.base_create, bind at 1, lift.
    destruct (VehicleService.validate_required _); [|reflexivity].
    unfold bind, VehicleService.execute_insert, bind, execute_query.
    match goal with
    | |- context [bind_ints ?params s] =>
        destruct (bind_ints_cases params s) as [[_ ->] | ->]
    end; reflexivity.
  - intros vehicle. apply keeps_rules_bind.
    + intros s Hids Hkeys. unfold try_pass. cbn [snd].
      now apply initialize_for_vehicle_rules.
    + intros _. apply keeps_rules_read_only. auto with atomicity.
Qed.

Lemma vehicle_delete_rules (vin : string) :
  keeps_interval_rules (VehicleService.delete vin).
Proof.
  intros s Hids Hkeys.
  destruct (validate_vin vin) as [v | e] eqn:Hv.
  - rewrite (delete_unfold vin v s Hv).
    apply (rules_same (without_dependents v s));
      [apply vehicle_base_delete_intervals|].
    eapply rules_filter; [reflexivity | auto].
  - unfold VehicleService.delete, bind, lift. rewrite Hv. auto.
Qed.

(** X7.  The two rules on maintenance_intervals, unique ids and one
    interval per vehicle and service type, hold of the empty database
    and are kept by MaintenanceService.create, initialize_for_vehicle,
    record_service and delete and by VehicleService.create and delete,
    whether they return or raise. *)
Theorem interval_rules_kept :
  (unique_ids empty_store /\ one_interval_per_type empty_store)
  /\ (forall data, keeps_interval_rules (MaintenanceService.create data))
  /\ (forall vin,
        keeps_interval_rules (MaintenanceService.initialize_for_vehicle vin))
  /\ (forall today strptime strftime vin service_type date mileage,
        keeps_interval_rules
          (MaintenanceService.record_service today strptime strftime vin
             service_type date mileage))
  /\ (forall id_value, keeps_interval_rules (MaintenanceService.delete id_value))
  /\ (forall data, keeps_interval_rules (VehicleService.create data))
  /\ (forall vin, keeps_interval_rules (VehicleService.delete vin)).
Proof.
  split; [split; constructor|].
  split; [exact maintenance_create_rules|].
  split; [exact initialize_for_vehicle_rules|].
  split; [exact record_service_rules|].
  split; [exact maintenance_delete_rules|].
  split; [exact vehicle_create_rules | exact vehicle_delete_rules].
Qed.

Lemma interval_rules_kept_witness :
  unique_ids (snd (VehicleService.create Demo.civic empty_store))
  /\ one_interval_per_type (snd (VehicleService.create Demo.civic empty_store)).
Proof.
  destruct interval_rules_kept as ([Hids Hkeys] & _ & _ & _ & _ & Hcreate & _).
  exact (Hcreate Demo.civic empty_store Hids Hkeys).
Defined.

(** ** Updating a vehicle *)

Lemma find_map_preserving {A} (p : A -> bool) (f : A -> A) (l : list A) :
  (forall x, p (f x) = p x) ->
  find p (map f l) = option_map f (find p l).
Proof.
  intros Hp. induction l as [|x l IH]; [reflexivity|].
  cbn [map find]. rewrite Hp. now destruct (p x).
Qed.

(** Reading a vehicle back after the UPDATE of VIN [v]: the row of [v]
    has the columns set, any other VIN reads as before. *)
Lemma vehicle_after_update (data : VehicleMethods.VehicleUpdate)
    (v other : string) (s : Store) :
  VehicleService.get_by_id (SqlText other)
    (snd (VehicleMethods.set_vehicle data (SqlText v) s))
  = if String.eqb other v
    then option_map (VehicleMethods.set_columns data)
           (VehicleService.get_by_id (SqlText v) s)
    else VehicleService.get_by_id (SqlText other) s.
Proof.
  unfold VehicleService.get_by_id, VehicleMethods.set_vehicle.
  cbn [snd vehicles text_column_eq].
  rewrite find_map_preserving
    by (intros x; now destruct (String.eqb (v_vin x) v)).
  destruct (String.eqb_spec other v) as [-> | Hne].
  - destruct (find _ (vehicles s)) as [row|] eqn:Hrow; [|reflexivity].
    apply find_some in Hrow. destruct Hrow as [_ Hrow].
    cbn [option_map]. now rewrite Hrow.
  - destruct (find _ (vehicles s)) as [row|] eqn:Hrow; [|reflexivity].
    apply find_some in Hrow. destruct Hrow as [_ Hrow].
    apply String.eqb_eq in Hrow. cbn [option_map].
    destruct (String.eqb_spec (v_vin row) v); [congruence | reflexivity].
Qed.

(** The check of a mileage that a double holds exactly. *)
Lemma validate_checked_mileage (value : Z) :
  checked_mileage value ->
  validate_positive_number value "Mileage"
  = if (value <? 0)%Z
    then Raise (ValidationError "Mileage must be a positive number")
    else Ok value.
Proof.
  intros [Hlo Hhi]. destruct (Z.ltb_spec value 0).
  - now apply validate_positive_number_negative.
  - apply validate_positive_number_exact. unfold exact_mileage. lia.
Qed.

Lemma checked_mileage_in_int64 (value : Z) :
  checked_mileage value -> in_int64 value.
Proof. unfold checked_mileage, in_int64, INT64_MIN, INT64_MAX. lia. Qed.

(** The ints of an update are in range when its year is, its mileage
    is one that a double holds exactly and it names no user. *)
Lemma update_ints_bound (data : VehicleMethods.VehicleUpdate) :
  (forall year, VehicleMethods.u_year data = Some year -> in_int64 year) ->
  (forall value,
     VehicleMethods.u_current_mileage data = Some (Some value) ->
     checked_mileage value) ->
  names_no_user (VehicleMethods.u_user_id data) ->
  bound (VehicleMethods.update_ints data).
Proof.
  intros Hyear Hmileage Huser n. unfold VehicleMethods.update_ints.
  intros [Hn | [Hn | [Hn | []]]].
  - now apply Hyear.
  - destruct (VehicleMethods.u_current_mileage data) as [[value|]|];
      try discriminate.
    injection Hn as <-. now apply checked_mileage_in_int64, Hmileage.
  - destruct Huser as [Huser | Huser]; rewrite Huser in Hn; discriminate.
Qed.

(** VehicleService.update, check by check, for ints in range. *)
Lemma vehicle_update_run (vin : string) (data : VehicleMethods.VehicleUpdate)
    (s : Store) :
  (forall value,
     VehicleMethods.u_current_mileage data = Some (Some value) ->
     checked_mileage value) ->
  bound (VehicleMethods.update_ints data) ->
  VehicleMethods.update vin data s
  = match validate_vin vin with
    | Raise e => (Raise e, s)
    | Ok v =>
        if match VehicleMethods.u_current_mileage data with
           | Some (Some value) => (value <? 0)%Z
           | _ => false
           end
        then (Raise (ValidationError "Mileage must be a positive number"), s)
        else
          match VehicleService.get_by_id (SqlText v) s with
          | None =>
              (Raise (NotFoundError
                        ("vehicles with vin=" ++ v ++ " not found")%string), s)
          | Some row =>
              if VehicleMethods.update_is_empty data then (Ok (Some row), s)
              else (Ok (Some (VehicleMethods.set_columns data row)),
                    snd (VehicleMethods.set_vehicle data (SqlText v) s))
          end
    end.
Proof.
  intros Hchecked Hbound.
  unfold VehicleMethods.update, bind at 1, lift.
  destruct (validate_vin vin) as [v | e]; [|reflexivity].
  assert (Hbase : VehicleMethods.base_update v data s
                  = match VehicleService.get_by_id (SqlText v) s with
                    | None =>
                        (Raise (NotFoundError
                                  ("vehicles with vin=" ++ v ++ " not found")%string),
                         s)
                    | Some row =>
                        if VehicleMethods.update_is_empty data
                        then (Ok (Some row), s)
                        else (Ok (Some (VehicleMethods.set_columns data row)),
                              snd (VehicleMethods.set_vehicle data (SqlText v) s))
                    end).
  { unfold VehicleMethods.base_update, bind at 1, execute_query at 1, raise, ret.
    destruct (VehicleService.get_by_id (SqlText v) s) as [row|] eqn:Hrow;
      [|reflexivity].
    destruct (VehicleMethods.update_is_empty data); [reflexivity|].
    pose proof (vehicle_after_update data v v s) as Hafter.
    rewrite String.eqb_refl, Hrow in Hafter. cbn [option_map] in Hafter.
    unfold bind, VehicleMethods.execute_update, bind, execute_query.
    rewrite (bind_ints_run _ s Hbound).
    unfold VehicleMethods.set_vehicle in *. cbn [snd] in *.
    now rewrite Hafter. }
  rewrite <- Hbase. clear Hbase.
  destruct data as [year make model mileage user other].
  cbn [VehicleMethods.u_year VehicleMethods.u_make VehicleMethods.u_model
       VehicleMethods.u_current_mileage VehicleMethods.u_user_id
       VehicleMethods.u_other] in *.
  destruct mileage as [[value|]|]; try reflexivity.
  unfold bind, lift, ret.
  rewrite (validate_checked_mileage value (Hchecked value eq_refl)).
  now destruct (value <? 0)%Z.
Qed.

Lemma vehicle_execute_update_keys (data : VehicleMethods.VehicleUpdate)
    (id_value : SqlValue) (s : Store) :
  map v_vin (vehicles (snd (VehicleMethods.set_vehicle data id_value s)))
  = map v_vin (vehicles s)
  /\ map v_rowid (vehicles (snd (VehicleMethods.set_vehicle data id_value s)))
     = map v_rowid (vehicles s).
Proof.
  unfold VehicleMethods.set_vehicle. cbn [snd vehicles].
  rewrite !map_map.
  split; apply map_ext; intros x;
    now destruct (text_column_eq (v_vin x) id_value).
Qed.

(** X8.  For an update whose ints are in range (a year within 64 bits,
    a mileage from -2^53 to 2^53, which a double holds exactly) and
    that names no user: VehicleService.update changes nothing when it
    raises; it raises ValidationError for a negative mileage and, that
    check passed, NotFoundError for a VIN without vehicle row.  When
    the vehicle is there it returns the row with the given columns set,
    which is also what a lookup of the VIN then finds; an update
    without any allowed key writes nothing.  It never touches another
    table, never adds or removes a vehicle, never changes a VIN or
    rowid, and a lookup of any other VIN gives what it gave before. *)
Theorem vehicle_update_spec (vin : string) (data : VehicleMethods.VehicleUpdate)
    (s : Store) :
  (forall year, VehicleMethods.u_year data = Some year -> in_int64 year) ->
  (forall value,
     VehicleMethods.u_current_mileage data = Some (Some value) ->
     checked_mileage value) ->
  names_no_user (VehicleMethods.u_user_id data) ->
  let result := VehicleMethods.update vin data s in
  (forall e, fst result = Raise e -> snd result = s)
  /\ (repairs (snd result) = repairs s
      /\ fuel_logs (snd result) = fuel_logs s
      /\ maintenance_intervals (snd result) = maintenance_intervals s
      /\ mileage_history (snd result) = mileage_history s
      /\ trips (snd result) = trips s)
  /\ map v_vin (vehicles (snd result)) = map v_vin (vehicles s)
  /\ map v_rowid (vehicles (snd result)) = map v_rowid (vehicles s)
  /\ (forall v, validate_vin vin = Ok v ->
        (forall other, other <> v ->
           VehicleService.get_by_id (SqlText other) (snd result)
           = VehicleService.get_by_id (SqlText other) s)
        /\ (forall value,
              VehicleMethods.u_current_mileage data = Some (Some value) ->
              value < 0 -> is_ValidationError (fst result))
        /\ ((forall value,
               VehicleMethods.u_current_mileage data = Some (Some value) ->
               0 <= value) ->
            match VehicleService.get_by_id (SqlText v) s with
            | None => is_NotFoundError (fst result)
            | Some row =>
                let row' := if VehicleMethods.update_is_empty data then row
                            else VehicleMethods.set_columns data row in
                fst result = Ok (Some row')
                /\ VehicleService.get_by_id (SqlText v) (snd result) = Some row'
                /\ (VehicleMethods.update_is_empty data = true -> snd result = s)
            end)).
Proof.
  intros Hyear Hchecked Huser result. subst result.
  rewrite (vehicle_update_run vin data s Hchecked
             (update_ints_bound data Hyear Hchecked Huser)).
  destruct (validate_vin vin) as [v | e] eqn:Hv.
  2: { cbn [fst snd]. split; [reflexivity|]. split; [repeat split|].
       split; [reflexivity|]. split; [reflexivity|]. intros v [=]. }
  destruct (match VehicleMethods.u_current_mileage data with
            | Some (Some value) => (value <? 0)%Z
            | _ => false
            end) eqn:Hneg.
  { cbn [fst snd]. split; [reflexivity|]. split; [repeat split|].
    split; [reflexivity|]. split; [reflexivity|].
    intros v' [= <-]. split; [reflexivity|].
    split; [intros; eexists; reflexivity|].
    intros Hgiven.
    destruct (VehicleMethods.u_current_mileage data) as [[value|]|];
      try discriminate.
    apply Z.ltb_lt in Hneg. specialize (Hgiven value eq_refl). lia. }
  assert (Hgiven : forall value,
            VehicleMethods.u_current_mileage data = Some (Some value) ->
            value < 0 -> False).
  { intros value Hvalue Hlt. rewrite Hvalue in Hneg.
    apply Z.ltb_ge in Hneg. lia. }
  destruct (VehicleService.get_by_id (SqlText v) s) as [row|] eqn:Hrow.
  2: { cbn [fst snd]. split; [reflexivity|]. split; [repeat split|].
       split; [reflexivity|]. split; [reflexivity|].
       intros v' [= <-]. split; [reflexivity|].
       split; [intros value Hvalue Hlt; now destruct (Hgiven value)|].
       intros _. rewrite Hrow. eexists; reflexivity. }
  destruct (VehicleMethods.update_is_empty data) eqn:Hempty.
  { cbn [fst snd]. split; [reflexivity|]. split; [repeat split|].
    split; [reflexivity|]. split; [reflexivity|].
    intros v' [= <-]. split; [reflexivity|].
    split; [intros value Hvalue Hlt; now destruct (Hgiven value)|].
    intros _. rewrite Hrow. cbn zeta. now repeat split. }
  cbn [fst].
  change (snd (?a, ?b)) with b.
  split; [discriminate|]. split; [repeat split|].
  destruct (vehicle_execute_update_keys data (SqlText v) s) as [Hvins Hrowids].
  split; [exact Hvins|]. split; [exact Hrowids|].
  intros v' [= <-]. split.
  { intros other Hother. rewrite vehicle_after_update.
    now destruct (String.eqb_spec other v). }
  split; [intros value Hvalue Hlt; now destruct (Hgiven value)|].
  intros _. rewrite Hrow. cbn zeta.
  split; [reflexivity|]. split; [|discriminate].
  now rewrite vehicle_after_update, String.eqb_refl, Hrow.
Qed.

Lemma vehicle_update_spec_witness :
  fst (VehicleMethods.update Demo.VIN
         (VehicleMethods.mkVehicleUpdate None None None (Some (Some 40000))
            None false)
         Demo.store)
  = Ok (Some (mkVehicle 1 Demo.VIN 2020 "Honda" "Civic" (Some 40000) None)).
Proof.
  destruct (vehicle_update_spec Demo.VIN
              (VehicleMethods.mkVehicleUpdate None None None (Some (Some 40000))
                 None false)
              Demo.store) as (_ & _ & _ & _ & H).
  - intros year [=].
  - intros value [= <-]. unfold checked_mileage. lia.
  - now left.
  - destruct (H Demo.VIN eq_refl) as (_ & _ & Hrun).
    assert (Hgiven : forall value : Z,
              Some (Some 40000) = Some (Some value) -> 0 <= value)
      by (intros value [= <-]; lia).
    exact (proj1 (Hrun Hgiven)).
Defined.

(** What an update does out of these ranges: a mileage that no double
    holds is stored as the nearest double, and one beyond 64 bits
    raises OverflowError once the vehicle has been found. *)
Example vehicle_update_out_of_range :
  fst (VehicleMethods.update Demo.VIN
         (VehicleMethods.mkVehicleUpdate None None None
            (Some (Some 9007199254740993)) None false) Demo.store)
  = Ok (Some (mkVehicle 1 Demo.VIN 2020 "Honda" "Civic"
                (Some 9007199254740992) None))
  /\ VehicleMethods.update Demo.VIN
       (VehicleMethods.mkVehicleUpdate None None None
          (Some (Some (INT64_MAX + 1))) None false) Demo.store
     = (Raise OverflowError, Demo.store).
Proof. split; reflexivity. Qed.

(** ** Updating the mileage of a vehicle *)

(** VehicleService.update_mileage, check by check, for a mileage that a
    double holds exactly. *)
Lemma update_mileage_run (vin : string) (mileage : Z) (s : Store) :
  checked_mileage mileage ->
  VehicleMethods.update_mileage vin mileage s
  = match validate_vin vin with
    | Raise e => (Raise e, s)
    | Ok v =>
        if (mileage <? 0)%Z
        then (Raise (ValidationError "Mileage must be a positive number"), s)
        else
          match VehicleService.get_by_id (SqlText v) s with
          | None =>
              (Raise (NotFoundError
                        ("Vehicle with VIN " ++ v ++ " not found")%string), s)
          | Some row =>
              if (mileage <? or_zero (v_current_mileage row))%Z
              then (Raise (ValidationError
                             ("New mileage (" ++ str_of_int mileage
                              ++ ") cannot be less than current ("
                              ++ str_of_int (or_zero (v_current_mileage row))
                              ++ ")")%string), s)
              else
                (Ok (Some (mkVehicle (v_rowid row) (v_vin row) (v_year row)
                             (v_make row) (v_model row) (Some mileage)
                             (v_user_id row))),
                 snd (VehicleMethods.set_vehicle
                        (VehicleMethods.mkVehicleUpdate None None None
                           (Some (Some mileage)) None false)
                        (SqlText v) s))
          end
    end.
Proof.
  intros Hchecked.
  unfold VehicleMethods.update_mileage, bind at 1, lift.
  destruct (validate_vin vin) as [v | e] eqn:Hv; [|reflexivity].
  unfold bind at 1. rewrite (validate_checked_mileage mileage Hchecked).
  destruct (mileage <? 0)%Z eqn:Hneg; [reflexivity|].
  unfold bind at 1, VehicleMethods.get_by_vin, bind at 1, lift, execute_query.
  rewrite (validate_vin_idempotent vin v Hv).
  destruct (VehicleService.get_by_id (SqlText v) s) as [row|] eqn:Hrow;
    [|reflexivity].
  destruct (mileage <? or_zero (v_current_mileage row))%Z; [reflexivity|].
  rewrite vehicle_update_run.
  - rewrite (validate_vin_idempotent vin v Hv).
    cbn [VehicleMethods.u_current_mileage]. rewrite Hneg, Hrow. reflexivity.
  - intros value [= <-]. exact Hchecked.
  - apply update_ints_bound.
    + intros year [=].
    + intros value [= <-]. exact Hchecked.
    + now left.
Qed.

(** X9.  VehicleService.update_mileage on an existing vehicle, with
    a mileage from -2^53 to 2^53 (which a double holds exactly): a
    mileage that is negative or below the stored one is refused with
    ValidationError and nothing is written; any other mileage is
    stored, and the row returned, which a lookup of the VIN then finds,
    differs from the old one in its mileage only.  So whatever the
    call, a lookup afterwards never shows a lower mileage than before.
    No other table is touched and no other VIN reads differently. *)
Theorem update_mileage_never_lowers (vin v : string) (mileage : Z) (s : Store)
    (row : Vehicle) :
  validate_vin vin = Ok v ->
  VehicleService.get_by_id (SqlText v) s = Some row ->
  checked_mileage mileage ->
  let result := VehicleMethods.update_mileage vin mileage s in
  let current := or_zero (v_current_mileage row) in
  (mileage < 0 \/ mileage < current ->
   is_ValidationError (fst result) /\ snd result = s)
  /\ (0 <= mileage -> current <= mileage ->
      let row' := mkVehicle (v_rowid row) (v_vin row) (v_year row) (v_make row)
                    (v_model row) (Some mileage) (v_user_id row) in
      fst result = Ok (Some row')
      /\ VehicleService.get_by_id (SqlText v) (snd result) = Some row')
  /\ (exists after,
        VehicleService.get_by_id (SqlText v) (snd result) = Some after
        /\ current <= or_zero (v_current_mileage after))
  /\ (forall other, other <> v ->
        VehicleService.get_by_id (SqlText other) (snd result)
        = VehicleService.get_by_id (SqlText other) s)
  /\ (repairs (snd result) = repairs s
      /\ fuel_logs (snd result) = fuel_logs s
      /\ maintenance_intervals (snd result) = maintenance_intervals s
      /\ mileage_history (snd result) = mileage_history s
      /\ trips (snd result) = trips s).
Proof.
  intros Hv Hrow Hchecked result current. subst result current.
  rewrite (update_mileage_run vin mileage s Hchecked), Hv, Hrow.
  destruct (Z.ltb_spec mileage 0) as [Hneg | Hpos].
  { cbn [fst snd]. split; [intros _; split; [eexists|]; reflexivity|].
    split; [lia|].
    split; [exists row; split; [exact Hrow | lia]|].
    split; [reflexivity | repeat split]. }
  destruct (Z.ltb_spec mileage (or_zero (v_current_mileage row))) as [Hlow | Hhigh].
  { cbn [fst snd]. split; [intros _; split; [eexists|]; reflexivity|].
    split; [lia|].
    split; [exists row; split; [exact Hrow | lia]|].
    split; [reflexivity | repeat split]. }
  cbn [fst]. change (snd (?a, ?b)) with b.
  assert (Hafter : VehicleService.get_by_id (SqlText v)
                     (snd (VehicleMethods.set_vehicle
                             (VehicleMethods.mkVehicleUpdate None None None
                                (Some (Some mileage)) None false)
                             (SqlText v) s))
                   = Some (mkVehicle (v_rowid row) (v_vin row) (v_year row)
                             (v_make row) (v_model row) (Some mileage)
                             (v_user_id row)))
    by (now rewrite vehicle_after_update, String.eqb_refl, Hrow).
  split; [lia|].
  split; [intros _ _; split; [reflexivity | exact Hafter]|].
  split; [eexists; split; [exact Hafter | exact Hhigh]|].
  split; [|repeat split].
  intros other Hother. rewrite vehicle_after_update.
  now destruct (String.eqb_spec other v).
Qed.

Lemma update_mileage_never_lowers_witness :
  is_ValidationError (fst (VehicleMethods.update_mileage Demo.VIN 40000 Demo.store))
  /\ fst (VehicleMethods.update_mileage Demo.VIN 46000 Demo.store)
     = Ok (Some (mkVehicle 1 Demo.VIN 2020 "Honda" "Civic" (Some 46000) None)).
Proof.
  split.
  - destruct (update_mileage_never_lowers Demo.VIN Demo.VIN 40000 Demo.store
                (mkVehicle 1 Demo.VIN 2020 "Honda" "Civic" (Some 45000) None)
                eq_refl eq_refl) as (Hlow & _);
      [unfold checked_mileage; lia|].
    apply Hlow. right. cbn. lia.
  - destruct (update_mileage_never_lowers Demo.VIN Demo.VIN 46000 Demo.store
                (mkVehicle 1 Demo.VIN 2020 "Honda" "Civic" (Some 45000) None)
                eq_refl eq_refl) as (_ & Hhigh & _);
      [unfold checked_mileage; lia|].
    apply Hhigh; cbn; lia.
Defined.

(** ** Creating a vehicle, looking it up, deleting it *)

(** The seeding loop, wherever it stops, and so initialize_for_vehicle,
    however it ends, only append interval rows. *)
Lemma for_each_seed_extends (v : string) (cm : Z)
    (l : list (string * (Z * Z))) (s : Store) :
  let s' := snd (for_each l (seed_default v cm) s) in
  vehicles s' = vehicles s
  /\ repairs s' = repairs s
  /\ fuel_logs s' = fuel_logs s
  /\ mileage_history s' = mileage_history s
  /\ trips s' = trips s
  /\ exists added, maintenance_intervals s' = maintenance_intervals s ++ added.
Proof.
  revert s. induction l as [|e l IH]; intros s; cbn zeta.
  - cbn [for_each]. unfold ret. cbn [snd]. repeat split.
    exists []. now rewrite app_nil_r.
  - cbn [for_each]. unfold bind.
    pose proof (step_extends v cm e s) as Hturn. unfold seed_store in Hturn.
    destruct (seed_default v cm e s) as [[[] | err] s1]; cbn [snd] in *;
      [|exact Hturn].
    destruct (IH s1) as (Hv & Hr & Hf & Hh & Ht & added & Hm).
    destruct Hturn as (Hv' & Hr' & Hf' & Hh' & Ht' & added' & Hm').
    repeat split; try congruence.
    exists (added' ++ added). now rewrite Hm, Hm', app_assoc.
Qed.

Lemma initialize_for_vehicle_extends (vin : string) (s : Store) :
  let s' := snd (MaintenanceService.initialize_for_vehicle vin s) in
  vehicles s' = vehicles s
  /\ repairs s' = repairs s
  /\ fuel_logs s' = fuel_logs s
  /\ mileage_history s' = mileage_history s
  /\ trips s' = trips s
  /\ exists added, maintenance_intervals s' = maintenance_intervals s ++ added.
Proof.
  assert (Hsame : vehicles s = vehicles s
                  /\ repairs s = repairs s
                  /\ fuel_logs s = fuel_logs s
                  /\ mileage_history s = mileage_history s
                  /\ trips s = trips s
                  /\ exists added,
                       maintenance_intervals s = maintenance_intervals s ++ added).
  { repeat split. exists []. now rewrite app_nil_r. }
  intros s'.
  assert (Hs' : s' = snd (MaintenanceService.initialize_for_vehicle vin s))
    by reflexivity.
  clearbody s'. revert Hs'.
  unfold MaintenanceService.initialize_for_vehicle, bind at 1, lift.
  destruct (validate_vin vin) as [v | e] eqn:Hv; [|now intros ->].
  unfold bind at 1, execute_query at 1.
  destruct (select_current_mileage v s) as [current|]; [|now intros ->].
  unfold bind at 1.
  pose proof (for_each_seed_extends v (or_zero current) DEFAULT_INTERVALS s)
    as Hloop. cbn zeta in Hloop.
  destruct (for_each DEFAULT_INTERVALS (seed_default v (or_zero current)) s)
    as [[[] | err] s1]; cbn [snd] in *; [|now intros ->].
  unfold MaintenanceService.get_by_vin, bind, lift, execute_query.
  destruct (validate_vin v); now intros ->.
Qed.

(** The ints of a new vehicle are in range when its year is, its
    mileage is one that a double holds exactly and it names no user. *)
Lemma vehicle_ints_bound (data : VehicleData) (year : Z) :
  d_year data = Some year -> 1900 <= year <= 2100 ->
  (forall value,
     d_current_mileage data = Some (Some value) -> exact_mileage value) ->
  d_user_id data = None ->
  bound (vehicle_ints data).
Proof.
  intros Hyear Hrange Hgiven Huser n. unfold vehicle_ints.
  rewrite Hyear, Huser. intros [[= <-] | [Hn | [[=] | []]]].
  - unfold in_int64, INT64_MIN, INT64_MAX. lia.
  - destruct (d_current_mileage data) as [[value|]|]; try discriminate.
    injection Hn as <-. specialize (Hgiven value eq_refl).
    unfold exact_mileage in Hgiven. unfold in_int64, INT64_MIN, INT64_MAX. lia.
Qed.

(** VehicleService.create once its checks have passed: the row is
    inserted, then the defaults are seeded for its VIN. *)
Lemma vehicle_create_success (data : VehicleData) (s : Store)
    (v : string) (year : Z) (make model : string) :
  validate_vin (match d_vin data with Some x => x | None => EmptyString end)
  = Ok v ->
  d_year data = Some year -> 1900 <= year <= 2100 ->
  d_make data = Some make -> d_model data = Some model ->
  VehicleService.get_by_id (SqlText v) s = None ->
  (forall value,
     d_current_mileage data = Some (Some value) -> exact_mileage value) ->
  d_user_id data = None ->
  VehicleService.create data s
  = (Ok (VehicleService.get_by_id
           (SqlInteger (next_rowid (vehicles s)))
           (mkStore
              (vehicles s
               ++ [mkVehicle (next_rowid (vehicles s)) v year make model
                     (match d_current_mileage data with
                      | None => Some 0
                      | Some given => given
                      end)
                     (d_user_id data)])
              (repairs s) (fuel_logs s) (maintenance_intervals s)
              (mileage_history s) (trips s) (seq_maintenance_intervals s))),
     snd (MaintenanceService.initialize_for_vehicle v
            (mkStore
               (vehicles s
                ++ [mkVehicle (next_rowid (vehicles s)) v year make model
                      (match d_current_mileage data with
                       | None => Some 0
                       | Some given => given
                       end)
                      (d_user_id data)])
               (repairs s) (fuel_logs s) (maintenance_intervals s)
               (mileage_history s) (trips s) (seq_maintenance_intervals s)))).
Proof.
  intros Hv Hyear Hrange Hmake Hmodel Hget Hgiven Huser.
  pose proof (vehicle_ints_bound data year Hyear Hrange Hgiven Huser) as Hbound.
  destruct Hrange as [Hlo Hhi].
  unfold VehicleService.create, create_with, bind at 1, lift. rewrite Hv.
  cbn [d_vin d_year d_make d_model d_current_mileage d_user_id].
  rewrite Hyear. cbn [int_truthy or_zero].
  replace (year =? 0)%Z with false by (symmetry; apply Z.eqb_neq; lia).
  replace (1900 <=? year)%Z with true by (symmetry; apply Z.leb_le; lia).
  replace (year <=? 2100)%Z with true by (symmetry; apply Z.leb_le; lia).
  cbn [negb andb orb].
  unfold bind at 1, ret at 1.
  unfold bind at 1, execute_query at 1, exists_. rewrite Hget.
  unfold bind at 1, ret at 1.
  assert (Hmileage :
            (match d_current_mileage data with
             | Some (Some value) =>
                 bind (lift (validate_positive_number value "Mileage"))
                      (fun checked => ret (Some (Some checked)))
             | other => ret other
             end) s = (Ok (d_current_mileage data), s)).
  { destruct (d_current_mileage data) as [[value|]|]; try reflexivity.
    unfold bind, lift, ret.
    now rewrite (validate_positive_number_exact value _ (Hgiven value eq_refl)). }
  unfold lift in Hmileage. unfold bind at 1. rewrite Hmileage.
  unfold VehicleService.base_create, VehicleService.validate_required.
  cbn [d_vin d_year d_make d_model d_current_mileage d_user_id].
  rewrite Hmake, Hmodel. cbn [app].
  unfold bind at 1. unfold bind at 1, lift.
  unfold bind at 1, VehicleService.execute_insert, bind at 1.
  rewrite bind_ints_run.
  - reflexivity.
  - unfold bound, vehicle_ints in *.
    cbn [d_vin d_year d_make d_model d_current_mileage d_user_id].
    rewrite <- Hyear. exact Hbound.
Qed.

Lemma vehicle_create_duplicate (data : VehicleData) (s : Store)
    (v : string) (year : Z) :
  validate_vin (match d_vin data with Some x => x | None => EmptyString end)
  = Ok v ->
  d_year data = Some year -> 1900 <= year <= 2100 ->
  VehicleService.get_by_id (SqlText v) s <> None ->
  VehicleService.create data s
  = (Raise (ValidationError
              ("Vehicle with VIN " ++ v ++ " already exists")%string), s).
Proof.
  intros Hv Hyear [Hlo Hhi] Hget.
  unfold VehicleService.create, create_with, bind at 1, lift. rewrite Hv.
  cbn [d_vin d_year d_make d_model d_current_mileage d_user_id].
  rewrite Hyear. cbn [int_truthy or_zero].
  replace (year =? 0)%Z with false by (symmetry; apply Z.eqb_neq; lia).
  replace (1900 <=? year)%Z with true by (symmetry; apply Z.leb_le; lia).
  replace (year <=? 2100)%Z with true by (symmetry; apply Z.leb_le; lia).
  cbn [negb andb orb].
  unfold bind at 1, ret at 1.
  unfold bind at 1, execute_query at 1, exists_.
  destruct (VehicleService.get_by_id (SqlText v) s); [reflexivity | congruence].
Qed.

(** Seeding leaves the vehicles table alone, so the store after a
    creation is the seeded one. *)
Lemma seeded_after_insert (v : string) (s : Store) (row : Vehicle) :
  validate_vin v = Ok v ->
  VehicleService.get_by_id (SqlText v) s = None ->
  v_vin row = v ->
  exact_mileage (or_zero (v_current_mileage row)) ->
  id_room 10 s ->
  snd (MaintenanceService.initialize_for_vehicle v
         (mkStore (vehicles s ++ [row]) (repairs s) (fuel_logs s)
            (maintenance_intervals s) (mileage_history s) (trips s)
            (seq_maintenance_intervals s)))
  = seed_stores v (or_zero (v_current_mileage row)) DEFAULT_INTERVALS
      (mkStore (vehicles s ++ [row]) (repairs s) (fuel_logs s)
         (maintenance_intervals s) (mileage_history s) (trips s)
         (seq_maintenance_intervals s)).
Proof.
  intros Hv Hget Hrow [Hlo Hhi] Hroom.
  rewrite (initialize_for_vehicle_run v v (v_current_mileage row));
    [reflexivity | exact Hv | | | | exact Hroom];
    [|unfold in_int64, INT64_MIN, INT64_MAX; lia
     |unfold in_int64, INT64_MIN, INT64_MAX; lia].
  unfold select_current_mileage. cbn [vehicles].
  unfold VehicleService.get_by_id in Hget. cbn [text_column_eq] in Hget.
  rewrite find_snoc, Hget, Hrow, String.eqb_refl. reflexivity.
Qed.

Lemma no_row_select (v service_type : string) (s : Store) :
  no_row_of m_vin v (maintenance_intervals s) ->
  select_interval v service_type s = None.
Proof.
  unfold no_row_of, select_interval.
  induction 1 as [|m l Hm _ IH]; [reflexivity|]. cbn [find].
  destruct (String.eqb_spec (m_vin m) v); [contradiction | exact IH].
Qed.

(** On a vehicle without any of the defaults, the loop appends one row
    for each, in the order of the list. *)
Lemma seed_stores_absent (v : string) (cm : Z) (l : list (string * (Z * Z)))
    (s : Store) :
  Forall (seedable cm) l -> id_room (List.length l) s ->
  NoDup (map fst l) ->
  (forall st, In st (map fst l) -> select_interval v st s = None) ->
  exists rows,
    maintenance_intervals (seed_stores v cm l s)
    = maintenance_intervals s ++ rows
    /\ Forall2 (fun e row =>
                  row = seeded_row (m_id row) v (fst e) cm (fst (snd e))
                          (snd (snd e)))
               l rows.
Proof.
  revert s. induction l as [|e l IH]; intros s Hseedable Hroom Hnd Habsent.
  - exists []. rewrite app_nil_r. split; [reflexivity | constructor].
  - rewrite seed_stores_cons. cbn [map] in Hnd, Habsent.
    inversion Hnd as [|? ? Hfresh Hnd']; subst.
    inversion Hseedable as [|? ? He Hseedable']; subst.
    assert (Hone : id_room 1 s)
      by (unfold id_room in *; cbn [List.length] in Hroom; lia).
    pose proof (step_absent v cm e s (Habsent _ (or_introl eq_refl)) He Hone)
      as Hstep.
    destruct (IH (seed_store v cm e s) Hseedable'
                (step_room v cm (List.length l) e s Hroom) Hnd')
      as (rows & Hrows & Hall).
    { intros st Hst. apply step_keeps_absent.
      - intros Heq. apply Hfresh. now rewrite Heq.
      - apply Habsent. now right. }
    exists (seeded_row (MaintenanceService.last_id s + 1) v (fst e) cm
              (fst (snd e)) (snd (snd e)) :: rows).
    rewrite Hrows, Hstep. cbn [maintenance_intervals].
    rewrite <- app_assoc. split; [reflexivity|].
    constructor; [reflexivity | exact Hall].
Qed.

Lemma find_none_keeps_all {A} (p : A -> bool) (l : list A) :
  find p l = None -> filter (fun x => negb (p x)) l = l.
Proof.
  induction l as [|x l IH]; [reflexivity|]. cbn [find filter].
  destruct (p x); [discriminate|]. intros Hnone. cbn [negb].
  now rewrite IH.
Qed.

(** The store that creating a vehicle leaves, for a VIN that has no
    interval row yet. *)
Lemma vehicle_create_store (data : VehicleData) (s : Store)
    (v : string) (year : Z) (make model : string) :
  validate_vin (match d_vin data with Some x => x | None => EmptyString end)
  = Ok v ->
  d_year data = Some year -> 1900 <= year <= 2100 ->
  d_make data = Some make -> d_model data = Some model ->
  VehicleService.get_by_id (SqlText v) s = None ->
  (forall value,
     d_current_mileage data = Some (Some value) -> exact_mileage value) ->
  d_user_id data = None ->
  let mileage := match d_current_mileage data with
                 | None => Some 0
                 | Some given => given
                 end in
  let s' := snd (VehicleService.create data s) in
  (exists returned, fst (VehicleService.create data s) = Ok returned)
  /\ vehicles s'
     = vehicles s ++ [mkVehicle (next_rowid (vehicles s)) v year make model
                        mileage (d_user_id data)]
  /\ (repairs s' = repairs s /\ fuel_logs s' = fuel_logs s
      /\ mileage_history s' = mileage_history s /\ trips s' = trips s)
  /\ (exists added,
        maintenance_intervals s' = maintenance_intervals s ++ added)
  /\ (no_row_of m_vin v (maintenance_intervals s) -> id_room 10 s ->
      exists rows,
        maintenance_intervals s' = maintenance_intervals s ++ rows
        /\ Forall2 (fun e row =>
                      row = seeded_row (m_id row) v (fst e) (or_zero mileage)
                              (fst (snd e)) (snd (snd e)))
                   DEFAULT_INTERVALS rows).
Proof.
  intros Hv Hyear Hrange Hmake Hmodel Hget Hgiven Huser mileage s'. subst s'.
  rewrite (vehicle_create_success data s v year make model Hv Hyear Hrange
             Hmake Hmodel Hget Hgiven Huser).
  cbn [fst snd]. fold mileage.
  match goal with
  | |- context [MaintenanceService.initialize_for_vehicle v ?s1] =>
      destruct (initialize_for_vehicle_extends v s1)
        as (Hveh & Hrep & Hfuel & Hhist & Htrips & added & Hadded)
  end.
  cbn [vehicles repairs fuel_logs maintenance_intervals mileage_history trips]
    in Hveh, Hrep, Hfuel, Hhist, Htrips, Hadded.
  split; [eexists; reflexivity|].
  split; [exact Hveh|].
  split; [now repeat split|].
  split; [now exists added|].
  intros Hnone Hroom.
  assert (Hexact : exact_mileage (or_zero mileage)).
  { subst mileage. destruct (d_current_mileage data) as [[value|]|].
    - now apply Hgiven.
    - unfold exact_mileage. cbn [or_zero]. lia.
    - unfold exact_mileage. cbn [or_zero]. lia. }
  rewrite (seeded_after_insert v s
             (mkVehicle (next_rowid (vehicles s)) v year make model mileage
                (d_user_id data)))
    by (eauto using validate_vin_idempotent).
  cbn [v_current_mileage].
  match goal with
  | |- context [seed_stores v ?cm ?l ?s1] =>
      destruct (seed_stores_absent v cm l s1) as (rows & Hrows & Hall);
      [apply DEFAULT_INTERVALS_seedable;
       destruct Hexact; unfold in_int64, INT64_MIN, INT64_MAX; lia
      |exact Hroom
      |exact DEFAULT_INTERVALS_NoDup
      |intros st _; now apply no_row_select|]
  end.
  exists rows. split; [exact Hrows | exact Hall].
Qed.

(** X10.  VehicleService.create with a well-formed new VIN, a year
    within 1900..2100, a make, a model, a mileage (if any) from 0 to
    2^53, which a double holds exactly, and no user_id, in a table
    where a rowid is left, returns normally and stores one vehicle row,
    which a lookup of the VIN then finds: the normalised VIN, the given
    columns, and mileage 0 when the key was left out.  Lookups of other
    VINs and the tables other than vehicles and maintenance_intervals
    are as before.  Creating the same vehicle again raises
    ValidationError and writes nothing. *)
Theorem vehicle_create_then_lookup (data : VehicleData) (s : Store)
    (v : string) (year : Z) (make model : string) :
  validate_vin (match d_vin data with Some x => x | None => EmptyString end)
  = Ok v ->
  d_year data = Some year -> 1900 <= year <= 2100 ->
  d_make data = Some make -> d_model data = Some model ->
  VehicleService.get_by_id (SqlText v) s = None ->
  (forall value,
     d_current_mileage data = Some (Some value) -> exact_mileage value) ->
  d_user_id data = None ->
  rowid_room s ->
  let row := mkVehicle (next_rowid (vehicles s)) v year make model
               (match d_current_mileage data with
                | None => Some 0
                | Some given => given
                end)
               (d_user_id data) in
  let s' := snd (VehicleService.create data s) in
  (exists returned, fst (VehicleService.create data s) = Ok returned)
  /\ VehicleMethods.get_by_vin v s' = (Ok (Some row), s')
  /\ (forall other, other <> v ->
        VehicleService.get_by_id (SqlText other) s'
        = VehicleService.get_by_id (SqlText other) s)
  /\ (repairs s' = repairs s /\ fuel_logs s' = fuel_logs s
      /\ mileage_history s' = mileage_history s /\ trips s' = trips s)
  /\ VehicleService.create data s'
     = (Raise (ValidationError
                 ("Vehicle with VIN " ++ v ++ " already exists")%string), s').
Proof.
  intros Hv Hyear Hrange Hmake Hmodel Hget Hgiven Huser _ row s'.
  destruct (vehicle_create_store data s v year make model Hv Hyear Hrange
              Hmake Hmodel Hget Hgiven Huser)
    as (Hok & Hveh & Hothers & _).
  fold s' in Hveh, Hothers. fold row in Hveh.
  assert (Hfound : VehicleService.get_by_id (SqlText v) s' = Some row).
  { unfold VehicleService.get_by_id in *. cbn [text_column_eq] in *.
    rewrite Hveh, find_snoc, Hget. cbn [row v_vin].
    now rewrite String.eqb_refl. }
  split; [exact Hok|].
  split.
  { unfold VehicleMethods.get_by_vin, bind, lift, execute_query.
    rewrite (validate_vin_idempotent _ v Hv). now rewrite Hfound. }
  split.
  { intros other Hother.
    unfold VehicleService.get_by_id. cbn [text_column_eq].
    rewrite Hveh, find_snoc. cbn [row v_vin].
    destruct (find _ (vehicles s)); [reflexivity|].
    destruct (String.eqb_spec v other); [congruence | reflexivity]. }
  split; [exact Hothers|].
  apply (vehicle_create_duplicate data s' v year Hv Hyear Hrange).
  rewrite Hfound. discriminate.
Qed.

Lemma vehicle_create_then_lookup_witness :
  fst (VehicleMethods.get_by_vin Demo.VIN
         (snd (VehicleService.create Demo.civic empty_store)))
  = Ok (Some (mkVehicle 1 Demo.VIN 2020 "Honda" "Civic" (Some 0) None))
  /\ is_ValidationError
       (fst (VehicleService.create Demo.civic
               (snd (VehicleService.create Demo.civic empty_store)))).
Proof.
  assert (Hgiven : forall value : Z,
            d_current_mileage Demo.civic = Some (Some value) ->
            exact_mileage value)
    by (intros value [=]).
  assert (Hrowid : rowid_room empty_store)
    by (unfold rowid_room; vm_compute; discriminate).
  destruct (vehicle_create_then_lookup Demo.civic empty_store Demo.VIN 2020
              "Honda" "Civic" eq_refl eq_refl ltac:(lia) eq_refl eq_refl
              eq_refl Hgiven eq_refl Hrowid)
    as (_ & Hlookup & _ & _ & Hagain).
  split.
  - now rewrite Hlookup.
  - rewrite Hagain. eexists. reflexivity.
Defined.

(** get_overdue with a well-formed VIN returns, and only rows of the
    vehicle that are due below its current mileage. *)
Lemma get_overdue_Ok (vin v : string) (s : Store) :
  validate_vin vin = Ok v ->
  exists rows,
    MaintenanceService.get_overdue vin s = (Ok rows, s)
    /\ forall m, In m rows ->
         exists current due,
           select_current_mileage v s = Some (Some current)
           /\ In m (maintenance_intervals s) /\ m_vin m = v
           /\ m_next_due_mileage m = Some due /\ due < current.
Proof.
  intros Hv. unfold MaintenanceService.get_overdue, bind, lift, execute_query, ret.
  rewrite Hv.
  destruct (select_current_mileage v s) as [[current|]|] eqn:Hsel;
    cbn [int_truthy negb or_zero].
  - destruct (current =? 0)%Z; cbn [negb].
    + exists []. split; [reflexivity | intros m []].
    + eexists. split; [reflexivity|]. intros m Hm.
      apply order_by_In, filter_vin_overdue in Hm.
      destruct Hm as (Hin & Hvin & due & Hdue & Hlt).
      now exists current, due.
  - exists []. split; [reflexivity | intros m []].
  - exists []. split; [reflexivity | intros m []].
Qed.

Lemma Forall2_In_r {A B} (R : A -> B -> Prop) (l : list A) (l' : list B) (y : B) :
  Forall2 R l l' -> In y l' -> exists x, In x l /\ R x y.
Proof.
  induction 1 as [|x y' l l' Hxy _ IH]; [intros []|].
  intros [<- | Hin].
  - exists x. split; [now left | exact Hxy].
  - destruct (IH Hin) as (x' & Hx' & HR). exists x'. split; [now right | exact HR].
Qed.

Lemma DEFAULT_INTERVALS_positive :
  Forall (fun e => 0 < fst (snd e)) DEFAULT_INTERVALS.
Proof. repeat (constructor; [reflexivity|]). constructor. Qed.

(** X11.  On a VIN that has no interval row yet, a
    VehicleService.create that succeeds (mileage, if any, from 0 to
    2^53, no user_id, a rowid left in vehicles and ten ids left in
    maintenance_intervals) appends to maintenance_intervals exactly one
    row for each entry of DEFAULT_INTERVALS, in the order of the list:
    the default miles and months, next-due mileage = the stored mileage
    (0 for NULL) + default miles, nothing else set.  Nothing is overdue
    for the new vehicle. *)
Theorem vehicle_create_seeds_defaults (data : VehicleData) (s : Store)
    (v : string) (year : Z) (make model : string) :
  validate_vin (match d_vin data with Some x => x | None => EmptyString end)
  = Ok v ->
  d_year data = Some year -> 1900 <= year <= 2100 ->
  d_make data = Some make -> d_model data = Some model ->
  VehicleService.get_by_id (SqlText v) s = None ->
  (forall value,
     d_current_mileage data = Some (Some value) -> exact_mileage value) ->
  d_user_id data = None ->
  rowid_room s -> id_room 10 s ->
  no_row_of m_vin v (maintenance_intervals s) ->
  let mileage := match d_current_mileage data with
                 | None => Some 0
                 | Some given => given
                 end in
  let s' := snd (VehicleService.create data s) in
  (exists rows,
     maintenance_intervals s' = maintenance_intervals s ++ rows
     /\ Forall2 (fun e row =>
                   row = seeded_row (m_id row) v (fst e) (or_zero mileage)
                           (fst (snd e)) (snd (snd e)))
                DEFAULT_INTERVALS rows)
  /\ fst (MaintenanceService.get_overdue v s') = Ok [].
Proof.
  intros Hv Hyear Hrange Hmake Hmodel Hget Hgiven Huser _ Hroom Hnone mileage s'.
  destruct (vehicle_create_store data s v year make model Hv Hyear Hrange
              Hmake Hmodel Hget Hgiven Huser)
    as (_ & Hveh & _ & _ & Hseed).
  fold s' in Hveh, Hseed. fold mileage in Hveh, Hseed.
  destruct (Hseed Hnone Hroom) as (rows & Hrows & Hall).
  split; [now exists rows|].
  destruct (get_overdue_Ok v v s' (validate_vin_idempotent _ v Hv))
    as (late & Hrun & Hlate).
  rewrite Hrun. cbn [fst]. f_equal.
  destruct late as [|m late]; [reflexivity | exfalso].
  destruct (Hlate m (or_introl eq_refl))
    as (current & due & Hcurrent & Hin & Hvin & Hdue & Hlt).
  assert (Hmileage : mileage = Some current).
  { unfold select_current_mileage in Hcurrent.
    unfold VehicleService.get_by_id in Hget. cbn [text_column_eq] in Hget.
    rewrite Hveh, find_snoc, Hget in Hcurrent. cbn [v_vin] in Hcurrent.
    rewrite String.eqb_refl in Hcurrent. cbn in Hcurrent. congruence. }
  rewrite Hrows in Hin. apply in_app_or in Hin. destruct Hin as [Hold | Hnew].
  - unfold no_row_of in Hnone. rewrite Forall_forall in Hnone.
    now apply (Hnone m Hold).
  - destruct (Forall2_In_r _ _ _ _ Hall Hnew) as (e & He & Hrow).
    pose proof (proj1 (Forall_forall _ _) DEFAULT_INTERVALS_positive e He)
      as Hpositive.
    cbv beta in Hpositive.
    rewrite Hrow, Hmileage in Hdue. cbn in Hdue. injection Hdue as Hdue. lia.
Qed.

Lemma vehicle_create_seeds_defaults_witness :
  List.length (maintenance_intervals
                 (snd (VehicleService.create Demo.civic empty_store)))
  = 10%nat
  /\ fst (MaintenanceService.get_overdue Demo.VIN
            (snd (VehicleService.create Demo.civic empty_store)))
     = Ok [].
Proof.
  assert (Hgiven : forall value : Z,
            d_current_mileage Demo.civic = Some (Some value) ->
            exact_mileage value)
    by (intros value [=]).
  assert (Hrowid : rowid_room empty_store)
    by (unfold rowid_room; vm_compute; discriminate).
  assert (Hroom : id_room 10 empty_store)
    by (unfold id_room; vm_compute; discriminate).
  destruct (vehicle_create_seeds_defaults Demo.civic empty_store Demo.VIN 2020
              "Honda" "Civic" eq_refl eq_refl ltac:(lia) eq_refl eq_refl
              eq_refl Hgiven eq_refl Hrowid Hroom (Forall_nil _))
    as ((rows & Hrows & Hall) & Hnone).
  split; [|exact Hnone].
  rewrite Hrows. cbn [maintenance_intervals empty_store app].
  now rewrite <- (Forall2_length Hall).
Defined.

(** VehicleService.delete, check by check: the dependent rows go
    before the vehicle is looked up. *)
Lemma vehicle_delete_run (vin : string) (s : Store) :
  VehicleService.delete vin s
  = match validate_vin vin with
    | Raise e => (Raise e, s)
    | Ok v =>
        match VehicleService.get_by_id (SqlText v) s with
        | None =>
            (Raise (NotFoundError
                      ("vehicles with vin=" ++ v ++ " not found")%string),
             without_dependents v s)
        | Some _ =>
            (Ok true,
             mkStore (keep_other_vin v_vin v (vehicles s))
               (keep_other_vin r_vin v (repairs s))
               (keep_other_vin f_vin v (fuel_logs s))
               (keep_other_vin m_vin v (maintenance_intervals s))
               (keep_other_vin h_vin v (mileage_history s))
               (keep_other_vin t_vin v (trips s))
               (seq_maintenance_intervals s))
        end
    end.
Proof.
  destruct (validate_vin vin) as [v | e] eqn:Hv.
  - rewrite (delete_unfold vin v s Hv).
    unfold VehicleService.base_delete, bind, execute_query, raise, ret.
    replace (VehicleService.get_by_id (SqlText v) (without_dependents v s))
      with (VehicleService.get_by_id (SqlText v) s) by reflexivity.
    destruct (VehicleService.get_by_id (SqlText v) s) as [row|] eqn:Hrow;
      [|reflexivity].
    cbn [VehicleService.execute_delete_vehicle without_dependents vehicles].
    f_equal. f_equal. apply find_some_filter_length.
    unfold VehicleService.get_by_id in Hrow. now rewrite Hrow.
  - unfold VehicleService.delete, bind, lift. now rewrite Hv.
Qed.

Lemma find_keep_other_vin {A} (vin_of : A -> string) (v : string) (l : list A) :
  find (fun row => String.eqb (vin_of row) v) (keep_other_vin vin_of v l) = None.
Proof.
  induction l as [|x l IH]; [reflexivity|]. cbn [keep_other_vin filter].
  destruct (String.eqb (vin_of x) v) eqn:Hx; cbn [negb]; [exact IH|].
  cbn [find]. rewrite Hx. exact IH.
Qed.

Lemma keep_other_vin_twice {A} (vin_of : A -> string) (v : string) (l : list A) :
  keep_other_vin vin_of v (keep_other_vin vin_of v l) = keep_other_vin vin_of v l.
Proof. apply keep_other_vin_fixed, keep_other_vin_no_row. Qed.

(** X12.  Deleting the same vehicle twice: the store after the second
    VehicleService.delete is the store after the first, and the second
    call never returns normally; for a well-formed VIN it raises
    NotFoundError, whether the first call found the vehicle or not. *)
Theorem vehicle_delete_twice (vin : string) (s : Store) :
  let once := VehicleService.delete vin s in
  let twice := VehicleService.delete vin (snd once) in
  snd twice = snd once
  /\ (exists e, fst twice = Raise e)
  /\ (forall v, validate_vin vin = Ok v ->
        fst twice
        = Raise (NotFoundError ("vehicles with vin=" ++ v ++ " not found")%string)).
Proof.
  intros once twice. subst once twice.
  rewrite (vehicle_delete_run vin s).
  destruct (validate_vin vin) as [v | e] eqn:Hv.
  2: { cbn [snd]. rewrite vehicle_delete_run, Hv. cbn [fst snd].
       split; [reflexivity|]. split; [now exists e | intros v [=]]. }
  assert (Hgone : forall s1,
            VehicleService.get_by_id (SqlText v) s1 = None ->
            without_dependents v s1 = s1 ->
            let twice := VehicleService.delete vin s1 in
            snd twice = s1
            /\ (exists e, fst twice = Raise e)
            /\ (forall v', Ok v = Ok v' ->
                  fst twice
                  = Raise (NotFoundError
                             ("vehicles with vin=" ++ v' ++ " not found")%string))).
  { intros s1 Hnone Hfixed. cbv zeta.
    rewrite vehicle_delete_run, Hv, Hnone. cbn [fst snd].
    split; [exact Hfixed|]. split; [eexists; reflexivity|].
    now intros v' [= <-]. }
  destruct (VehicleService.get_by_id (SqlText v) s) as [row|] eqn:Hrow;
    cbn [snd]; apply Hgone.
  - apply find_keep_other_vin.
  - unfold without_dependents.
    cbn [vehicles repairs fuel_logs maintenance_intervals mileage_history
         trips seq_maintenance_intervals].
    now rewrite !keep_other_vin_twice.
  - exact Hrow.
  - unfold without_dependents.
    cbn [vehicles repairs fuel_logs maintenance_intervals mileage_history
         trips seq_maintenance_intervals].
    now rewrite !keep_other_vin_twice.
Qed.

Lemma keep_other_vin_seeded (v : string) (cm : Z)
    (l : list (string * (Z * Z))) (rows : list MaintenanceInterval) :
  Forall2 (fun e row =>
             row = seeded_row (m_id row) v (fst e) cm (fst (snd e)) (snd (snd e)))
          l rows ->
  keep_other_vin m_vin v rows = [].
Proof.
  induction 1 as [|e row l rows Hrow _ IH]; [reflexivity|].
  cbn [keep_other_vin filter]. rewrite Hrow. cbn [seeded_row m_vin].
  rewrite String.eqb_refl. exact IH.
Qed.

(** X13.  Creating a vehicle and deleting it again is a round trip on
    the rows: for a new VIN that no dependent row names and a creation
    that succeeds (mileage, if any, from 0 to 2^53, no user_id, a rowid
    left in vehicles and ten ids left in maintenance_intervals), delete
    after create returns True and every table holds the rows it held
    before the creation (the ten seeded intervals are gone with the
    vehicle). *)
Theorem vehicle_create_then_delete (data : VehicleData) (s : Store)
    (v : string) (year : Z) (make model : string) :
  validate_vin (match d_vin data with Some x => x | None => EmptyString end)
  = Ok v ->
  d_year data = Some year -> 1900 <= year <= 2100 ->
  d_make data = Some make -> d_model data = Some model ->
  VehicleService.get_by_id (SqlText v) s = None ->
  (forall value,
     d_current_mileage data = Some (Some value) -> exact_mileage value) ->
  d_user_id data = None ->
  rowid_room s -> id_room 10 s ->
  no_dependents v s ->
  let created := snd (VehicleService.create data s) in
  fst (VehicleService.delete v created) = Ok true
  /\ vehicles (snd (VehicleService.delete v created)) = vehicles s
  /\ same_rows s (snd (VehicleService.delete v created)).
Proof.
  intros Hv Hyear Hrange Hmake Hmodel Hget Hgiven Huser _ Hroom
    (Htrips & Hfuel & Hrepairs & Hintervals & Hhistory) created.
  destruct (vehicle_create_store data s v year make model Hv Hyear Hrange
              Hmake Hmodel Hget Hgiven Huser)
    as (_ & Hveh & (Hr & Hf & Hh & Ht) & _ & Hseed).
  fold created in Hveh, Hr, Hf, Hh, Ht, Hseed.
  destruct (Hseed Hintervals Hroom) as (rows & Hrows & Hall). clear Hseed.
  rewrite vehicle_delete_run, (validate_vin_idempotent _ v Hv).
  assert (Hfound : VehicleService.get_by_id (SqlText v) created <> None).
  { unfold VehicleService.get_by_id in *. cbn [text_column_eq] in *.
    rewrite Hveh, find_snoc, Hget. cbn [v_vin].
    rewrite String.eqb_refl. discriminate. }
  destruct (VehicleService.get_by_id (SqlText v) created) as [row|];
    [|congruence].
  cbn [fst snd]. split; [reflexivity|].
  assert (Hvehicles : keep_other_vin v_vin v (vehicles created) = vehicles s).
  { rewrite Hveh. unfold keep_other_vin. rewrite filter_app.
    unfold VehicleService.get_by_id in Hget. cbn [text_column_eq] in Hget.
    rewrite (find_none_keeps_all _ _ Hget). cbn [filter v_vin].
    rewrite String.eqb_refl. cbn [negb]. apply app_nil_r. }
  split; [exact Hvehicles|].
  unfold same_rows, same_other_tables.
  cbn [vehicles repairs fuel_logs maintenance_intervals mileage_history trips].
  rewrite Hvehicles, Hr, Hf, Hh, Ht, Hrows.
  apply keep_other_vin_fixed in Htrips, Hfuel, Hrepairs, Hhistory.
  rewrite Htrips, Hfuel, Hrepairs, Hhistory.
  repeat split.
  unfold keep_other_vin. rewrite filter_app.
  fold (keep_other_vin m_vin v (maintenance_intervals s)).
  fold (keep_other_vin m_vin v rows).
  rewrite (keep_other_vin_seeded v _ _ rows Hall).
  apply keep_other_vin_fixed in Hintervals. rewrite Hintervals.
  apply app_nil_r.
Qed.

Lemma vehicle_create_then_delete_witness :
  same_rows Demo.flat_store
    (snd (VehicleService.delete Demo.VIN
            (snd (VehicleService.create Demo.civic Demo.flat_store)))).
Proof.
  assert (Hgiven : forall value : Z,
            d_current_mileage Demo.civic = Some (Some value) ->
            exact_mileage value)
    by (intros value [=]).
  assert (Hrowid : rowid_room Demo.flat_store)
    by (unfold rowid_room; vm_compute; discriminate).
  assert (Hroom : id_room 10 Demo.flat_store)
    by (unfold id_room; vm_compute; discriminate).
  assert (Hnone : no_dependents Demo.VIN Demo.flat_store).
  { unfold no_dependents, no_row_of. cbn.
    repeat split; repeat constructor; discriminate. }
  exact (proj2 (proj2 (vehicle_create_then_delete Demo.civic Demo.flat_store
                         Demo.VIN 2020 "Honda" "Civic" eq_refl eq_refl
                         ltac:(lia) eq_refl eq_refl eq_refl Hgiven eq_refl
                         Hrowid Hroom Hnone))).
Defined.

Lemma vehicle_delete_twice_witness :
  fst (VehicleService.delete Demo.VIN
         (snd (VehicleService.delete Demo.VIN Demo.store)))
  = Raise (NotFoundError "vehicles with vin=1HGCM82633A004352 not found").
Proof.
  exact (proj2 (proj2 (vehicle_delete_twice Demo.VIN Demo.store))
           Demo.VIN eq_refl).
Defined.

(** ** Recording a service: what changes and what does not *)

Lemma NoDup_map_In_inj {A B} (f : A -> B) (l : list A) (a b : A) :
  NoDup (map f l) -> In a l -> In b l -> f a = f b -> a = b.
Proof.
  induction l as [|x l IH]; [intros _ []|].
  cbn [map]. intros Hnd. inversion Hnd as [|? ? Hx Hl]; subst.
  intros [-> | Ha] [-> | Hb] Heq; auto.
  - exfalso. apply Hx. rewrite Heq. now apply in_map.
  - exfalso. apply Hx. rewrite <- Heq. now apply in_map.
Qed.

(** X14.  After a record_service that returns, the interval it
    recorded is not overdue, provided its interval_miles is not
    negative and a mileage given in the call is within -2^53..2^53
    (so that a double holds it exactly) and not below the current
    mileage of the vehicle: no row that get_overdue then lists has the
    id of that interval, nor, when the vehicle has one interval per
    service type, its service type. *)
Theorem record_service_clears_overdue
    (today : string) (strptime : string -> option Z) (strftime : Z -> string)
    (vin v service_type : string) (date : option string) (mileage : option Z)
    (s : Store) (interval : MaintenanceInterval)
    (returned : option MaintenanceInterval) :
  validate_vin vin = Ok v ->
  select_interval v service_type s = Some interval ->
  (forall miles, m_interval_miles interval = Some miles -> 0 <= miles) ->
  (forall given, mileage = Some given -> checked_mileage given) ->
  (forall given current,
     mileage = Some given ->
     select_current_mileage v s = Some (Some current) -> current <= given) ->
  fst (MaintenanceService.record_service today strptime strftime vin
         service_type date mileage s) = Ok returned ->
  exists late,
    fst (MaintenanceService.get_overdue vin
           (snd (MaintenanceService.record_service today strptime strftime vin
                   service_type date mileage s)))
    = Ok late
    /\ (forall m, In m late -> m_id m <> m_id interval)
    /\ (one_interval_per_type s ->
        forall m, In m late -> m_service_type m <> service_type).
Proof.
  intros Hv Hsel Hmiles Hchecked Hgiven Hok.
  destruct (record_service_run today strptime strftime vin service_type date
              mileage s)
    as [(e & Hrun) | (v' & d & interval' & recorded & next_date & Hv' & Hsel'
                      & Hrecorded & Hrun)];
    rewrite Hrun in Hok |- *; [discriminate Hok|].
  clear Hok Hrun. cbn [snd].
  assert (v' = v) by congruence. subst v'.
  assert (interval' = interval) by congruence. subst interval'. clear Hv' Hsel'.
  set (data := mkServiceRecord d recorded next_date _).
  destruct (get_overdue_Ok vin v (snd (set_interval data (m_id interval) s)) Hv)
    as (late & Hlate & Hrows).
  exists late. rewrite Hlate. split; [reflexivity|].
  assert (Hnot : forall m, In m late ->
            forall m0, In m0 (maintenance_intervals s) ->
            m = (if (m_id m0 =? m_id interval)%Z
                 then set_service_record data m0 else m0) ->
            (m_id m0 =? m_id interval)%Z = false).
  { intros m Hm m0 Hm0 Hrow.
    destruct (m_id m0 =? m_id interval)%Z eqn:Hid; [exfalso | reflexivity].
    destruct (Hrows m Hm) as (current & due & Hcurrent & _ & _ & Hdue & Hlt).
    change (select_current_mileage v (snd (set_interval data (m_id interval) s)))
      with (select_current_mileage v s) in Hcurrent.
    rewrite Hrow in Hdue.
    cbn [set_service_record m_next_due_mileage data next_due_mileage] in Hdue.
    destruct (int_truthy (m_interval_miles interval)) eqn:Htruthy;
      [|discriminate Hdue].
    apply int_truthy_spec in Htruthy. destruct Htruthy as (miles & Hmi & _).
    specialize (Hmiles miles Hmi). rewrite Hmi in Hdue. cbn [or_zero] in Hdue.
    destruct recorded as [r|]; [|discriminate Hdue].
    cbn [option_map] in Hdue. injection Hdue as Hdue.
    assert (Hr : current <= r).
    { revert Hrecorded. unfold recorded_mileage.
      destruct mileage as [given|].
      - unfold bind, lift, ret.
        rewrite (validate_checked_mileage given (Hchecked given eq_refl)).
        destruct (given <? 0)%Z; [discriminate|]. intros [= <-].
        now apply (Hgiven given current).
      - unfold bind, execute_query, ret. rewrite Hcurrent. now intros [= <-]. }
    lia. }
  assert (Hsource : forall m, In m late ->
            exists m0, In m0 (maintenance_intervals s)
                       /\ m = (if (m_id m0 =? m_id interval)%Z
                               then set_service_record data m0 else m0)).
  { intros m Hm.
    destruct (Hrows m Hm) as (_ & _ & _ & Hin & _).
    unfold set_interval in Hin. cbn [snd maintenance_intervals] in Hin.
    apply in_map_iff in Hin. destruct Hin as (m0 & Hrow & Hm0).
    exists m0. split; [exact Hm0 | now symmetry]. }
  split.
  - intros m Hm Hid.
    destruct (Hsource m Hm) as (m0 & Hm0 & Hrow).
    pose proof (Hnot m Hm m0 Hm0 Hrow) as Hother.
    rewrite Hother in Hrow. subst m0.
    apply Z.eqb_neq in Hother. contradiction.
  - intros Hkeys m Hm Htype.
    destruct (Hsource m Hm) as (m0 & Hm0 & Hrow).
    pose proof (Hnot m Hm m0 Hm0 Hrow) as Hother.
    rewrite Hother in Hrow. subst m0.
    destruct (Hrows m Hm) as (_ & _ & _ & _ & Hvin & _).
    unfold select_interval in Hsel. apply find_some in Hsel.
    destruct Hsel as [Hin Hkey].
    apply andb_true_iff in Hkey. destruct Hkey as [Hkv Hkt].
    apply String.eqb_eq in Hkv, Hkt.
    assert (m = interval).
    { apply (NoDup_map_In_inj (fun m => (m_vin m, m_service_type m))
               (maintenance_intervals s)); auto.
      cbv beta. congruence. }
    subst m. now rewrite Z.eqb_refl in Hother.
Qed.

Lemma record_service_clears_overdue_witness :
  fst (MaintenanceService.get_overdue Demo.VIN Demo.store)
  = Ok [ mkInterval 1 Demo.VIN "Oil Change" (Some 5000) (Some 6)
           (Some "2024-01-01"%string) (Some 39000) (Some "2024-06-29"%string)
           (Some 44000) (Some 0) ]
  /\ exists late,
       fst (MaintenanceService.get_overdue Demo.VIN
              (snd (MaintenanceService.record_service Demo.today
                      Datetime.strptime Datetime.strftime Demo.VIN
                      "Oil Change" None None Demo.store)))
       = Ok late
       /\ forall m, In m late -> m_id m <> 1.
Proof.
  split; [reflexivity|].
  destruct (record_service_clears_overdue Demo.today Datetime.strptime
              Datetime.strftime Demo.VIN Demo.VIN "Oil Change" None None
              Demo.store
              (mkInterval 1 Demo.VIN "Oil Change" (Some 5000) (Some 6)
                 (Some "2024-01-01"%string) (Some 39000)
                 (Some "2024-06-29"%string) (Some 44000) (Some 0))
              (Some (mkInterval 1 Demo.VIN "Oil Change" (Some 5000) (Some 6)
                       (Some Demo.today) (Some 45000)
                       (Some "2025-05-03"%string) (Some 50000) (Some 0)))
              eq_refl eq_refl)
    as (late & Hlate & Hid & _).
  - intros miles [= <-]. lia.
  - intros given [=].
  - intros given current [=].
  - reflexivity.
  - exists late. split; [exact Hlate | exact Hid].
Defined.

(** X15.  What record_service leaves alone, whether it returns or
    raises: every table but maintenance_intervals, the id counter, the
    number and order of the interval rows, and in every row its id,
    VIN, service type, interval_miles, interval_months and is_custom.
    A row that does change has the id of the interval that the call
    selected for the VIN and service type. *)
Theorem record_service_frame
    (today : string) (strptime : string -> option Z) (strftime : Z -> string)
    (vin service_type : string) (date : option string) (mileage : option Z)
    (s : Store) :
  let s' := snd (MaintenanceService.record_service today strptime strftime vin
                   service_type date mileage s) in
  same_other_tables s s'
  /\ seq_maintenance_intervals s' = seq_maintenance_intervals s
  /\ exists f,
       maintenance_intervals s' = map f (maintenance_intervals s)
       /\ forall m,
            m_id (f m) = m_id m
            /\ m_vin (f m) = m_vin m
            /\ m_service_type (f m) = m_service_type m
            /\ m_interval_miles (f m) = m_interval_miles m
            /\ m_interval_months (f m) = m_interval_months m
            /\ m_is_custom (f m) = m_is_custom m
            /\ (f m <> m ->
                exists v interval,
                  validate_vin vin = Ok v
                  /\ select_interval v service_type s = Some interval
                  /\ m_id m = m_id interval).
Proof.
  intros s'. subst s'.
  destruct (record_service_run today strptime strftime vin service_type date
              mileage s)
    as [(e & ->) | (v & d & interval & recorded & next_date & Hv & Hsel & _ & ->)];
    cbn [snd].
  - split; [now repeat split|]. split; [reflexivity|].
    exists (fun m => m). split; [symmetry; apply map_id|].
    intros m. repeat split. congruence.
  - split; [now repeat split|]. split; [reflexivity|].
    eexists. split; [reflexivity|]. intros m. cbv beta.
    destruct (Z.eqb_spec (m_id m) (m_id interval)) as [Hid | Hid].
    + repeat split. intros _. now exists v, interval.
    + repeat split. congruence.
Qed.

Lemma record_service_frame_witness :
  same_other_tables Demo.store
    (snd (MaintenanceService.record_service Demo.today Datetime.strptime
            Datetime.strftime Demo.VIN "Oil Change" None (Some 46000)
            Demo.store)).
Proof.
  exact (proj1 (record_service_frame Demo.today Datetime.strptime
                  Datetime.strftime Demo.VIN "Oil Change" None (Some 46000)
                  Demo.store)).
Defined.

(** ** Deleting an interval *)

Lemma filter_fresh_id (l : list MaintenanceInterval) (row : MaintenanceInterval) :
  (forall m, In m l -> m_id m < m_id row) ->
  filter (fun m => negb (m_id m =? m_id row)%Z) (l ++ [row]) = l.
Proof.
  intros Hfresh. rewrite filter_app. cbn [filter].
  rewrite Z.eqb_refl. cbn [negb]. rewrite app_nil_r.
  induction l as [|m l IH]; [reflexivity|]. cbn [filter].
  destruct (Z.eqb_spec (m_id m) (m_id row)) as [Heq | _].
  - specialize (Hfresh m (or_introl eq_refl)). lia.
  - cbn [negb]. f_equal. apply IH. intros m' Hm'. apply Hfresh. now right.
Qed.

(** The id of a created interval is above the id counter. *)
Lemma maintenance_create_above_counter (data : IntervalData) (s s1 : Store)
    (row : MaintenanceInterval) :
  MaintenanceService.create data s = (Ok (Some row), s1) ->
  seq_maintenance_intervals s < m_id row.
Proof.
  intros Hrun.
  destruct (maintenance_create_cases data s)
    as [(e & Hraise) | (v & st & current & row' & _ & _ & _ & _ & Hstore & _
                        & _ & _ & _ & Hid)]; [congruence|].
  rewrite Hstore in Hrun. injection Hrun as <- _.
  rewrite Hid. unfold MaintenanceService.last_id. lia.
Qed.

(** X16.  MaintenanceService.delete with an id in the 64-bit range:
    an id that no interval has raises NotFoundError and leaves the
    store as it was; otherwise the call returns True, the rows with
    that id are gone, a lookup of the id finds nothing, and every other
    row, every other table and the id counter are as before. *)
Theorem maintenance_delete_spec (id_value : Z) (s : Store) :
  in_int64 id_value ->
  let result := MaintenanceService.delete id_value s in
  (MaintenanceService.get_by_id id_value s = None ->
   is_NotFoundError (fst result) /\ snd result = s)
  /\ (MaintenanceService.get_by_id id_value s <> None ->
      fst result = Ok true
      /\ MaintenanceService.get_by_id id_value (snd result) = None
      /\ (forall m, In m (maintenance_intervals (snd result))
                    <-> In m (maintenance_intervals s) /\ m_id m <> id_value)
      /\ same_other_tables s (snd result)
      /\ seq_maintenance_intervals (snd result) = seq_maintenance_intervals s).
Proof.
  intros Hrange result. subst result.
  destruct (maintenance_delete_run id_value s)
    as [[Hout _] | [(_ & Hnone & ->) | (_ & Hsome & ->)]];
    [contradiction | |]; cbn [fst snd].
  - split; [intros _; split; [eexists|]; reflexivity | congruence].
  - split; [congruence|]. intros _.
    unfold MaintenanceService.execute_delete_by_id, MaintenanceService.get_by_id.
    cbn [snd maintenance_intervals seq_maintenance_intervals].
    split; [reflexivity|]. split.
    { apply find_none_filter.
      induction (maintenance_intervals s) as [|m l IH]; [reflexivity|].
      cbn [filter]. destruct (m_id m =? id_value)%Z eqn:Hid; cbn [negb filter].
      - exact IH.
      - rewrite Hid. exact IH. }
    split.
    { intros m. rewrite filter_In, negb_true_iff, Z.eqb_neq. reflexivity. }
    split; [now repeat split | reflexivity].
Qed.

Lemma maintenance_delete_spec_witness :
  fst (MaintenanceService.delete 2 Demo.store) = Ok true
  /\ MaintenanceService.get_by_id 2
       (snd (MaintenanceService.delete 2 Demo.store)) = None
  /\ is_NotFoundError (fst (MaintenanceService.delete 7 Demo.store)).
Proof.
  destruct (maintenance_delete_spec 2 Demo.store) as [_ Hfound];
    [vm_compute; split; discriminate|].
  destruct Hfound as (Hok & Hgone & _); [discriminate|].
  destruct (maintenance_delete_spec 7 Demo.store) as [Hmissing _];
    [vm_compute; split; discriminate|].
  destruct (Hmissing eq_refl) as [Hraise _].
  split; [exact Hok|]. split; [exact Hgone | exact Hraise].
Defined.

(** X17.  Creating an interval and deleting it again by the id of the
    returned row is a round trip on the rows: delete returns True and
    every table holds the rows it held before the creation.  Only the
    id counter has moved, to the id that was handed out, so an
    interval created later gets a larger id: ids are not reused. *)
Theorem maintenance_create_then_delete (data : IntervalData) (s s1 : Store)
    (row : MaintenanceInterval) :
  MaintenanceService.create data s = (Ok (Some row), s1) ->
  let deleted := MaintenanceService.delete (m_id row) s1 in
  fst deleted = Ok true
  /\ same_rows s (snd deleted)
  /\ seq_maintenance_intervals (snd deleted) = m_id row
  /\ (forall data' row' s2,
        MaintenanceService.create data' (snd deleted) = (Ok (Some row'), s2) ->
        m_id row < m_id row').
Proof.
  intros Hrun deleted. subst deleted.
  destruct (maintenance_create_cases data s)
    as [(e & Hraise) | (v & st & current & row' & _ & _ & _ & _ & Hstore
                        & Hfresh & _ & _ & Hrange & _)]; [congruence|].
  rewrite Hstore in Hrun. injection Hrun as <- <-.
  destruct (maintenance_delete_run (m_id row')
              (mkStore (vehicles s) (repairs s) (fuel_logs s)
                 (maintenance_intervals s ++ [row'])
                 (mileage_history s) (trips s) (m_id row')))
    as [[Hout _] | [(_ & Hnone & _) | (_ & _ & ->)]]; [contradiction | |].
  { unfold MaintenanceService.get_by_id in Hnone.
    cbn [maintenance_intervals] in Hnone.
    rewrite (find_fresh_id _ _ Hfresh) in Hnone. discriminate. }
  unfold MaintenanceService.execute_delete_by_id.
  cbn [fst snd maintenance_intervals vehicles repairs fuel_logs mileage_history
       trips seq_maintenance_intervals].
  rewrite (filter_fresh_id _ _ Hfresh).
  split; [reflexivity|]. split; [now repeat split|]. split; [reflexivity|].
  intros data' row'' s2 Hagain.
  apply maintenance_create_above_counter in Hagain. exact Hagain.
Qed.

Lemma maintenance_create_then_delete_witness :
  let data := mkIntervalData (Some Demo.VIN) (Some "Wiper Blades"%string)
                (Some (Some 10000)) (Some 12) None None None None None in
  same_rows Demo.store
    (snd (MaintenanceService.delete 4
            (snd (MaintenanceService.create data Demo.store)))).
Proof.
  intros data.
  exact (proj1 (proj2 (maintenance_create_then_delete data Demo.store
                         (snd (MaintenanceService.create data Demo.store))
                         (mkInterval 4 Demo.VIN "Wiper Blades" (Some 10000)
                            (Some 12) None None None (Some 55000) (Some 0))
                         eq_refl))).
Defined.

(** ** Fuel cost summary *)

(** X18.  FuelLogService.get_cost_summary with a well-formed VIN reads
    the store and always returns.  Its fill_ups is the number of fuel
    logs of the vehicle and its total_miles the span of their odometer
    readings; with no fuel log every figure is the int 0, and
    cost_per_mile is the int 0 whenever the span is not positive.  It
    agrees with AnalyticsService.calculate_cost_per_mile: total_cost is
    that report's fuel_cost, and when the span is positive total_miles
    and cost_per_mile are its total_miles and fuel_cost_per_mile, the
    sum of the fuel costs divided by the span and rounded to 3
    decimals. *)
Theorem get_cost_summary_agrees {arith : FloatArith} (vin v : string)
    (s : Store) :
  validate_vin vin = Ok v ->
  exists summary report,
    FuelLogService.get_cost_summary vin s = (Ok summary, s)
    /\ AnalyticsService.calculate_cost_per_mile vin s = (Ok report, s)
    /\ FuelLogService.fill_ups summary
       = Z.of_nat (List.length
                     (filter (fun f => String.eqb (f_vin f) v) (fuel_logs s)))
    /\ span_of (odometer_readings v s)
         (FuelLogService.summary_total_miles summary)
    /\ FuelLogService.summary_total_cost summary = fuel_cost report
    /\ (0 < FuelLogService.summary_total_miles summary ->
        FuelLogService.summary_total_miles summary = total_miles report
        /\ FuelLogService.summary_cost_per_mile summary
           = fuel_cost_per_mile report
        /\ exists per_mile,
             div_by_int (select_fuel_cost v s)
               (FuelLogService.summary_total_miles summary) = Ok per_mile
             /\ FuelLogService.summary_cost_per_mile summary
                = Float (float_round per_mile 3))
    /\ (FuelLogService.summary_total_miles summary <= 0 ->
        FuelLogService.summary_cost_per_mile summary = Int 0)
    /\ (FuelLogService.fill_ups summary = 0 ->
        summary
        = FuelLogService.mkCostSummary 0 (Int 0) (Int 0) (Int 0) 0 (Int 0)).
Proof.
  intros Hv.
  pose proof (calculate_cost_per_mile_run vin v s Hv) as Hreport.
  cbv zeta in Hreport. rewrite Hreport. clear Hreport.
  unfold FuelLogService.get_cost_summary, bind at 1, lift. rewrite Hv.
  unfold bind at 1, execute_query at 1.
  unfold select_fuel_cost, select_odometer_range, odometer_readings.
  cbn [fst snd].
  remember (filter (fun f => String.eqb (f_vin f) v) (fuel_logs s)) as logs
    eqn:Hlogs.
  destruct logs as [|log rest].
  - cbn [List.length Z.of_nat Z.eqb map sql_max sql_min or_zero coalesce_sum].
    unfold ret.
    do 2 eexists. split; [reflexivity|]. split; [reflexivity|].
    cbn [FuelLogService.fill_ups FuelLogService.summary_total_miles
         FuelLogService.summary_total_cost FuelLogService.summary_cost_per_mile
         fuel_cost total_miles fuel_cost_per_mile py_round].
    split; [reflexivity|]. split; [left; now split|].
    split; [reflexivity|]. split; [lia|]. split; reflexivity.
  - change (Z.of_nat (List.length (log :: rest)) =? 0)%Z with false.
    cbv iota. rewrite per_mile_Ok. unfold bind, lift, ret.
    do 2 eexists. split; [reflexivity|]. split; [reflexivity|].
    cbn [FuelLogService.fill_ups FuelLogService.summary_total_miles
         FuelLogService.summary_total_cost FuelLogService.summary_cost_per_mile
         fuel_cost total_miles fuel_cost_per_mile coalesce_sum map].
    split; [reflexivity|]. split; [apply min_max_span|].
    split; [reflexivity|].
    set (span := or_zero (sql_max (f_odometer log :: map f_odometer rest))
                 - or_zero (sql_min (f_odometer log :: map f_odometer rest))).
    split.
    { intros Hpos.
      replace (span <=? 0)%Z with false by (symmetry; apply Z.leb_gt; lia).
      replace (0 <? span)%Z with true by (symmetry; apply Z.ltb_lt; lia).
      split; [reflexivity|]. split; [reflexivity|].
      eexists. split; [|reflexivity].
      unfold div_by_int. destruct (Z.eqb_spec span 0); [lia | reflexivity]. }
    split.
    { intros Hzero.
      now replace (0 <? span)%Z with false by (symmetry; apply Z.ltb_ge; lia). }
    discriminate.
Qed.

Lemma get_cost_summary_agrees_witness :
  exists summary report,
    FuelLogService.get_cost_summary (arith := ExactArith.exact)
      Demo.VIN Demo.store = (Ok summary, Demo.store)
    /\ AnalyticsService.calculate_cost_per_mile (arith := ExactArith.exact)
         Demo.VIN Demo.store
       = (Ok report, Demo.store)
    /\ FuelLogService.summary_total_miles summary = 300
    /\ FuelLogService.summary_total_cost summary = fuel_cost report
    /\ FuelLogService.summary_cost_per_mile summary = fuel_cost_per_mile report.
Proof.
  destruct (get_cost_summary_agrees (arith := ExactArith.exact)
              Demo.VIN Demo.VIN Demo.store eq_refl)
    as (summary & report & Hsummary & Hreport & _ & _ & Hcost & Hpos & _).
  assert (Hmiles : FuelLogService.summary_total_miles summary = 300).
  { assert (Heq : Ok summary
                  = fst (FuelLogService.get_cost_summary
                           (arith := ExactArith.exact) Demo.VIN Demo.store))
      by now rewrite Hsummary.
    vm_compute in Heq. injection Heq as ->. reflexivity. }
  exists summary, report.
  split; [exact Hsummary|]. split; [exact Hreport|].
  split; [exact Hmiles|]. split; [exact Hcost|].
  apply Hpos. rewrite Hmiles. lia.
Defined.

(** ** Listing the intervals of a vehicle *)

Lemma next_due_asc_nulls_last_total (a b : MaintenanceInterval) :
  next_due_asc_nulls_last a b = false -> next_due_asc_nulls_last b a = true.
Proof.
  unfold next_due_asc_nulls_last.
  destruct (m_next_due_mileage a), (m_next_due_mileage b); try easy.
  intros H. apply Z.leb_gt in H. apply Z.leb_le. lia.
Qed.

Lemma next_due_asc_nulls_last_trans (a b c : MaintenanceInterval) :
  next_due_asc_nulls_last a b = true -> next_due_asc_nulls_last b c = true ->
  next_due_asc_nulls_last a c = true.
Proof.
  unfold next_due_asc_nulls_last.
  destruct (m_next_due_mileage a), (m_next_due_mileage b),
    (m_next_due_mileage c); try easy.
  intros H1 H2. apply Z.leb_le in H1, H2. apply Z.leb_le. lia.
Qed.

Lemma StronglySorted_after {A} (R : A -> A -> Prop) (l1 l2 : list A) (x : A) :
  StronglySorted R (l1 ++ x :: l2) -> Forall (R x) l2.
Proof.
  induction l1 as [|y l1 IH]; cbn [app]; intros Hs;
    inversion Hs; subst; auto.
Qed.

(** X19.  MaintenanceService.get_by_vin with a well-formed VIN reads the
    store and returns exactly the interval rows of the vehicle, each as
    often as the table holds it, in ascending next-due mileage, the
    rows without a next-due mileage after all the others. *)
Theorem maintenance_get_by_vin_listing (vin v : string) (s : Store) :
  validate_vin vin = Ok v ->
  exists rows,
    MaintenanceService.get_by_vin vin s = (Ok rows, s)
    /\ Permutation rows
         (filter (fun m => String.eqb (m_vin m) v) (maintenance_intervals s))
    /\ StronglySorted due_no_later rows
    /\ (forall before m after,
          rows = before ++ m :: after -> m_next_due_mileage m = None ->
          forall m', In m' after -> m_next_due_mileage m' = None).
Proof.
  intros Hv.
  unfold MaintenanceService.get_by_vin, bind, lift, execute_query. rewrite Hv.
  eexists. split; [reflexivity|].
  split; [apply order_by_perm|].
  assert (Hsorted : StronglySorted
                      (fun a b => next_due_asc_nulls_last a b = true)
                      (order_by next_due_asc_nulls_last
                         (filter (fun m => String.eqb (m_vin m) v)
                                 (maintenance_intervals s))))
    by (apply order_by_sorted;
        [exact next_due_asc_nulls_last_total
        | exact next_due_asc_nulls_last_trans]).
  split.
  - eapply StronglySorted_impl; [|exact Hsorted].
    intros a b Hle x y Ha Hb. unfold next_due_asc_nulls_last in Hle.
    rewrite Ha, Hb in Hle. now apply Z.leb_le.
  - intros before m after Hsplit Hnull m' Hm'.
    rewrite Hsplit in Hsorted. apply StronglySorted_after in Hsorted.
    rewrite Forall_forall in Hsorted. specialize (Hsorted m' Hm').
    unfold next_due_asc_nulls_last in Hsorted. rewrite Hnull in Hsorted.
    now destruct (m_next_due_mileage m').
Qed.

Lemma maintenance_get_by_vin_listing_witness :
  exists rows,
    MaintenanceService.get_by_vin Demo.VIN Demo.store = (Ok rows, Demo.store)
    /\ StronglySorted due_no_later rows.
Proof.
  destruct (maintenance_get_by_vin_listing Demo.VIN Demo.VIN Demo.store eq_refl)
    as (rows & Hrun & _ & Hsorted & _).
  exists rows. split; [exact Hrun | exact Hsorted].
Defined.

(** ** The record endpoint *)

(** A service recorded without a mileage on a vehicle whose mileage is
    NULL: the sum [mileage + interval_miles] raises TypeError. *)
Lemma record_service_null_mileage
    (today : string) (strptime : string -> option Z) (strftime : Z -> string)
    (vin v service_type d : string) (date : option string) (s : Store)
    (interval : MaintenanceInterval) :
  validate_vin vin = Ok v ->
  recorded_date today strptime date = Ok d ->
  select_interval v service_type s = Some interval ->
  int_truthy (m_interval_miles interval) = true ->
  select_current_mileage v s = Some None ->
  MaintenanceService.record_service today strptime strftime vin service_type
    date None s
  = (Raise TypeError, s).
Proof.
  intros Hv Hd Hsel Htruthy Hcurrent.
  unfold MaintenanceService.record_service, bind at 1, lift. rewrite Hv.
  unfold bind at 1. rewrite Hd.
  unfold bind at 1, execute_query at 1. rewrite Hsel.
  unfold bind at 1, recorded_mileage, bind at 1, execute_query at 1.
  rewrite Hcurrent. unfold ret at 1.
  unfold bind at 1. rewrite Htruthy. reflexivity.
Qed.

(** X20.  The handler of POST /vehicle/<vin>/record answers 200, 400,
    404 or 500, with success true exactly at 200, and any answer other
    than 200 leaves the store as it was.  For a well-formed VIN and a
    date that is absent or well-formed, it answers 500 when the service
    type has an interval with a mileage interval other than 0, the body
    gives no mileage and the current mileage of the vehicle is NULL:
    the TypeError of the sum is caught by the last except clause. *)
Theorem record_route_statuses
    (today : string) (strptime : string -> option Z) (strftime : Z -> string)
    (vin : string) (data : option MaintenanceRoutes.RecordBody) (s : Store) :
  let answer := MaintenanceRoutes.record_service today strptime strftime vin
                  data s in
  let response := fst answer in
  (MaintenanceRoutes.status response = 200
   \/ MaintenanceRoutes.status response = 400
   \/ MaintenanceRoutes.status response = 404
   \/ MaintenanceRoutes.status response = 500)
  /\ (MaintenanceRoutes.success response = true
      <-> MaintenanceRoutes.status response = 200)
  /\ (MaintenanceRoutes.status response <> 200 -> snd answer = s)
  /\ (forall body v service_type d interval,
        data = Some body ->
        MaintenanceRoutes.get (MaintenanceRoutes.b_service_type body)
        = Some service_type ->
        service_type <> EmptyString ->
        MaintenanceRoutes.get (MaintenanceRoutes.b_mileage body) = None ->
        validate_vin vin = Ok v ->
        recorded_date today strptime
          (MaintenanceRoutes.get (MaintenanceRoutes.b_date body)) = Ok d ->
        select_interval v service_type s = Some interval ->
        int_truthy (m_interval_miles interval) = true ->
        select_current_mileage v s = Some None ->
        response
        = MaintenanceRoutes.mkResponse false None None
            (Some (MaintenanceRoutes.StrOf TypeError)) 500).
Proof.
  intros answer response. subst response answer.
  split; [|split; [|split]].
  - unfold MaintenanceRoutes.record_service.
    destruct data as [body|]; [|cbn; auto].
    destruct (MaintenanceRoutes.body_is_empty body); [cbn; auto|].
    destruct (MaintenanceRoutes.get (MaintenanceRoutes.b_service_type body))
      as [service_type|]; [|cbn; auto].
    destruct (negb (str_truthy service_type)); [cbn; auto|].
    destruct (MaintenanceService.record_service _ _ _ _ _ _ _ s)
      as [[interval | []] s1]; cbn; auto.
  - unfold MaintenanceRoutes.record_service.
    destruct data as [body|]; [|cbn; split; [discriminate | lia]].
    destruct (MaintenanceRoutes.body_is_empty body);
      [cbn; split; [discriminate | lia]|].
    destruct (MaintenanceRoutes.get (MaintenanceRoutes.b_service_type body))
      as [service_type|]; [|cbn; split; [discriminate | lia]].
    destruct (negb (str_truthy service_type));
      [cbn; split; [discriminate | lia]|].
    destruct (MaintenanceService.record_service _ _ _ _ _ _ _ s)
      as [[interval | []] s1]; cbn; split; (reflexivity || discriminate || lia).
  - unfold MaintenanceRoutes.record_service.
    destruct data as [body|]; [|reflexivity].
    destruct (MaintenanceRoutes.body_is_empty body); [reflexivity|].
    destruct (MaintenanceRoutes.get (MaintenanceRoutes.b_service_type body))
      as [service_type|]; [|reflexivity].
    destruct (negb (str_truthy service_type)); [reflexivity|].
    pose proof (record_service_all_or_nothing today strptime strftime vin
                  service_type
                  (MaintenanceRoutes.get (MaintenanceRoutes.b_date body))
                  (MaintenanceRoutes.get (MaintenanceRoutes.b_mileage body)) s)
      as Hatomic.
    destruct (MaintenanceService.record_service _ _ _ _ _ _ _ s)
      as [[interval | e] s1].
    + cbn. congruence.
    + specialize (Hatomic e eq_refl). cbn [snd] in Hatomic. subst s1.
      now destruct e.
  - intros body v service_type d interval -> Htype Hnonempty Hmileage Hv Hd
      Hsel Htruthy Hcurrent.
    unfold MaintenanceRoutes.record_service.
    assert (Hbody : MaintenanceRoutes.body_is_empty body = false).
    { unfold MaintenanceRoutes.body_is_empty, MaintenanceRoutes.get in *.
      now destruct (MaintenanceRoutes.b_service_type body). }
    apply str_truthy_spec in Hnonempty.
    rewrite Hbody, Htype, Hnonempty, Hmileage. cbn [negb].
    now rewrite (record_service_null_mileage today strptime strftime vin v
                   service_type d _ s interval Hv Hd Hsel Htruthy Hcurrent).
Qed.

Lemma record_route_statuses_witness :
  let created :=
    snd (VehicleService.create
           (VehicleService.mkVehicleData (Some Demo.VIN) (Some 2020)
              (Some "Honda"%string) (Some "Civic"%string) (Some None) None)
           empty_store) in
  MaintenanceRoutes.status
    (fst (MaintenanceRoutes.record_service Demo.today Datetime.strptime
            Datetime.strftime Demo.VIN
            (Some (MaintenanceRoutes.mkRecordBody
                     (Some (Some "Oil Change"%string)) None None false))
            created))
  = 500.
Proof.
  intros created.
  destruct (record_route_statuses Demo.today Datetime.strptime
              Datetime.strftime Demo.VIN
              (Some (MaintenanceRoutes.mkRecordBody
                       (Some (Some "Oil Change"%string)) None None false))
              created) as (_ & _ & _ & Hnull).
  rewrite (Hnull _ Demo.VIN "Oil Change"%string Demo.today
             (mkInterval 1 Demo.VIN "Oil Change" (Some 5000) (Some 6) None None
                None (Some 5000) (Some 0))
             eq_refl eq_refl ltac:(discriminate) eq_refl eq_refl eq_refl
             eq_refl eq_refl eq_refl).
  reflexivity.
Defined.

(** ** Fuel economy: the figures are consistent *)

(** What mpg_statistics makes of at most [limit + 1] logs. *)
Lemma mpg_statistics_consistent {arith : FloatArith}
    (no_logs no_values : option string) (logs : list FuelLog) (limit : Z) :
  0 <= limit ->
  (List.length logs <= Z.to_nat (limit + 1))%nat ->
  exists r,
    mpg_statistics no_logs no_values logs = Ok r
    /\ consistent_figures limit r
    /\ (forall figure,
          In figure [last_mpg r; best_mpg r; worst_mpg r] -> figure <> None ->
          exists p,
            In p (consecutive_pairs logs) /\ usable_pair p = true
            /\ figure = Some (float_round (pair_mpg p) 1)).
Proof.
  intros Hlimit Hlen. unfold mpg_statistics.
  destruct (Z.of_nat (List.length logs) <? 2)%Z.
  { eexists. split; [reflexivity|].
    split; [split; [cbn; lia | reflexivity]|].
    intros figure [<- | [<- | [<- | []]]]; cbn; congruence. }
  rewrite mpg_values_pairs.
  assert (Hcount : (List.length (map pair_mpg
                                   (filter usable_pair (consecutive_pairs logs)))
                    <= Z.to_nat limit)%nat).
  { rewrite length_map.
    pose proof (filter_length_le usable_pair (consecutive_pairs logs)).
    rewrite consecutive_pairs_length in *. lia. }
  assert (Hsource : forall y,
            In y (map pair_mpg (filter usable_pair (consecutive_pairs logs))) ->
            exists p, In p (consecutive_pairs logs) /\ usable_pair p = true
                      /\ y = pair_mpg p).
  { intros y Hy. apply in_map_iff in Hy. destruct Hy as (p & <- & Hp).
    apply filter_In in Hp. exists p. tauto. }
  destruct (map pair_mpg _) as [|first values].
  { eexists. split; [reflexivity|].
    split; [split; [cbn; lia | reflexivity]|].
    intros figure [<- | [<- | [<- | []]]]; cbn; congruence. }
  destruct (div_by_length (Float (float_sum (first :: values))) first values)
    as [average ->].
  destruct (py_max_Ok first values) as [best Hbest].
  destruct (py_min_Ok first values) as [worst Hworst].
  rewrite Hbest, Hworst.
  apply py_max_In in Hbest. apply py_min_In in Hworst.
  eexists. split; [reflexivity|].
  cbn [last_mpg best_mpg worst_mpg]. split.
  { unfold consistent_figures.
    cbn [data_points average_mpg last_mpg best_mpg worst_mpg].
    split; [cbn [List.length] in *; lia | cbn [List.length]; lia]. }
  intros figure [<- | [<- | [<- | []]]] _.
  - destruct (Hsource first (or_introl eq_refl)) as (p & Hp & Hu & ->).
    now exists p.
  - destruct (Hsource best Hbest) as (p & Hp & Hu & ->). now exists p.
  - destruct (Hsource worst Hworst) as (p & Hp & Hu & ->). now exists p.
Qed.

(** X21.  For a well-formed VIN and a limit N >= 0 with N + 1 in the
    64-bit range, both calculate_mpg methods return figures that fit
    together: either no figure at all and a count of 0, or the four
    figures and a count between 1 and N (between 1 and 10 for
    AnalyticsService).  last_mpg, best_mpg and worst_mpg are each the
    value of a usable pair of consecutive logs of the query, rounded to
    one decimal.  With N = 10 the two methods give the same figures and
    count. *)
Theorem calculate_mpg_consistent {arith : FloatArith} (vin v : string)
    (limit : Z) (s : Store) :
  validate_vin vin = Ok v ->
  0 <= limit ->
  in_int64 (limit + 1) ->
  exists recent overall,
    FuelLogService.calculate_mpg vin limit s = (Ok recent, s)
    /\ AnalyticsService.calculate_mpg vin s = (Ok overall, s)
    /\ consistent_figures limit recent
    /\ consistent_figures 10 overall
    /\ (forall figure,
          In figure [last_mpg recent; best_mpg recent; worst_mpg recent] ->
          figure <> None ->
          exists p,
            In p (consecutive_pairs (select_full_tank_logs v (limit + 1) s))
            /\ usable_pair p = true
            /\ figure = Some (float_round (pair_mpg p) 1))
    /\ (limit = 10 ->
        average_mpg recent = average_mpg overall
        /\ last_mpg recent = last_mpg overall
        /\ best_mpg recent = best_mpg overall
        /\ worst_mpg recent = worst_mpg overall
        /\ data_points recent = data_points overall).
Proof.
  intros Hv Hlimit Hrange.
  destruct (calculate_mpg_run vin v limit s Hv) as [Hrun ->].
  rewrite (Hrun Hrange). clear Hrun.
  destruct (mpg_statistics_consistent
              (Some "Need at least 2 full tank fill-ups to calculate MPG"%string)
              (Some "Unable to calculate MPG from available data"%string)
              (select_full_tank_logs v (limit + 1) s) limit Hlimit)
    as (recent & Hrecent & Hfit & Hpicked).
  { unfold select_full_tank_logs. rewrite sql_limit_length by lia. lia. }
  destruct (mpg_statistics_consistent None None
              (select_full_tank_logs v 11 s) 10 ltac:(lia))
    as (overall & Hoverall & Hfit' & _).
  { unfold select_full_tank_logs. rewrite sql_limit_length by lia.
    change (Z.to_nat (10 + 1)) with (Z.to_nat 11). lia. }
  exists recent, overall. rewrite Hrecent, Hoverall.
  split; [reflexivity|]. split; [reflexivity|].
  split; [exact Hfit|]. split; [exact Hfit'|]. split; [exact Hpicked|].
  intros ->. change (10 + 1) with 11 in Hrecent.
  revert Hrecent Hoverall. unfold mpg_statistics.
  destruct (Z.of_nat (List.length (select_full_tank_logs v 11 s)) <? 2)%Z.
  { intros [= <-] [= <-]. repeat split. }
  destruct (mpg_values (select_full_tank_logs v 11 s)) as [[|first values]|e];
    [intros [= <-] [= <-]; repeat split | | discriminate].
  destruct (div_by_int _ _); [|discriminate].
  destruct (py_max _); [|discriminate].
  destruct (py_min _); [|discriminate].
  intros [= <-] [= <-]. repeat split.
Qed.

Lemma calculate_mpg_consistent_witness :
  exists recent overall,
    FuelLogService.calculate_mpg (arith := ExactArith.exact)
      Demo.VIN 10 Demo.store = (Ok recent, Demo.store)
    /\ AnalyticsService.calculate_mpg (arith := ExactArith.exact)
         Demo.VIN Demo.store
       = (Ok overall, Demo.store)
    /\ consistent_figures 10 recent
    /\ average_mpg recent = average_mpg overall.
Proof.
  destruct (calculate_mpg_consistent (arith := ExactArith.exact)
              Demo.VIN Demo.VIN 10 Demo.store eq_refl ltac:(lia))
    as (recent & overall & Hrecent & Hoverall & Hfit & _ & _ & Hsame).
  - vm_compute. split; discriminate.
  - exists recent, overall.
    split; [exact Hrecent|]. split; [exact Hoverall|]. split; [exact Hfit|].
    exact (proj1 (Hsame eq_refl)).
Defined.

(** ** Validated VINs are normal forms *)

(** X22.  validate_vin does not look at the case of its argument: the
    upper-cased argument gives the same result, error or VIN.  A VIN
    that it returns is a normal form: upper-casing or stripping it
    changes nothing and validating it again returns it unchanged; the
    stripped argument validates to the same VIN. *)
Theorem validate_vin_normal_form :
  (forall vin, validate_vin (upper vin) = validate_vin vin)
  /\ (forall vin v,
        validate_vin vin = Ok v ->
        validate_vin v = Ok v
        /\ validate_vin (strip vin) = Ok v
        /\ upper v = v
        /\ strip v = v).
Proof.
  split.
  - intros vin. unfold validate_vin.
    rewrite strip_upper, upper_idempotent. now destruct vin.
  - intros vin v Hv.
    destruct (validate_vin_Ok vin v Hv) as (Hnormal & Hlen & Hany).
    split; [now apply (validate_vin_idempotent vin)|].
    split; [|split].
    + unfold validate_vin. rewrite strip_idempotent, <- Hnormal, Hlen, Hany.
      destruct (strip vin) eqn:Hstrip; [|reflexivity].
      subst v. discriminate Hlen.
    + subst v. apply upper_idempotent.
    + subst v. now rewrite strip_upper, strip_idempotent.
Qed.

Lemma validate_vin_normal_form_witness :
  validate_vin " 1hgcm82633a004352 " = Ok Demo.VIN
  /\ validate_vin (strip " 1hgcm82633a004352 ") = Ok Demo.VIN
  /\ validate_vin Demo.VIN = Ok Demo.VIN.
Proof.
  destruct (proj2 validate_vin_normal_form " 1hgcm82633a004352 "%string
              Demo.VIN eq_refl) as (Hagain & Hstrip & _).
  split; [reflexivity|]. split; [exact Hstrip | exact Hagain].
Defined.
